(** * Mini-Shell: job table, signal reaper, command parsing and pipeline launch

    A shallow embedding of [minishell.c].  The global variables of the C
    program ([jobs], [job_count], [next_job_id], [history]) become the fields
    of one record that every function threads through; what the program
    writes and the system calls it makes are appended to a trace; the answers
    of the operating system ([fork], [pipe], [waitpid], ...) are read from an
    explicit record of answers. *)

From Stdlib Require Import ZArith String Ascii Bool Sorted Lia.
From stdpp Require Import base numbers list strings.

Open Scope string_scope.
Open Scope list_scope.
Open Scope nat_scope.

(** ** Constants *)

Definition MAX_INPUT : nat := 2048.
Definition MAX_ARGS : nat := 128.
Definition MAX_CMDS : nat := 32.
Definition MAX_JOBS : nat := 64.

Definition INT_MAX : Z := 2147483647.

(** [int] arithmetic: the value of [x] as a 32-bit two's complement [int]. *)
Definition wrap_int (x : Z) : Z := ((x + 2 ^ 31) mod 2 ^ 32 - 2 ^ 31)%Z.

(** ** Jobs *)

Inductive job_state := JOB_RUNNING | JOB_STOPPED | JOB_DONE.

Global Instance job_state_eq_dec : EqDecision job_state.
Proof. solve_decision. Defined.

Module Job.
Record t := mk {
  id : Z;               (* 1-based job id *)
  pgid : Z;             (* process group id *)
  cmdline : string;
  state : job_state
}.

(** [j.state = s] *)
Definition with_state (s : job_state) (j : t) : t :=
  {| id := id j; pgid := pgid j; cmdline := cmdline j; state := s |}.

(** A slot of the zero-initialised static array. *)
Definition zero : t :=
  {| id := 0; pgid := 0; cmdline := EmptyString; state := JOB_RUNNING |}.
End Job.

Global Instance Job_inhabited : Inhabited Job.t := populate Job.zero.

(** ** What the shell does to the outside world *)

Inductive signal := SIGCONT | SIGTERM | SIGNULL.

Inductive printf_arg := ArgInt (z : Z) | ArgStr (s : string).

Inductive stdio :=
| Inherited
| PipeRead (k : nat)
| PipeWrite (k : nat)
| FileRead (path : string)
| FileTrunc (path : string)
| FileAppend (path : string).

(** How a forked child ends its own code: it leaves with [_exit(status)], or
    [execvp] replaces it by the program. *)
Inductive child_fate :=
| ChildExit (status : Z)
| ChildExec (file : string) (args : list string).

Record child := {
  c_pid : Z;
  c_pgid : Z;                 (* the group it puts itself into *)
  c_stage : nat;
  c_takes_terminal : bool;    (* tcsetpgrp(STDIN_FILENO, pgid) in the child *)
  c_stdin : stdio;
  c_stdout : stdio;
  c_perror : option string;   (* what the child reports before leaving *)
  c_fate : child_fate
}.

Inductive effect :=
| Printf (fmt : string) (args : list printf_arg)
| Eprintf (msg : string)                 (* fprintf(stderr, msg) *)
| Perror (what : string)
| Puts (s : string)
| Pipe (k : nat)                         (* pipe(pipes[k]) succeeded *)
| ClosePipe (k : nat)                    (* close(pipes[k][0]); close(pipes[k][1]) *)
| Fork (c : child)                       (* fork() returned c's pid in the shell *)
| Setpgid (pid pg : Z)
| Tcsetpgrp (pg : Z)
| Kill (target : Z) (sig : signal)
| Waitpid (target : Z) (status : Z)      (* a waitpid that returned > 0 *)
| Chdir (dir : string)
| SaveHistory (lines : list string).

(** ** The shell's global state *)

Record shell := {
  jobs : list Job.t;          (* static Job jobs[MAX_JOBS] *)
  job_count : nat;
  next_job_id : Z;
  history : list string;      (* history[0 .. history_len) *)
  out : list effect           (* trace, oldest first *)
}.

Definition set_jobs (js : list Job.t) (st : shell) : shell :=
  {| jobs := js; job_count := job_count st; next_job_id := next_job_id st;
     history := history st; out := out st |}.

Definition set_job_count (n : nat) (st : shell) : shell :=
  {| jobs := jobs st; job_count := n; next_job_id := next_job_id st;
     history := history st; out := out st |}.

Definition set_next_job_id (n : Z) (st : shell) : shell :=
  {| jobs := jobs st; job_count := job_count st; next_job_id := n;
     history := history st; out := out st |}.

Definition emit (e : effect) (st : shell) : shell :=
  {| jobs := jobs st; job_count := job_count st; next_job_id := next_job_id st;
     history := history st; out := out st ++ [e] |}.

(** The state at program start: a zeroed array, no job, next id 1. *)
Definition initial_shell : shell :=
  {| jobs := replicate MAX_JOBS Job.zero; job_count := 0; next_job_id := 1;
     history := []; out := [] |}.

(** The array has its [MAX_JOBS] slots and [job_count] stays within it. *)
Definition wf (st : shell) : Prop :=
  length (jobs st) = MAX_JOBS /\ job_count st <= MAX_JOBS.

(** The Job Table proper: the first [job_count] slots, in order. *)
Definition table (st : shell) : list Job.t := take (job_count st) (jobs st).

(** ** Job table *)

(** [for (i = ..; i < job_count; i++) if (p(jobs[i])) return i; return -1;]
    with [n] slots still to visit; [None] stands for [-1]. *)
Fixpoint find_job_index_from (p : Job.t -> bool) (js : list Job.t) (i n : nat)
  : option nat :=
  match n with
  | O => None
  | S n' => if p (js !!! i) then Some i else find_job_index_from p js (S i) n'
  end.

Definition find_job_index_by_id (id : Z) (st : shell) : option nat :=
  find_job_index_from (fun j => (Job.id j =? id)%Z) (jobs st) 0 (job_count st).

Definition find_job_index_by_pgid (pg : Z) (st : shell) : option nat :=
  find_job_index_from (fun j => (Job.pgid j =? pg)%Z) (jobs st) 0 (job_count st).

Definition is_done (s : job_state) : bool :=
  match s with JOB_DONE => true | _ => false end.

Definition state_name (s : job_state) : string :=
  match s with
  | JOB_RUNNING => "Running"
  | JOB_STOPPED => "Stopped"
  | JOB_DONE => "Done"
  end.

(** [printf("[%d] %d  %-8s  %s\n", j.id, j.pgid, st, j.cmdline)] *)
Definition job_line (j : Job.t) : effect :=
  Printf "[%d] %d  %-8s  %s\n"
    [ArgInt (Job.id j); ArgInt (Job.pgid j);
     ArgStr (state_name (Job.state j)); ArgStr (Job.cmdline j)].

(** The loop of [print_jobs], [n] slots still to visit from slot [i]. *)
Fixpoint print_jobs_from (js : list Job.t) (i n : nat) (st : shell) : shell :=
  match n with
  | O => st
  | S n' =>
      let j := js !!! i in
      if is_done (Job.state j) then print_jobs_from js (S i) n' st
      else print_jobs_from js (S i) n' (emit (job_line j) st)
  end.

Definition print_jobs (st : shell) : shell :=
  print_jobs_from (jobs st) 0 (job_count st) st.

(** The loop of [remove_done_jobs]: read index [r], write index [w], [n]
    slots still to read; returns the final [w] and the array. *)
Fixpoint remove_done_loop (n r w : nat) (js : list Job.t) : nat * list Job.t :=
  match n with
  | O => (w, js)
  | S n' =>
      if negb (is_done (Job.state (js !!! r))) then
        remove_done_loop n' (S r) (S w)
          (if decide (w = r) then js else <[w := js !!! r]> js)
      else remove_done_loop n' (S r) w js
  end.

Definition remove_done_jobs (st : shell) : shell :=
  let '(w, js) := remove_done_loop (job_count st) 0 0 (jobs st) in
  set_job_count w (set_jobs js st).

(** [strncpy(dst, src, n); dst[n] = 0]: at most the first [n] characters. *)
Fixpoint strncpy (n : nat) (s : string) : string :=
  match n, s with
  | S n', String c s' => String c (strncpy n' s')
  | _, _ => EmptyString
  end.

Definition add_job_entry (pg : Z) (cmdline : string) (s : job_state)
  (st : shell) : shell :=
  if decide (MAX_JOBS <= job_count st) then st
  else
    let j := {| Job.id := next_job_id st; Job.pgid := pg;
                Job.cmdline := strncpy (MAX_INPUT - 1) cmdline;
                Job.state := s |} in
    set_job_count (S (job_count st))
      (set_jobs (<[job_count st := j]> (jobs st))
         (set_next_job_id (wrap_int (next_job_id st + 1)) st)).

(** [jobs[idx].state = s] *)
Definition set_job_state (idx : nat) (s : job_state) (st : shell) : shell :=
  set_jobs (<[idx := Job.with_state s (jobs st !!! idx)]> (jobs st)) st.

(** A job that is not [JOB_DONE]. *)
Definition alive (j : Job.t) : Prop := Job.state j <> JOB_DONE.

Global Instance alive_dec j : Decision (alive j).
Proof. unfold alive. apply _. Defined.

(** ** Parsing *)

Module Command.
Record t := mk {
  argv : list string;          (* argv[0 .. argc), then NULL *)
  infile : option string;      (* for '<' *)
  outfile : option string;     (* for '>' or '>>' *)
  append : bool                (* 0: >, 1: >> *)
}.

(** [memset(cmd, 0, sizeof( *cmd))] *)
Definition zero : t :=
  {| argv := []; infile := None; outfile := None; append := false |}.

Definition push_arg (tok : string) (c : t) : t :=
  {| argv := argv c ++ [tok]; infile := infile c; outfile := outfile c;
     append := append c |}.

Definition set_infile (f : string) (c : t) : t :=
  {| argv := argv c; infile := Some f; outfile := outfile c;
     append := append c |}.

Definition set_outfile (f : string) (a : bool) (c : t) : t :=
  {| argv := argv c; infile := infile c; outfile := Some f; append := a |}.
End Command.

Definition is_delim (delim : list ascii) (c : ascii) : bool :=
  existsb (Ascii.eqb c) delim.

(** [s += strspn(s, delim)] *)
Fixpoint skip_delim (delim : list ascii) (s : string) : string :=
  match s with
  | String c s' => if is_delim delim c then skip_delim delim s' else s
  | EmptyString => s
  end.

(** The token at the head of [s], which runs up to the first delimiter, and
    the text after that delimiter. *)
Fixpoint split_token (delim : list ascii) (s : string) : string * string :=
  match s with
  | EmptyString => (EmptyString, EmptyString)
  | String c s' =>
      if is_delim delim c then (EmptyString, s')
      else let '(t, r) := split_token delim s' in (String c t, r)
  end.

(** One call of [strtok_r] on the text that is left: [None] for [NULL],
    otherwise the token and the new save pointer. *)
Definition strtok_r (s : string) (delim : list ascii) : option (string * string) :=
  match skip_delim delim s with
  | EmptyString => None
  | s' => Some (split_token delim s')
  end.

(** The tokens that successive calls of [strtok_r] return until [NULL]. *)
Fixpoint strtok_all (fuel : nat) (s : string) (delim : list ascii) : list string :=
  match fuel with
  | O => []
  | S fuel' =>
      match strtok_r s delim with
      | None => []
      | Some (t, rest) => t :: strtok_all fuel' rest delim
      end
  end.

Definition tokens (s : string) (delim : list ascii) : list string :=
  strtok_all (S (String.length s)) s delim.

(** [while ( *tok == ' ') tok++;] *)
Fixpoint skip_spaces (s : string) : string :=
  match s with
  | String c s' => if Ascii.eqb c " " then skip_spaces s' else s
  | EmptyString => s
  end.

(** Split the line at ['|'], at most [maxseg] segments. *)
Definition split_pipeline (line : string) (maxseg : nat) : list string :=
  map skip_spaces (take maxseg (tokens line ["|"%char])).

Definition blanks : list ascii := [" "%char; "009"%char; "010"%char].

(** The loop of [parse_command] over the tokens still to come; the head of
    [toks] is [tok], the empty list is [tok == NULL]. *)
Fixpoint parse_tokens (toks : list string) (argc : nat) (cmd : Command.t)
  : Command.t :=
  match toks with
  | [] => cmd
  | tok :: rest =>
      if decide (argc < MAX_ARGS - 1) then
        if String.eqb tok "<" then
          match rest with
          | f :: rest' => parse_tokens rest' argc (Command.set_infile f cmd)
          | [] => cmd
          end
        else if String.eqb tok ">" then
          match rest with
          | f :: rest' => parse_tokens rest' argc (Command.set_outfile f false cmd)
          | [] => cmd
          end
        else if String.eqb tok ">>" then
          match rest with
          | f :: rest' => parse_tokens rest' argc (Command.set_outfile f true cmd)
          | [] => cmd
          end
        else parse_tokens rest (S argc) (Command.push_arg tok cmd)
      else cmd
  end.

Definition parse_command (segment : string) : Command.t :=
  parse_tokens (tokens segment blanks) 0 Command.zero.

(** ** Execution *)

Definition builtin_names : list string :=
  ["cd"; "pwd"; "exit"; "jobs"; "fg"; "bg"; "kill"; "history"].

Definition is_builtin (cmd : Command.t) : bool :=
  match Command.argv cmd with
  | [] => true
  | name :: _ => existsb (String.eqb name) builtin_names
  end.

(** The answers of the operating system during one command. *)
Record os := {
  pipe_ok : nat -> bool;          (* pipe(pipes[k]) != -1 *)
  fork_ret : nat -> Z;            (* what the fork() of stage i returns in the
                                     shell: -1, or the pid of the child *)
  open_ok : string -> bool;       (* open(path, ...) >= 0, in a child *)
  exec_ok : string -> bool;       (* execvp(file, ...) finds and starts file *)
  wait_status : list Z;           (* the statuses of the waitpid(-pgid, ...)
                                     calls that return > 0, in order *)
  group_gone : bool;              (* kill(-pgid, 0) == -1 && errno == ESRCH *)
  kill_ok : bool;                 (* kill(-pgid, SIGTERM) != -1 *)
  getpgrp : Z;
  getenv_HOME : option string;
  chdir_ok : string -> bool;
  getcwd : option string;
  history_file_ok : bool          (* fopen(history_path(), "w") != NULL *)
}.

(** [setup_redirections], in a child: the bindings of stdin and stdout, or
    the message of the [open] that failed before [_exit(1)]. *)
Definition setup_redirections (cmd : Command.t) (o : os) (i0 o0 : stdio)
  : stdio * stdio * option string :=
  match Command.infile cmd with
  | Some f =>
      if open_ok o f then
        match Command.outfile cmd with
        | Some g =>
            if open_ok o g then
              (FileRead f, if Command.append cmd then FileAppend g else FileTrunc g, None)
            else (FileRead f, o0, Some "open >")
        | None => (FileRead f, o0, None)
        end
      else (i0, o0, Some "open <")
  | None =>
      match Command.outfile cmd with
      | Some g =>
          if open_ok o g then
            (i0, if Command.append cmd then FileAppend g else FileTrunc g, None)
          else (i0, o0, Some "open >")
      | None => (i0, o0, None)
      end
  end.

(** The branch [pid == 0] of the fork of stage [i]: what the child whose pid
    is [pid] does, [pgid] being the value of the variable at the fork. *)
Definition child_main (cmd : Command.t) (i nseg : nat) (background : bool)
  (pid pgid : Z) (o : os) : child :=
  let pg := if (pgid =? 0)%Z then pid else pgid in
  let i0 := if decide (0 < i) then PipeRead (i - 1) else Inherited in
  let o0 := if decide (i < nseg - 1) then PipeWrite i else Inherited in
  let '(i1, o1, failed) := setup_redirections cmd o i0 o0 in
  let '(report, fate) :=
    match failed with
    | Some msg => (Some msg, ChildExit 1)
    | None =>
        match Command.argv cmd with
        | [] => (None, ChildExit 0)
        | file :: _ =>
            if exec_ok o file then (None, ChildExec file (Command.argv cmd))
            else (Some "execvp", ChildExit 127)
        end
    end in
  {| c_pid := pid; c_pgid := pg; c_stage := i;
     c_takes_terminal := negb background && bool_decide (i = 0);
     c_stdin := i1; c_stdout := o1; c_perror := report; c_fate := fate |}.

(** [for (i = 0; i < nseg-1; i++) if (pipe(pipes[i]) == -1) { perror; return; }]
    with [n] pipes still to make; [false] when the launch is given up. *)
Fixpoint make_pipes (n k : nat) (o : os) (st : shell) : bool * shell :=
  match n with
  | O => (true, st)
  | S n' =>
      if pipe_ok o k then make_pipes n' (S k) o (emit (Pipe k) st)
      else (false, emit (Perror "pipe") st)
  end.

(** The parent closes every pipe. *)
Fixpoint close_pipes (n k : nat) (st : shell) : shell :=
  match n with
  | O => st
  | S n' => close_pipes n' (S k) (emit (ClosePipe k) st)
  end.

(** The fork loop of [execute_line] over the segments still to launch,
    [i] the stage of the first of them; returns [false] when a fork failed
    and the function returned, and the value of [pgid]. *)
Fixpoint fork_stages (segs : list string) (i nseg : nat) (background : bool)
  (pgid : Z) (o : os) (st : shell) : bool * Z * shell :=
  match segs with
  | [] => (true, pgid, st)
  | seg :: rest =>
      let cmd := parse_command (strncpy (MAX_INPUT - 1) seg) in
      let pid := fork_ret o i in
      if (pid =? -1)%Z then (false, pgid, emit (Perror "fork") st)
      else
        let st1 := emit (Fork (child_main cmd i nseg background pid pgid o)) st in
        let pgid' := if (pgid =? 0)%Z then pid else pgid in
        fork_stages rest (S i) nseg background pgid' o
          (emit (Setpgid pid pgid') st1)
  end.

(** The children forked so far, oldest first. *)
Definition children (st : shell) : list child :=
  omap (fun e => match e with Fork c => Some c | _ => None end) (out st).

(** * The C library

    The wait-status macros and [atoi] come from the platform's headers and
    library; the shell is modelled over any implementation of them. *)

Class libc := {
  WIFSTOPPED : Z -> bool;
  WIFCONTINUED : Z -> bool;
  WIFEXITED : Z -> bool;
  WIFSIGNALED : Z -> bool;
  atoi : string -> Z
}.

(** One event that [waitpid(-1, &status, WNOHANG | WUNTRACED | WCONTINUED)]
    hands to the handler, with what [getpgid(pid)] then answers. *)
Record child_event := {
  ev_pid : Z;
  ev_status : Z;
  ev_getpgid : Z
}.

Inductive builtin_result :=
| BReturn (ret : Z) (st : shell)
| BExit (code : Z) (st : shell).

(** The shell after [execute_line]: back in the main loop, or gone through
    [exit]. *)
Inductive flow :=
| Continue (st : shell)
| Exited (code : Z) (st : shell).

Section Shell.
Context {L : libc}.

(** ** Signals *)

(** The body of the loop of [sigchld_handler] for one event. *)
Definition reap (ev : child_event) (st : shell) : shell :=
  match find_job_index_by_pgid (ev_getpgid ev) st with
  | Some idx =>
      if WIFSTOPPED (ev_status ev) then set_job_state idx JOB_STOPPED st
      else if WIFCONTINUED (ev_status ev) then set_job_state idx JOB_RUNNING st
      else if WIFEXITED (ev_status ev) || WIFSIGNALED (ev_status ev)
           then set_job_state idx JOB_DONE st
      else st
  | None => st
  end.

(** [sigchld_handler] on the batch of events that are pending when the
    signal arrives: the loop runs until [waitpid] has nothing more. *)
Fixpoint sigchld_handler (evs : list child_event) (st : shell) : shell :=
  match evs with
  | [] => st
  | ev :: rest => sigchld_handler rest (reap ev st)
  end.

(** ** Builtins *)

Definition builtin_cd (argv : list string) (o : os) (st : shell) : Z * shell :=
  let target :=
    match argv !! 1 with
    | Some a => a
    | None => match getenv_HOME o with Some h => h | None => "." end
    end in
  if chdir_ok o target then (0%Z, emit (Chdir target) st)
  else (0%Z, emit (Perror "cd") st).

Definition print_pwd (o : os) (st : shell) : shell :=
  match getcwd o with
  | Some buf => emit (Puts buf) st
  | None => emit (Perror "pwd") st
  end.

Definition save_history (o : os) (st : shell) : shell :=
  if history_file_ok o then emit (SaveHistory (history st)) st else st.

Fixpoint print_history (lines : list string) (i : nat) (st : shell) : shell :=
  match lines with
  | [] => st
  | l :: rest =>
      print_history rest (S i)
        (emit (Printf "%d  %s\n" [ArgInt (Z.of_nat (i + 1)); ArgStr l]) st)
  end.

(** [while (waitpid(-pgid, &status, WUNTRACED) > 0) if (WIFSTOPPED(status)) { ...; break; }]
    over the statuses the calls return; [true] when the loop left through
    the [break]. *)
Fixpoint wait_group (pg : Z) (statuses : list Z) (st : shell) : bool * shell :=
  match statuses with
  | [] => (false, st)
  | s :: rest =>
      let st' := emit (Waitpid (- pg) s) st in
      if WIFSTOPPED s then (true, st') else wait_group pg rest st'
  end.

Definition builtin_fg (argv : list string) (o : os) (st : shell) : builtin_result :=
  match argv !! 1 with
  | None => BReturn (-1) (emit (Eprintf "fg <job_id>\n") st)
  | Some a =>
      match find_job_index_by_id (atoi a) st with
      | None => BReturn (-1) (emit (Eprintf "fg: no such job\n") st)
      | Some idx =>
          let pg := Job.pgid (jobs st !!! idx) in
          let st1 := emit (Kill (- pg) SIGCONT) (emit (Tcsetpgrp pg) st) in
          let '(stopped, st2) := wait_group pg (wait_status o) st1 in
          let st3 := if stopped then set_job_state idx JOB_STOPPED st2 else st2 in
          let st4 := emit (Kill (- pg) SIGNULL) (emit (Tcsetpgrp (getpgrp o)) st3) in
          BReturn 0 (if group_gone o then set_job_state idx JOB_DONE st4 else st4)
      end
  end.

Definition builtin_bg (argv : list string) (o : os) (st : shell) : builtin_result :=
  match argv !! 1 with
  | None => BReturn (-1) (emit (Eprintf "bg <job_id>\n") st)
  | Some a =>
      match find_job_index_by_id (atoi a) st with
      | None => BReturn (-1) (emit (Eprintf "bg: no such job\n") st)
      | Some idx =>
          let pg := Job.pgid (jobs st !!! idx) in
          BReturn 0 (set_job_state idx JOB_RUNNING (emit (Kill (- pg) SIGCONT) st))
      end
  end.

Definition builtin_kill (argv : list string) (o : os) (st : shell) : builtin_result :=
  match argv !! 1 with
  | None => BReturn (-1) (emit (Eprintf "kill <job_id>\n") st)
  | Some a =>
      match find_job_index_by_id (atoi a) st with
      | None => BReturn (-1) (emit (Eprintf "kill: no such job\n") st)
      | Some idx =>
          let pg := Job.pgid (jobs st !!! idx) in
          let st1 := emit (Kill (- pg) SIGTERM) st in
          let st2 := if kill_ok o then st1 else emit (Perror "kill") st1 in
          BReturn 0 (set_job_state idx JOB_DONE st2)
      end
  end.

Definition run_builtin (cmd : Command.t) (full_line : string) (o : os)
  (st : shell) : builtin_result :=
  let argv := Command.argv cmd in
  match argv with
  | [] => BReturn 0 st
  | name :: _ =>
      if String.eqb name "cd" then
        let '(r, st') := builtin_cd argv o st in BReturn r st'
      else if String.eqb name "pwd" then BReturn 0 (print_pwd o st)
      else if String.eqb name "exit" then BExit 0 (save_history o st)
      else if String.eqb name "jobs" then
        BReturn 0 (print_jobs (remove_done_jobs st))
      else if String.eqb name "history" then
        BReturn 0 (print_history (history st) 0 st)
      else if String.eqb name "fg" then builtin_fg argv o st
      else if String.eqb name "bg" then builtin_bg argv o st
      else if String.eqb name "kill" then builtin_kill argv o st
      else BReturn (-1) st
  end.

(** ** Launching a pipeline *)

(** The end of [execute_line] once every stage is forked. *)
Definition after_forks (nseg : nat) (background : bool) (pgid : Z)
  (full_cmd : string) (o : os) (st : shell) : shell :=
  let st1 := close_pipes (nseg - 1) 0 st in
  if background then
    let st2 := add_job_entry pgid full_cmd JOB_RUNNING st1 in
    let st3 :=
      emit (Printf "[%%%d] started in background, PGID=%d\n"
              [ArgInt (Job.id (jobs st2 !!! (job_count st2 - 1))); ArgInt pgid])
        st2 in
    emit (Tcsetpgrp (getpgrp o)) st3
  else
    let '(stopped, st2) :=
      wait_group pgid (wait_status o) (emit (Tcsetpgrp pgid) st1) in
    let st3 :=
      if stopped then
        emit (Printf "\n[stopped] %s\n" [ArgStr full_cmd])
          match find_job_index_by_pgid pgid st2 with
          | None => add_job_entry pgid full_cmd JOB_STOPPED st2
          | Some idx => set_job_state idx JOB_STOPPED st2
          end
      else st2 in
    emit (Tcsetpgrp (getpgrp o)) st3.

(** What [execute_line] does from the declaration of [pipes] on. *)
Definition launch (segments : list string) (background : bool)
  (full_cmd : string) (o : os) (st : shell) : shell :=
  let nseg := length segments in
  let '(piped, st1) := make_pipes (nseg - 1) 0 o st in
  if piped then
    let '(forked, pgid, st2) := fork_stages segments 0 nseg background 0 o st1 in
    if forked then after_forks nseg background pgid full_cmd o st2
    else st2
  else st1.

Definition execute_line (line : string) (background : bool)
  (full_cmd : string) (o : os) (st : shell) : flow :=
  let segments := split_pipeline line MAX_CMDS in
  match segments with
  | [] => Continue st
  | [seg] =>
      let first := parse_command (strncpy (MAX_INPUT - 1) seg) in
      if is_builtin first then
        match run_builtin first full_cmd o st with
        | BReturn _ st' => Continue st'
        | BExit code st' => Exited code st'
        end
      else Continue (launch segments background full_cmd o st)
  | _ => Continue (launch segments background full_cmd o st)
  end.

(** ** Sessions

    Every change the program makes to the Job Table is one of four:
    [add_job_entry], [remove_done_jobs], a run of [sigchld_handler], or an
    assignment [jobs[idx].state = s]. *)

Inductive job_op :=
| AddJob (pg : Z) (cmdline : string) (s : job_state)
| RemoveDone
| Sigchld (evs : list child_event)
| SetState (idx : nat) (s : job_state).

Definition apply_op (op : job_op) (st : shell) : shell :=
  match op with
  | AddJob pg cmdline s => add_job_entry pg cmdline s st
  | RemoveDone => remove_done_jobs st
  | Sigchld evs => sigchld_handler evs st
  | SetState idx s => set_job_state idx s st
  end.

(** The id that [op] assigns: that of the entry by which the table grew. *)
Definition assigned_by (op : job_op) (st : shell) : list Z :=
  match op with
  | AddJob _ _ _ =>
      if decide (job_count (apply_op op st) = S (job_count st))
      then [Job.id (jobs (apply_op op st) !!! job_count st)]
      else []
  | _ => []
  end.

(** The state after the operations, and the ids assigned on the way,
    oldest first. *)
Fixpoint session (ops : list job_op) (st : shell) : shell * list Z :=
  match ops with
  | [] => (st, [])
  | op :: rest =>
      let '(st', ids) := session rest (apply_op op st) in
      (st', assigned_by op st ++ ids)
  end.

(** [st'] is [st] after some of these operations, and some output. *)
Definition follows (st st' : shell) : Prop :=
  exists ops d,
    st' = {| jobs := jobs (session ops st).1;
             job_count := job_count (session ops st).1;
             next_job_id := next_job_id (session ops st).1;
             history := history (session ops st).1;
             out := out (session ops st).1 ++ d |}.

End Shell.

(** ** The macros of the GNU C library on Linux, and a decimal [atoi] *)

Module Glibc.
(** [(signed char) x] *)
Definition signed_char (x : Z) : Z := ((x + 128) mod 256 - 128)%Z.

Definition WTERMSIG (status : Z) : Z := Z.land status 127.

Definition wifexited (status : Z) : bool := (WTERMSIG status =? 0)%Z.

Definition wifsignaled (status : Z) : bool :=
  (0 <? Z.shiftr (signed_char (Z.land status 127 + 1)) 1)%Z.

Definition wifstopped (status : Z) : bool := (Z.land status 255 =? 127)%Z.

Definition wifcontinued (status : Z) : bool := (status =? 65535)%Z.

Definition digit (c : ascii) : option Z :=
  let n := nat_of_ascii c in
  if decide (48 <= n <= 57) then Some (Z.of_nat (n - 48)) else None.

Fixpoint digits (s : string) (acc : Z) : Z :=
  match s with
  | String c s' =>
      match digit c with
      | Some d => digits s' (10 * acc + d)%Z
      | None => acc
      end
  | EmptyString => acc
  end.

(** The white space [strtol] skips: what [isspace] accepts in the C locale. *)
Definition spaces : list ascii :=
  [" "%char; "009"%char; "010"%char; "011"%char; "012"%char; "013"%char].

Definition LONG_MAX : Z := 9223372036854775807.
Definition LONG_MIN : Z := -9223372036854775808.

(** [strtol(s, NULL, 10)]: white space, an optional sign, the decimal
    digits; a value out of range is [LONG_MAX] or [LONG_MIN]. *)
Definition strtol (s : string) : Z :=
  match skip_delim spaces s with
  | String "-" s' => Z.max LONG_MIN (- digits s' 0)
  | String "+" s' => Z.min LONG_MAX (digits s' 0)
  | s' => Z.min LONG_MAX (digits s' 0)
  end.

(** [atoi(s)] is [(int) strtol(s, NULL, 10)]. *)
Definition decimal (s : string) : Z := wrap_int (strtol s).

Definition lib : libc :=
  {| WIFSTOPPED := wifstopped; WIFCONTINUED := wifcontinued;
     WIFEXITED := wifexited; WIFSIGNALED := wifsignaled; atoi := decimal |}.
End Glibc.

(** ** Vocabulary of the statements *)


(** The Job a process group belongs to: the entry of the table with that
    pgid, the first one should several entries carry it. *)
Definition job_of_group (pg : Z) (st : shell) (idx : nat) : Prop :=
  idx < job_count st
  /\ Job.pgid (jobs st !!! idx) = pg
  /\ forall k, k < idx -> Job.pgid (jobs st !!! k) <> pg.

(** No entry of the table has that pgid. *)
Definition untracked (pg : Z) (st : shell) : Prop :=
  forall k, k < job_count st -> Job.pgid (jobs st !!! k) <> pg.

(** No entry of the table has that id. *)
Definition no_such_job (id : Z) (st : shell) : Prop :=
  forall k, k < job_count st -> Job.id (jobs st !!! k) <> id.


(** What is reported as an error: [perror] and the messages on stderr. *)
Definition is_error (e : effect) : bool :=
  match e with
  | Perror _ | Eprintf _ => true
  | _ => false
  end.

(** Creation of a process or of a process group. *)
Definition is_process_creation (e : effect) : bool :=
  match e with
  | Fork _ | Setpgid _ _ => true
  | _ => false
  end.

(** A signal sent to a process or a wait for one. *)
Definition is_kill_or_wait (e : effect) : bool :=
  match e with
  | Kill _ _ | Waitpid _ _ => true
  | _ => false
  end.

(** What the shell records when the fork of a child succeeds. *)
Definition fork_record (c : child) : list effect :=
  [Fork c; Setpgid (c_pid c) (c_pgid c)].

(** Every file the command redirects to or from can be opened. *)
Definition redirections_open (cmd : Command.t) (o : os) : Prop :=
  (forall f, Command.infile cmd = Some f -> open_ok o f = true)
  /\ (forall g, Command.outfile cmd = Some g -> open_ok o g = true).

(** Some answers of the system used in examples: every pipe, fork and open
    succeeds, stage [i] gets pid [1000 + i], no program is found. *)
Definition plain_os : os :=
  {| pipe_ok := fun _ => true;
     fork_ret := fun i => (1000 + Z.of_nat i)%Z;
     open_ok := fun _ => true;
     exec_ok := fun _ => false;
     wait_status := [];
     group_gone := true;
     kill_ok := true;
     getpgrp := 1%Z;
     getenv_HOME := None;
     chdir_ok := fun _ => true;
     getcwd := Some "/";
     history_file_ok := true |}.

(** [st] after the effects [d], in order. *)
Definition emits (d : list effect) (st : shell) : shell :=
  {| jobs := jobs st; job_count := job_count st; next_job_id := next_job_id st;
     history := history st; out := out st ++ d |}.

Definition builtin_state (r : builtin_result) : shell :=
  match r with BReturn _ st | BExit _ st => st end.

Definition flow_state (f : flow) : shell :=
  match f with Continue st | Exited _ st => st end.

(** From [st] to [st'] no process and no process group was created and no
    entry entered the Job Table: the trace grew by effects that are neither
    a fork nor a setpgid, the table is not longer, and the id counter, which
    every registration advances, is as it was. *)
Definition stayed_in_process (st st' : shell) : Prop :=
  exists d,
    out st' = out st ++ d
    /\ Forall (fun e => is_process_creation e = false) d
    /\ job_count st' <= job_count st
    /\ next_job_id st' = next_job_id st.

(** The answers of a system in which no file can be opened and no program
    is found. *)
Definition bare_os : os :=
  {| pipe_ok := fun _ => true;
     fork_ret := fun i => (1000 + Z.of_nat i)%Z;
     open_ok := fun _ => false;
     exec_ok := fun _ => false;
     wait_status := [];
     group_gone := true;
     kill_ok := true;
     getpgrp := 1%Z;
     getenv_HOME := None;
     chdir_ok := fun _ => true;
     getcwd := Some "/";
     history_file_ok := true |}.


(** The shape of a stage's token stream: words, and redirection operators
    each followed by the token that is its filename. *)
Definition is_redirection (tok : string) : bool :=
  String.eqb tok "<" || String.eqb tok ">" || String.eqb tok ">>".

Inductive item :=
| Word (w : string)
| Redirect (op file : string).

Definition item_tokens (it : item) : list string :=
  match it with
  | Word w => [w]
  | Redirect op file => [op; file]
  end.

Definition item_ok (it : item) : Prop :=
  match it with
  | Word w => is_redirection w = false
  | Redirect op _ => is_redirection op = true
  end.

(** The tokens of the stream that are neither an operator nor a filename. *)
Definition words (items : list item) : list string :=
  omap (fun it => match it with Word w => Some w | Redirect _ _ => None end) items.

(** Each element is smaller than every later one. *)
Definition strictly_increasing (l : list Z) : Prop :=
  forall i j a b, i < j -> l !! i = Some a -> l !! j = Some b -> (a < b)%Z.

(** What holds of the table and of the ids [ids] assigned so far. *)
Definition ids_invariant (st : shell) (ids : list Z) : Prop :=
  wf st
  /\ (1 <= next_job_id st)%Z
  /\ StronglySorted Z.lt ids
  /\ Forall (fun i => (1 <= i < next_job_id st)%Z) ids
  /\ StronglySorted Z.lt (Job.id <$> table st)
  /\ Forall (fun i => i ∈ ids) (Job.id <$> table st).

(** A token as [strtok_r] yields them: not empty and without a blank. *)
Fixpoint no_blank (s : string) : bool :=
  match s with
  | EmptyString => true
  | String c s' => negb (is_delim blanks c) && no_blank s'
  end.

Definition is_token (t : string) : Prop := t <> EmptyString /\ no_blank t = true.

(** ** Line editing, history and the main loop *)

Definition MAX_HISTORY : nat := 200.

Definition set_history (h : list string) (st : shell) : shell :=
  {| jobs := jobs st; job_count := job_count st; next_job_id := next_job_id st;
     history := h; out := out st |}.

(** [isspace] in the C locale: space, and the controls from tab to carriage
    return. *)
Definition isspace (c : ascii) : bool :=
  existsb (Ascii.eqb c)
    [" "%char; "009"%char; "010"%char; "011"%char; "012"%char; "013"%char].

(** [int i = 0; while (isspace(s[i])) i++;] *)
Fixpoint leading_spaces (s : string) : nat :=
  match s with
  | String c s' => if isspace c then S (leading_spaces s') else 0
  | EmptyString => 0
  end.

(** [int j = n-1; while (j >= i && isspace(s[j])) j--;] with [e] for
    [j + 1], which is never negative. *)
Fixpoint trailing_end (s : string) (i e : nat) : nat :=
  match e with
  | O => O
  | S j =>
      if decide (i <= j) then
        match String.get j s with
        | Some c => if isspace c then trailing_end s i j else e
        | None => e
        end
      else e
  end.

(** [trim]: the text left in the buffer, [len = j-i+1] characters from
    position [i]. *)
Definition trim (s : string) : string :=
  let i := leading_spaces s in
  let e := trailing_end s i (String.length s) in
  String.substring i (e - i) s.

(** [add_history]: nothing for an empty line; a full array first loses its
    oldest entry; the line goes last. *)
Definition add_history (line : string) (st : shell) : shell :=
  match line with
  | EmptyString => st
  | _ =>
      let h := if decide (length (history st) = MAX_HISTORY)
               then drop 1 (history st) else history st in
      set_history (h ++ [line]) st
  end.

(** Where the C string in a buffer ends for [strcspn(line, "\n")]: at the
    first newline or at the first NUL byte, the end of the string. *)
Definition is_line_end (c : ascii) : bool :=
  Ascii.eqb c "010" || Ascii.eqb c "000".

(** [line[strcspn(line, "\n")] = 0] on the bytes [s] of the buffer: the C
    string that is left, the bytes before the first newline or NUL. *)
Fixpoint cut_newline (s : string) : string :=
  match s with
  | String c s' => if is_line_end c then EmptyString else String c (cut_newline s')
  | EmptyString => EmptyString
  end.

(** The lines [getline] returns one after the other on a file of content
    [s], [cur] being what is read of the current line: each line with its
    newline, the last one without if the file does not end with one; a NUL
    byte of the file is a byte of its line like any other. *)
Fixpoint getlines (s : string) (cur : string) : list string :=
  match s with
  | String c s' =>
      if Ascii.eqb c "010" then String.append cur (String c EmptyString) :: getlines s' EmptyString
      else getlines s' (String.append cur (String c EmptyString))
  | EmptyString =>
      match cur with
      | EmptyString => []
      | _ => [cur]
      end
  end.

(** [load_history] on the content of the history file, [None] when it
    cannot be opened: of each line, the C string before its newline or
    first NUL goes to [add_history]. *)
Definition load_history (file : option string) (st : shell) : shell :=
  match file with
  | None => st
  | Some text =>
      fold_left (fun st line => add_history (cut_newline line) st)
        (getlines text EmptyString) st
  end.

(** What [save_history] writes: every entry followed by a newline. *)
Fixpoint history_text (lines : list string) : string :=
  match lines with
  | [] => EmptyString
  | l :: rest => String.append l (String "010" (history_text rest))
  end.

(** The last character of a line, if it has one. *)
Definition last_char (s : string) : option ascii :=
  match String.length s with
  | O => None
  | S n => String.get n s
  end.

Section MainLoop.
Context {L : libc}.

(** The body of the loop of [main] once [fgets] has read the bytes [raw]
    into the buffer: from the removal of the newline to the compaction of
    the table.  Every step works on the C string in the buffer, which ends
    at the first NUL. *)
Definition main_step (raw : string) (o : os) (st : shell) : flow :=
  let line_in := cut_newline raw in
  let full_line := strncpy (MAX_INPUT - 1) line_in in
  let line_in := trim line_in in
  match line_in with
  | EmptyString => Continue st
  | _ =>
      let st1 :=
        match last (history st) with
        | None => add_history full_line st
        | Some prev =>
            if String.eqb prev full_line then st else add_history full_line st
        end in
      let '(background, line_in) :=
        match last_char line_in with
        | Some c =>
            if Ascii.eqb c "&"
            then (true, trim (String.substring 0 (String.length line_in - 1) line_in))
            else (false, line_in)
        | None => (false, line_in)
        end in
      match execute_line line_in background full_line o st1 with
      | Continue st2 => Continue (remove_done_jobs st2)
      | Exited code st2 => Exited code st2
      end
  end.

End MainLoop.

(** A history as the program builds it: within the array, every entry a C
    string that is not empty and holds no newline (and, being a C string,
    no NUL byte). *)
Definition history_ok (h : list string) : Prop :=
  length h <= MAX_HISTORY
  /\ Forall (fun l => l <> EmptyString /\ cut_newline l = l) h.

(** The first and the last character of [s] are not white space. *)
Definition no_outer_space (s : string) : Prop :=
  (forall c, String.get 0 s = Some c -> isspace c = false)
  /\ (forall c, last_char s = Some c -> isspace c = false).

(** [st'] is [st] but for the state of slot [idx], which is [s], and for
    the trace, which grew by [d]. *)
Definition state_set_and_traced (idx : nat) (s : job_state) (d : list effect)
  (st st' : shell) : Prop :=
  job_count st' = job_count st
  /\ next_job_id st' = next_job_id st
  /\ history st' = history st
  /\ out st' = out st ++ d
  /\ length (jobs st') = length (jobs st)
  /\ jobs st' !!! idx = Job.with_state s (jobs st !!! idx)
  /\ forall k, k <> idx -> jobs st' !!! k = jobs st !!! k.

(** The process group that holds the terminal after the trace [d]: the
    argument of the last [tcsetpgrp] made by the shell. *)
Definition terminal_owner (d : list effect) : option Z :=
  last (omap (fun e => match e with Tcsetpgrp pg => Some pg | _ => None end) d).

Section WaitVocabulary.
Context {L : libc}.

(** The statuses a wait loop consumes: up to the first stop, included. *)
Fixpoint until_stop (statuses : list Z) : list Z :=
  match statuses with
  | [] => []
  | s :: rest => if WIFSTOPPED s then [s] else s :: until_stop rest
  end.

End WaitVocabulary.

(** The children of a pipeline whose forks all succeed: stage [k] runs
    [child_main] on segment [k] with the pid its fork returned; at its fork
    the variable [pgid] is still 0 for the first stage and is the pid of the
    first child for the others. *)
Definition pipeline_children (segs : list string) (background : bool) (o : os)
  : list child :=
  imap (fun k seg =>
          child_main (parse_command (strncpy (MAX_INPUT - 1) seg)) k (length segs)
            background (fork_ret o k)
            (if decide (k = 0) then 0%Z else fork_ret o 0) o)
    segs.

(** What the shell does to create such a pipeline: the pipes, then for each
    stage the fork and the setpgid, then the closing of every pipe. *)
Definition creation_trace (segs : list string) (background : bool) (o : os)
  : list effect :=
  (Pipe <$> seq 0 (length segs - 1))
  ++ (pipeline_children segs background o ≫= fork_record)
  ++ (ClosePipe <$> seq 0 (length segs - 1)).

(** Answers of a system in which the foreground group exits one process
    (status 0) and then stops (status [0x137f]); a later status is there but
    is never asked for. *)
Definition stopping_os : os :=
  {| pipe_ok := fun _ => true;
     fork_ret := fun i => (1000 + Z.of_nat i)%Z;
     open_ok := fun _ => true;
     exec_ok := fun _ => true;
     wait_status := [0%Z; 4991%Z; 0%Z];
     group_gone := false;
     kill_ok := true;
     getpgrp := 1%Z;
     getenv_HOME := None;
     chdir_ok := fun _ => true;
     getcwd := Some "/";
     history_file_ok := true |}.

(** Answers of a system in which the second pipe cannot be made. *)
Definition second_pipe_fails : os :=
  {| pipe_ok := fun k => bool_decide (k = 0);
     fork_ret := fun i => (1000 + Z.of_nat i)%Z;
     open_ok := fun _ => true;
     exec_ok := fun _ => true;
     wait_status := [];
     group_gone := true;
     kill_ok := true;
     getpgrp := 1%Z;
     getenv_HOME := None;
     chdir_ok := fun _ => true;
     getcwd := Some "/";
     history_file_ok := true |}.

(** No character of [s] is one of [delim]. *)
Fixpoint avoids (delim : list ascii) (s : string) : bool :=
  match s with
  | EmptyString => true
  | String c s' => negb (is_delim delim c) && avoids delim s'
  end.

(** Every character of [s] is one of [delim]. *)
Fixpoint made_of (delim : list ascii) (s : string) : bool :=
  match s with
  | EmptyString => true
  | String c s' => is_delim delim c && made_of delim s'
  end.

(** The characters [isspace] accepts. *)
Definition white : list ascii :=
  [" "%char; "009"%char; "010"%char; "011"%char; "012"%char; "013"%char].

(** The last [n] entries of [l]. *)
Definition keep_last {A} (n : nat) (l : list A) : list A := drop (length l - n) l.

(** The lines that are not empty. *)
Definition nonempty_lines (ls : list string) : list string :=
  filter (fun l => l <> EmptyString) ls.

(** What the loop of the [history] builtin prints from index [i] on. *)
Definition history_lines (i : nat) (lines : list string) : list effect :=
  imap (fun k l => Printf "%d  %s\n" [ArgInt (Z.of_nat (i + k + 1)); ArgStr l]) lines.

(** The history after the main loop has recorded [full_line]: the line is
    added unless it repeats the newest entry. *)
Definition recorded (full_line : string) (h : list string) : list string :=
  if decide (last h = Some full_line) then h
  else keep_last MAX_HISTORY (h ++ [full_line]).

(** The C string that a run of bytes starts with: the bytes before the
    first NUL. *)
Fixpoint c_string (s : string) : string :=
  match s with
  | String c s' => if Ascii.eqb c "000" then EmptyString else String c (c_string s')
  | EmptyString => EmptyString
  end.

(** The text [s] with the characters of [delim] taken out. *)
Fixpoint without (delim : list ascii) (s : string) : string :=
  match s with
  | EmptyString => EmptyString
  | String c s' =>
      if is_delim delim c then without delim s' else String c (without delim s')
  end.

(** A job started in the background, killed, and compacted away at the end
    of the turn of the main loop, [n] times over. *)
Fixpoint churn (n : nat) : list job_op :=
  match n with
  | O => []
  | S n' =>
      [AddJob 4242 "sleep 1 &" JOB_RUNNING; SetState 0 JOB_DONE; RemoveDone]
      ++ churn n'
  end.

(** ** Events and states the program can meet *)

Section SystemEvents.
Context {L : libc}.




End SystemEvents.



(** * Facts about the job table *)


Lemma is_done_false j : is_done (Job.state j) = false <-> alive j.
Proof. unfold alive. destruct (Job.state j); simpl; split; congruence. Qed.

Lemma is_done_true j : is_done (Job.state j) = true <-> ~ alive j.
Proof.
  unfold alive. destruct (Job.state j); simpl; split; intuition congruence.
Qed.

Lemma remove_done_loop_spec n r w js :
  w <= r -> r + n <= length js ->
  let res := remove_done_loop n r w js in
  fst res = w + length (filter alive (take n (drop r js)))
  /\ length (snd res) = length js
  /\ take (fst res) (snd res) = take w js ++ filter alive (take n (drop r js))
  /\ drop (r + n) (snd res) = drop (r + n) js.
Proof.
  revert r w js. induction n as [|n IH]; intros r w js Hwr Hlen; simpl.
  - rewrite take_0, filter_nil, app_nil_r. repeat split; auto with lia.
  - assert (Hr : r < length js) by lia.
    destruct (lookup_lt_is_Some_2 js r Hr) as [j Hj].
    rewrite (list_lookup_total_correct _ _ _ Hj).
    rewrite (drop_S _ _ _ Hj). simpl. rewrite filter_cons.
    destruct (decide (alive j)) as [Ha|Ha].
    + rewrite (proj2 (is_done_false j) Ha). simpl.
      set (js' := if decide (w = r) then js else <[w:=j]> js).
      assert (Hjs' : js' = <[w:=j]> js).
      { unfold js'. destruct (decide (w = r)) as [->|]; [|done].
        symmetry. by apply list_insert_id. }
      assert (Hl' : length js' = length js) by (rewrite Hjs'; apply length_insert).
      destruct (IH (S r) (S w) js') as (H1 & H2 & H3 & H4); [lia | lia |].
      assert (Hd : drop (S r) js' = drop (S r) js).
      { rewrite Hjs'. apply drop_insert_lt. lia. }
      rewrite Hd in *.
      repeat split.
      * rewrite H1. simpl. lia.
      * congruence.
      * rewrite H3. rewrite Hjs'.
        rewrite (take_S_r _ _ j) by (apply list_lookup_insert_eq; lia).
        rewrite take_insert_ge by lia. by rewrite <- app_assoc.
      * replace (r + S n) with (S r + n) by lia. rewrite H4.
        rewrite Hjs'. apply drop_insert_lt. lia.
    + rewrite (proj2 (is_done_true j) Ha). simpl.
      destruct (IH (S r) w js) as (H1 & H2 & H3 & H4); [lia | lia |].
      repeat split; auto.
      replace (r + S n) with (S r + n) by lia. exact H4.
Qed.

Lemma remove_done_loop_alive n r js :
  r + n <= length js -> Forall alive (take n (drop r js)) ->
  remove_done_loop n r r js = (r + n, js).
Proof.
  revert r. induction n as [|n IH]; intros r Hlen Hall; simpl.
  - f_equal. lia.
  - assert (Hr : r < length js) by lia.
    destruct (lookup_lt_is_Some_2 js r Hr) as [j Hj].
    rewrite (list_lookup_total_correct _ _ _ Hj).
    rewrite (drop_S _ _ _ Hj) in Hall. simpl in Hall.
    apply Forall_cons in Hall as [Ha Hall].
    rewrite (proj2 (is_done_false j) Ha). simpl.
    rewrite decide_True by done.
    rewrite IH by (done || lia). f_equal. lia.
Qed.

Lemma remove_done_jobs_table st :
  job_count st <= length (jobs st) ->
  table (remove_done_jobs st) = filter alive (table st)
  /\ length (jobs (remove_done_jobs st)) = length (jobs st)
  /\ job_count (remove_done_jobs st) = length (filter alive (table st)).
Proof.
  intros Hwf. unfold remove_done_jobs, table.
  destruct (remove_done_loop_spec (job_count st) 0 0 (jobs st)) as (H1 & H2 & H3 & _);
    [lia | lia |].
  destruct (remove_done_loop (job_count st) 0 0 (jobs st)) as [w js].
  simpl in *. rewrite ?drop_0 in *. auto.
Qed.

Lemma remove_done_jobs_wf st : wf st -> wf (remove_done_jobs st).
Proof.
  intros [Hl Hc].
  destruct (remove_done_jobs_table st) as (Ht & Hlen & Hcnt); [lia|].
  split; [congruence|].
  rewrite Hcnt. etrans; [apply length_filter|].
  unfold table. rewrite length_take. lia.
Qed.

(** C5.  [remove_done_jobs] (the spec's compact) leaves in the Job Table
    exactly the entries that are not [JOB_DONE], in their former order, each
    entry with the id, process group, command text and state it had; the
    id counter, the history and the trace are not touched. *)
Theorem remove_done_jobs_removes_exactly_done st :
  wf st ->
  table (remove_done_jobs st) = filter (fun j => Job.state j <> JOB_DONE) (table st)
  /\ next_job_id (remove_done_jobs st) = next_job_id st
  /\ history (remove_done_jobs st) = history st
  /\ out (remove_done_jobs st) = out st.
Proof.
  intros [Hl Hc]. split.
  - apply remove_done_jobs_table. lia.
  - unfold remove_done_jobs.
    destruct (remove_done_loop (job_count st) 0 0 (jobs st)); auto.
Qed.

(** C6.  Compacting twice in a row gives the same state as compacting once:
    the second [remove_done_jobs] changes nothing, not even a slot of the
    array beyond the table. *)
Theorem remove_done_jobs_idempotent st :
  wf st ->
  remove_done_jobs (remove_done_jobs st) = remove_done_jobs st.
Proof.
  intros [Hl Hc].
  destruct (remove_done_jobs_table st) as (Ht & Hlen & Hcnt); [lia|].
  assert (Hle : job_count (remove_done_jobs st) <= length (jobs (remove_done_jobs st))).
  { rewrite Hcnt, Hlen. etrans; [apply length_filter|].
    unfold table. rewrite length_take. lia. }
  assert (Hall : Forall alive (table (remove_done_jobs st))).
  { rewrite Ht. apply list.Forall_forall. intros j Hj.
    apply list_elem_of_filter in Hj. tauto. }
  unfold table in Hall.
  generalize dependent (remove_done_jobs st). intros [js n nid h o] _ _ _ Hle Hall.
  simpl in *. unfold remove_done_jobs. simpl.
  rewrite (remove_done_loop_alive n 0 js) by (rewrite ?drop_0; done || lia).
  reflexivity.
Qed.

Lemma find_job_index_from_Some p js i n k :
  find_job_index_from p js i n = Some k <->
  (i <= k < i + n /\ p (js !!! k) = true
   /\ forall m, i <= m < k -> p (js !!! m) = false).
Proof.
  revert i. induction n as [|n IH]; intros i; simpl.
  - split; [discriminate | lia].
  - destruct (p (js !!! i)) eqn:Hp.
    + split.
      * intros [= <-]. repeat split; auto with lia.
      * intros (Hk & Hpk & Hbefore).
        destruct (decide (i = k)) as [->|Hne]; [done|].
        rewrite Hbefore in Hp by lia. discriminate.
    + rewrite IH. split.
      * intros (Hk & Hpk & Hbefore). repeat split; auto with lia.
        intros m Hm. destruct (decide (m = i)) as [->|]; [done|].
        apply Hbefore. lia.
      * intros (Hk & Hpk & Hbefore).
        assert (i <> k) by (intros ->; congruence).
        repeat split; auto with lia.
Qed.

Lemma find_job_index_from_None p js i n :
  find_job_index_from p js i n = None <->
  forall m, i <= m < i + n -> p (js !!! m) = false.
Proof.
  revert i. induction n as [|n IH]; intros i; simpl.
  - split; [lia | done].
  - destruct (p (js !!! i)) eqn:Hp.
    + split; [discriminate|]. intros H. rewrite H in Hp by lia. discriminate.
    + rewrite IH. split; intros H m Hm.
      * destruct (decide (m = i)) as [->|]; [done|]. apply H. lia.
      * apply H. lia.
Qed.

Lemma find_job_index_by_pgid_Some pg st idx :
  find_job_index_by_pgid pg st = Some idx <-> job_of_group pg st idx.
Proof.
  unfold find_job_index_by_pgid, job_of_group.
  rewrite find_job_index_from_Some. simpl.
  split; intros (H1 & H2 & H3).
  - repeat split; [lia | by apply Z.eqb_eq |].
    intros k Hk. apply Z.eqb_neq, H3. lia.
  - repeat split; [lia | lia | by apply Z.eqb_eq |].
    intros m Hm. apply Z.eqb_neq, H3. lia.
Qed.

Lemma find_job_index_by_pgid_None pg st :
  find_job_index_by_pgid pg st = None <-> untracked pg st.
Proof.
  unfold find_job_index_by_pgid, untracked.
  rewrite find_job_index_from_None. simpl.
  split; intros H k Hk.
  - apply Z.eqb_neq, H. lia.
  - apply Z.eqb_neq, H. lia.
Qed.

Lemma find_job_index_by_id_None id st :
  find_job_index_by_id id st = None <-> no_such_job id st.
Proof.
  unfold find_job_index_by_id, no_such_job.
  rewrite find_job_index_from_None. simpl.
  split; intros H k Hk.
  - apply Z.eqb_neq, H. lia.
  - apply Z.eqb_neq, H. lia.
Qed.


Lemma set_job_state_wf idx s st : wf st -> wf (set_job_state idx s st).
Proof.
  intros [Hl Hc]. split; simpl; [|done]. by rewrite length_insert.
Qed.

Section ShellFacts.
Context {L : libc}.

Lemma reap_wf ev st : wf st -> wf (reap ev st).
Proof.
  intros Hwf. unfold reap.
  destruct (find_job_index_by_pgid _ st); [|done].
  repeat (destruct (_ : bool)); auto using set_job_state_wf.
Qed.

Lemma sigchld_handler_wf evs st : wf st -> wf (sigchld_handler evs st).
Proof.
  revert st. induction evs as [|ev evs IH]; intros st Hwf; simpl; [done|].
  apply IH, reap_wf, Hwf.
Qed.


(** C4.  [fg], [bg] and [kill] given an id that no entry of the Job Table
    has: each returns -1 to [execute_line] (the shell goes on), having
    written its "no such job" message on stderr and nothing else; the
    array, the count and the id counter are what they were. *)
Theorem unknown_job_id_is_reported
  (name a : string) (rest : list string) (cmd : Command.t) (full_line : string)
  (o : os) (st : shell) :
  name ∈ ["fg"; "bg"; "kill"] ->
  Command.argv cmd = name :: a :: rest ->
  no_such_job (atoi a) st ->
  exists st',
    run_builtin cmd full_line o st = BReturn (-1) st'
    /\ out st' = out st ++ [Eprintf (String.append name ": no such job\n")]
    /\ jobs st' = jobs st
    /\ job_count st' = job_count st
    /\ next_job_id st' = next_job_id st.
Proof.
  intros Hname Hargv Hno.
  apply find_job_index_by_id_None in Hno.
  exists (emit (Eprintf (String.append name ": no such job\n")) st).
  split; [|by repeat split].
  unfold run_builtin. rewrite Hargv.
  repeat (apply elem_of_cons in Hname as [->|Hname]); simpl;
    [ unfold builtin_fg | unfold builtin_bg | unfold builtin_kill
    | by apply elem_of_nil in Hname ];
    simpl; by rewrite Hno.
Qed.

End ShellFacts.

(** ** Traces *)

Lemma emit_emits e st : emit e st = emits [e] st.
Proof. reflexivity. Qed.

Lemma emits_nil st : emits [] st = st.
Proof. destruct st. unfold emits. simpl. by rewrite app_nil_r. Qed.

Lemma emits_emits d1 d2 st : emits d2 (emits d1 st) = emits (d1 ++ d2) st.
Proof. unfold emits. simpl. by rewrite app_assoc. Qed.

Lemma children_emits d st :
  children (emits d st)
  = children st ++ omap (fun e => match e with Fork c => Some c | _ => None end) d.
Proof. unfold children. simpl. apply omap_app. Qed.

Lemma children_fork_records (cs : list child) :
  omap (fun e => match e with Fork c => Some c | _ => None end) (cs ≫= fork_record) = cs.
Proof.
  induction cs as [|c cs IH]; [done|].
  change ((c :: cs) ≫= fork_record) with (fork_record c ++ (cs ≫= fork_record)).
  rewrite omap_app, IH. reflexivity.
Qed.

Lemma make_pipes_ok o n k st :
  (forall i, k <= i < k + n -> pipe_ok o i = true) ->
  make_pipes n k o st = (true, emits (Pipe <$> seq k n) st).
Proof.
  revert k st. induction n as [|n IH]; intros k st Hok; simpl.
  - by rewrite emits_nil.
  - rewrite Hok by lia. rewrite IH by (intros; apply Hok; lia).
    by rewrite emit_emits, emits_emits.
Qed.

Lemma make_pipes_failed o n k st st' :
  make_pipes n k o st = (false, st') ->
  exists m, m < n /\ st' = emits ((Pipe <$> seq k m) ++ [Perror "pipe"]) st.
Proof.
  revert k st. induction n as [|n IH]; intros k st; simpl; [discriminate|].
  destruct (pipe_ok o k).
  - intros H. apply IH in H as (m & Hm & ->). exists (S m). split; [lia|].
    by rewrite emit_emits, emits_emits.
  - intros [= <-]. exists 0. split; [lia|]. by rewrite emit_emits.
Qed.

Lemma close_pipes_emits n k st :
  close_pipes n k st = emits (ClosePipe <$> seq k n) st.
Proof.
  revert k st. induction n as [|n IH]; intros k st; simpl.
  - by rewrite emits_nil.
  - by rewrite IH, emit_emits, emits_emits.
Qed.

Lemma child_main_pid cmd i nseg background pid pgid o :
  c_pid (child_main cmd i nseg background pid pgid o) = pid.
Proof.
  unfold child_main.
  destruct (setup_redirections _ _ _ _) as [[? ?] [?|]]; [done|].
  destruct (Command.argv cmd); [done|]. by destruct (exec_ok o _).
Qed.

Lemma child_main_pgid cmd i nseg background pid pgid o :
  c_pgid (child_main cmd i nseg background pid pgid o)
  = if (pgid =? 0)%Z then pid else pgid.
Proof.
  unfold child_main.
  destruct (setup_redirections _ _ _ _) as [[? ?] [?|]]; [done|].
  destruct (Command.argv cmd); [done|]. by destruct (exec_ok o _).
Qed.

Lemma child_main_stage cmd i nseg background pid pgid o :
  c_stage (child_main cmd i nseg background pid pgid o) = i.
Proof.
  unfold child_main.
  destruct (setup_redirections _ _ _ _) as [[? ?] [?|]]; [done|].
  destruct (Command.argv cmd); [done|]. by destruct (exec_ok o _).
Qed.

(** The fork loop: the children it creates, in order, each one running
    [child_main] on its own segment; after the last of them the report of
    the fork that failed, if one did. *)
Lemma fork_stages_spec o nseg background segs :
  forall i pgid st,
  exists cs,
    let r := fork_stages segs i nseg background pgid o st in
    r.2 = emits ((cs ≫= fork_record) ++ (if r.1.1 then [] else [Perror "fork"])) st
    /\ (forall k c, cs !! k = Some c ->
          exists seg pg,
            segs !! k = Some seg
            /\ fork_ret o (i + k) <> (-1)%Z
            /\ c = child_main (parse_command (strncpy (MAX_INPUT - 1) seg))
                     (i + k) nseg background (fork_ret o (i + k)) pg o)
    /\ (if r.1.1 then length cs = length segs
        else length cs < length segs /\ fork_ret o (i + length cs) = (-1)%Z).
Proof.
  induction segs as [|seg rest IH]; intros i pgid st; simpl.
  - exists []. simpl. rewrite emits_nil. split; [done|split; [|done]].
    intros k c Hk. by rewrite lookup_nil in Hk.
  - destruct (fork_ret o i =? -1)%Z eqn:Hf.
    + exists []. simpl. rewrite emit_emits. split; [done|split; [|split]].
      * intros k c Hk. by rewrite lookup_nil in Hk.
      * lia.
      * rewrite Nat.add_0_r. by apply Z.eqb_eq.
    + set (pgid' := if (pgid =? 0)%Z then fork_ret o i else pgid).
      set (c0 := child_main (parse_command (strncpy (MAX_INPUT - 1) seg)) i nseg
                   background (fork_ret o i) pgid o).
      specialize (IH (S i) pgid' (emit (Setpgid (fork_ret o i) pgid') (emit (Fork c0) st))).
      destruct IH as (cs & IH).
      destruct (fork_stages rest (S i) nseg background pgid' o _) as [[ok pg'] st'].
      cbn [fst snd] in *. destruct IH as (Hout & Hcs & Hlen).
      exists (c0 :: cs).
      split; [|split].
      * rewrite Hout. rewrite !emit_emits, !emits_emits. f_equal.
        change ((c0 :: cs) ≫= fork_record) with (fork_record c0 ++ (cs ≫= fork_record)).
        unfold fork_record at 2. simpl.
        unfold c0 at 3 4. by rewrite child_main_pid, child_main_pgid.
      * intros [|k] c Hk; simpl in Hk.
        -- injection Hk as <-. exists seg, pgid. rewrite Nat.add_0_r.
           split; [done|]. split; [by apply Z.eqb_neq | done].
        -- destruct (Hcs k c Hk) as (seg' & pg & H1 & H2 & H3).
           exists seg', pg. replace (i + S k) with (S i + k) by lia. done.
      * simpl. destruct ok; [lia|].
        replace (i + S (length cs)) with (S i + length cs) by lia.
        split; [lia | tauto].
Qed.

(** The value of [pgid] after a fork loop in which every fork gave a pid. *)
Lemma fork_stages_pgid o nseg background segs :
  forall i pgid st,
    (forall k, i <= k < i + length segs -> (0 < fork_ret o k)%Z) ->
    (fork_stages segs i nseg background pgid o st).1.1 = true
    /\ (fork_stages segs i nseg background pgid o st).1.2
       = if (pgid =? 0)%Z
         then match segs with [] => 0%Z | _ => fork_ret o i end
         else pgid.
Proof.
  induction segs as [|seg rest IH]; intros i pgid st Hok; simpl.
  - by destruct (pgid =? 0)%Z eqn:E; [apply Z.eqb_eq in E|].
  - assert (Hi : (0 < fork_ret o i)%Z) by (apply Hok; simpl; lia).
    destruct (fork_ret o i =? -1)%Z eqn:Hf; [apply Z.eqb_eq in Hf; lia|].
    match goal with |- context [fork_stages rest (S i) nseg background ?pg o ?s] =>
      destruct (IH (S i) pg s) as [H1 H2] end.
    { intros k Hk. apply Hok. simpl. lia. }
    split; [done|]. rewrite H2.
    destruct (pgid =? 0)%Z eqn:E; [|by rewrite E].
    destruct (fork_ret o i =? 0)%Z eqn:E'; [apply Z.eqb_eq in E'; lia|done].
Qed.

Lemma fork_records_quiet (cs : list child) :
  Forall (fun e => is_error e = false) (cs ≫= fork_record).
Proof.
  induction cs as [|c cs IH]; [constructor|].
  change ((c :: cs) ≫= fork_record) with (fork_record c ++ (cs ≫= fork_record)).
  apply Forall_app. split; [|done]. by repeat constructor.
Qed.

Lemma add_job_entry_full pg cmdline s st :
  MAX_JOBS <= job_count st -> add_job_entry pg cmdline s st = st.
Proof. intros H. unfold add_job_entry. by rewrite decide_True. Qed.

Section Launch.
Context {L : libc}.

(** A launch whose pipes and forks all succeed reaches the end of
    [execute_line] with every stage forked. *)
Lemma launch_all_created segs background full_cmd o st :
  segs <> [] ->
  (forall k, k < length segs - 1 -> pipe_ok o k = true) ->
  (forall i, i < length segs -> (0 < fork_ret o i)%Z) ->
  exists cs,
    launch segs background full_cmd o st
    = after_forks (length segs) background (fork_ret o 0) full_cmd o
        (emits ((Pipe <$> seq 0 (length segs - 1)) ++ (cs ≫= fork_record)) st)
    /\ length cs = length segs
    /\ (forall k c, cs !! k = Some c ->
          exists seg pg,
            segs !! k = Some seg
            /\ c = child_main (parse_command (strncpy (MAX_INPUT - 1) seg))
                     k (length segs) background (fork_ret o k) pg o).
Proof.
  intros Hne Hpipes Hforks. unfold launch.
  rewrite make_pipes_ok by (intros; apply Hpipes; lia).
  set (st1 := emits _ st).
  destruct (fork_stages_spec o (length segs) background segs 0 0%Z st1)
    as (cs & Hout & Hcs & Hlen).
  destruct (fork_stages_pgid o (length segs) background segs 0 0%Z st1)
    as [Hok Hpg].
  { intros k Hk. apply Hforks. lia. }
  destruct (fork_stages segs 0 (length segs) background 0 o st1) as [[ok pg] st2].
  cbn [fst snd] in *. subst ok. rewrite app_nil_r in Hout.
  exists cs. split; [|split].
  - subst st2 pg. unfold st1. rewrite emits_emits.
    by destruct segs.
  - done.
  - intros k c Hk. destruct (Hcs k c Hk) as (seg & pg0 & H1 & _ & H3).
    exists seg, pg0. done.
Qed.

(** C10.  With the Job Table full, [add_job_entry] returns the state it
    was given: no entry, the id counter as it was, nothing written.  A
    background launch in that state, its pipes and processes created,
    goes to its end without reporting an error and without changing the
    table or the counter; the job id it prints is the id of the last
    entry of the table, next to the process group of the new pipeline. *)
Theorem full_table_registration_is_silent
  (pg : Z) (cmdline : string) (s : job_state)
  (line full_cmd : string) (seg : string) (segs : list string)
  (o : os) (st : shell) :
  wf st ->
  job_count st = MAX_JOBS ->
  split_pipeline line MAX_CMDS = seg :: segs ->
  (segs = [] -> is_builtin (parse_command (strncpy (MAX_INPUT - 1) seg)) = false) ->
  (forall k, k < length segs -> pipe_ok o k = true) ->
  (forall i, i <= length segs -> (0 < fork_ret o i)%Z) ->
  add_job_entry pg cmdline s st = st
  /\ exists d,
       execute_line line true full_cmd o st
       = Continue
           (emits
              (d ++ [Printf "[%%%d] started in background, PGID=%d\n"
                       [ArgInt (Job.id (jobs st !!! (MAX_JOBS - 1)));
                        ArgInt (fork_ret o 0)];
                     Tcsetpgrp (getpgrp o)])
              st)
       /\ Forall (fun e => is_error e = false) d
       /\ length (filter (fun e => is_process_creation e = true) d)
          = 2 * S (length segs).
Proof.
  intros Hwf Hfull Hsplit Hnb Hpipes Hforks.
  split; [apply add_job_entry_full; lia|].
  destruct (launch_all_created (seg :: segs) true full_cmd o st)
    as (cs & Hlaunch & Hlen & _); [done | | |].
  { intros k Hk. apply Hpipes. simpl in Hk. lia. }
  { intros i Hi. apply Hforks. simpl in Hi. lia. }
  assert (Hexec : execute_line line true full_cmd o st
                  = Continue (launch (seg :: segs) true full_cmd o st)).
  { unfold execute_line. rewrite Hsplit.
    destruct segs; [by rewrite Hnb | done]. }
  rewrite Hexec, Hlaunch. unfold after_forks.
  rewrite close_pipes_emits, emits_emits.
  rewrite add_job_entry_full by (simpl; lia).
  rewrite !emit_emits, !emits_emits. simpl job_count. simpl jobs.
  rewrite Hfull.
  exists (((Pipe <$> seq 0 (length (seg :: segs) - 1)) ++ cs ≫= fork_record)
          ++ (ClosePipe <$> seq 0 (length (seg :: segs) - 1))).
  split; [reflexivity|]. split.
  - repeat apply Forall_app_2; try apply fork_records_quiet;
      apply list.Forall_forall; intros e He;
      apply list_elem_of_fmap in He as (k & -> & _); done.
  - rewrite !filter_app, !length_app.
    assert (Hp : forall f n, (forall k, is_process_creation (f k) = false) ->
               filter (fun e => is_process_creation e = true) (f <$> seq 0 n) = []).
    { intros f n Hf. induction (seq 0 n) as [|k l IH]; [done|].
      rewrite fmap_cons, filter_cons, decide_False by (rewrite Hf; done). done. }
    rewrite (Hp Pipe), (Hp ClosePipe) by done.
    cbn [length Nat.add]. rewrite Nat.add_0_r.
    change (length (seg :: segs)) with (S (length segs)) in Hlen.
    rewrite <- Hlen. clear.
    induction cs as [|c cs IH]; [done|].
    change ((c :: cs) ≫= fork_record) with (fork_record c ++ (cs ≫= fork_record)).
    rewrite filter_app, length_app, IH.
    change (length (c :: cs)) with (S (length cs)).
    replace (length (filter _ (fork_record c))) with 2 by reflexivity. lia.
Qed.

End Launch.

(** ** Builtins stay in the shell's process *)

Lemma stayed_refl st : stayed_in_process st st.
Proof. exists []. rewrite app_nil_r. repeat split; [constructor | lia]. Qed.

Lemma stayed_trans st1 st2 st3 :
  stayed_in_process st1 st2 -> stayed_in_process st2 st3 ->
  stayed_in_process st1 st3.
Proof.
  intros (d1 & H1 & F1 & C1 & N1) (d2 & H2 & F2 & C2 & N2).
  exists (d1 ++ d2). rewrite H2, H1, app_assoc.
  repeat split; [by apply Forall_app | lia | congruence].
Qed.

Lemma stayed_emits d st :
  Forall (fun e => is_process_creation e = false) d ->
  stayed_in_process st (emits d st).
Proof. intros Hd. exists d. repeat split; [done | simpl; lia]. Qed.

Lemma stayed_emit e st :
  is_process_creation e = false -> stayed_in_process st (emit e st).
Proof. intros He. rewrite emit_emits. apply stayed_emits. by repeat constructor. Qed.

Lemma stayed_set_job_state idx s st : stayed_in_process st (set_job_state idx s st).
Proof. exists []. simpl. rewrite app_nil_r. repeat split; [constructor | lia]. Qed.

Lemma remove_done_loop_count n r w js : (remove_done_loop n r w js).1 <= w + n.
Proof.
  revert r w js. induction n as [|n IH]; intros r w js; simpl; [lia|].
  destruct (negb _).
  - etrans; [apply IH|]. lia.
  - etrans; [apply IH|]. lia.
Qed.

Lemma stayed_remove_done_jobs st : stayed_in_process st (remove_done_jobs st).
Proof.
  exists []. unfold remove_done_jobs.
  pose proof (remove_done_loop_count (job_count st) 0 0 (jobs st)) as Hc.
  destruct (remove_done_loop (job_count st) 0 0 (jobs st)) as [w js].
  simpl in *. rewrite app_nil_r. repeat split; [constructor | lia].
Qed.

Lemma stayed_print_jobs_from js i n st :
  stayed_in_process st (print_jobs_from js i n st).
Proof.
  revert i st. induction n as [|n IH]; intros i st; simpl.
  - apply stayed_refl.
  - destruct (is_done _); [apply IH|].
    eapply stayed_trans; [|apply IH]. by apply stayed_emit.
Qed.

Lemma stayed_print_history lines i st :
  stayed_in_process st (print_history lines i st).
Proof.
  revert i st. induction lines as [|l lines IH]; intros i st; simpl.
  - apply stayed_refl.
  - eapply stayed_trans; [|apply IH]. by apply stayed_emit.
Qed.

Section Builtins.
Context {L : libc}.

Lemma stayed_wait_group pg statuses st :
  stayed_in_process st (wait_group pg statuses st).2.
Proof.
  revert st. induction statuses as [|s statuses IH]; intros st; simpl.
  - apply stayed_refl.
  - destruct (WIFSTOPPED s); simpl.
    + by apply stayed_emit.
    + eapply stayed_trans; [|apply IH]. by apply stayed_emit.
Qed.

Local Ltac solve_stayed :=
  repeat first
    [ apply stayed_refl
    | apply stayed_set_job_state
    | apply stayed_remove_done_jobs
    | apply stayed_print_jobs_from
    | apply stayed_print_history
    | apply stayed_wait_group
    | (apply stayed_emit; reflexivity)
    | (eapply stayed_trans; [|apply stayed_set_job_state])
    | (eapply stayed_trans; [|apply stayed_emit; reflexivity]) ].

(** Whatever the builtin, [run_builtin] creates no process, no process
    group and no job. *)
Lemma run_builtin_stays cmd full_line o st :
  stayed_in_process st (builtin_state (run_builtin cmd full_line o st)).
Proof.
  unfold run_builtin.
  destruct (Command.argv cmd) as [|name args] eqn:Hargv; [apply stayed_refl|].
  repeat (match goal with |- context [if String.eqb ?a ?b then _ else _] =>
            destruct (String.eqb a b) end); simpl.
  - unfold builtin_cd. destruct (chdir_ok o _); simpl; solve_stayed.
  - unfold print_pwd. destruct (getcwd o); solve_stayed.
  - unfold save_history. destruct (history_file_ok o); solve_stayed.
  - unfold print_jobs. eapply stayed_trans; [apply stayed_remove_done_jobs|]. solve_stayed.
  - solve_stayed.
  - unfold builtin_fg. destruct (_ !! 1); simpl; [|solve_stayed].
    destruct (find_job_index_by_id _ st) as [idx|]; simpl; [|solve_stayed].
    match goal with |- context [wait_group ?pg ?ws ?s] =>
      pose proof (stayed_wait_group pg ws s) as Hw;
      destruct (wait_group pg ws s) as [stopped st2] end.
    simpl in Hw.
    assert (H0 : stayed_in_process st st2).
    { eapply stayed_trans; [|exact Hw]. solve_stayed. }
    destruct (group_gone o), stopped; simpl;
      (eapply stayed_trans; [exact H0|]); solve_stayed.
  - unfold builtin_bg. destruct (_ !! 1); simpl; [|solve_stayed].
    destruct (find_job_index_by_id _ st) as [idx|]; simpl; solve_stayed.
  - unfold builtin_kill. destruct (_ !! 1); simpl; [|solve_stayed].
    destruct (find_job_index_by_id _ st) as [idx|]; simpl; [|solve_stayed].
    destruct (kill_ok o); solve_stayed.
  - apply stayed_refl.
Qed.

End Builtins.

(** ** Builtin names inside a pipeline *)

Lemma setup_redirections_open cmd o i0 o0 :
  redirections_open cmd o -> (setup_redirections cmd o i0 o0).2 = None.
Proof.
  intros [Hin Hout]. unfold setup_redirections.
  destruct (Command.infile cmd) as [f|], (Command.outfile cmd) as [g|];
    rewrite ?(Hin _ eq_refl), ?(Hout _ eq_refl); reflexivity.
Qed.

Lemma child_main_fate cmd i nseg background pid pgid o name args :
  redirections_open cmd o ->
  Command.argv cmd = name :: args ->
  let c := child_main cmd i nseg background pid pgid o in
  (exec_ok o name = false -> c_fate c = ChildExit 127 /\ c_perror c = Some "execvp")
  /\ (exec_ok o name = true -> c_fate c = ChildExec name (name :: args)).
Proof.
  intros Hopen Hargv. unfold child_main.
  pose proof (setup_redirections_open cmd o
                (if decide (0 < i) then PipeRead (i - 1) else Inherited)
                (if decide (i < nseg - 1) then PipeWrite i else Inherited) Hopen) as Hr.
  destruct (setup_redirections _ _ _ _) as [[i1 o1] failed]. simpl in Hr. subst failed.
  rewrite Hargv. destruct (exec_ok o name); simpl; split; done.
Qed.

Lemma children_unchanged st st' d :
  out st' = out st ++ d ->
  Forall (fun e => is_process_creation e = false) d ->
  children st' = children st.
Proof.
  intros Hout Hd. unfold children. rewrite Hout, omap_app.
  replace (omap _ d) with (@nil child); [by rewrite app_nil_r|].
  clear Hout. induction Hd as [|e d He _ IH]; [done|].
  simpl. destruct e; try discriminate He; exact IH.
Qed.

Lemma children_pipes (l : list nat) :
  omap (fun e => match e with Fork c => Some c | _ => None end) (Pipe <$> l) = [].
Proof. induction l as [|k l IH]; [done|]. by rewrite fmap_cons. Qed.

Lemma add_job_entry_out pg cmdline s st : out (add_job_entry pg cmdline s st) = out st.
Proof. unfold add_job_entry. by destruct (decide _). Qed.

Section Pipelines.
Context {L : libc}.

(** The end of [execute_line] forks nothing. *)
Lemma after_forks_children nseg background pgid full_cmd o st :
  children (after_forks nseg background pgid full_cmd o st) = children st.
Proof.
  unfold after_forks. rewrite close_pipes_emits.
  set (st1 := emits _ st).
  assert (H1 : children st1 = children st).
  { apply (children_unchanged _ _ (ClosePipe <$> seq 0 (nseg - 1))); [done|].
    apply list.Forall_forall. intros e He.
    by apply list_elem_of_fmap in He as (k & -> & _). }
  rewrite <- H1. destruct background.
  - eapply (children_unchanged _ _ [_; _]);
      [ simpl; rewrite add_job_entry_out, <- app_assoc; reflexivity
      | by repeat constructor ].
  - match goal with |- context [wait_group ?pg ?ws ?s] =>
      pose proof (stayed_wait_group pg ws s) as Hw;
      destruct (wait_group pg ws s) as [stopped st2] end.
    simpl in Hw. destruct Hw as (d & Hout & Hd & _). simpl in Hout.
    assert (H2 : children st2 = children st1).
    { apply (children_unchanged _ _ (Tcsetpgrp pgid :: d)).
      - by rewrite Hout, <- app_assoc.
      - by constructor. }
    rewrite <- H2. destruct stopped.
    + eapply (children_unchanged _ _ [_; _]);
        [ simpl; destruct (find_job_index_by_pgid pgid st2); simpl;
          rewrite ?add_job_entry_out, <- app_assoc; reflexivity
        | by repeat constructor ].
    + by eapply (children_unchanged _ _ [_]); [reflexivity | repeat constructor].
Qed.

(** C3, as the code has it.  A line of one stage whose command is a
    builtin is handed to [run_builtin] in the shell itself: no fork, no
    setpgid, no child, no new entry in the Job Table.  A line of two or
    more stages is launched whatever the names of its commands; when its
    pipes and its processes are created, the stage whose command name is
    a builtin has a child of its own, and that child, once every file it
    redirects to or from has been opened, hands the name to [execvp]: it
    leaves with status 127 when no such program is found and becomes that
    program otherwise. *)
Theorem builtin_runs_in_process_only_when_alone
  (line full_cmd : string) (background : bool) (o : os) (st : shell) :
  (forall seg,
      split_pipeline line MAX_CMDS = [seg] ->
      is_builtin (parse_command (strncpy (MAX_INPUT - 1) seg)) = true ->
      let r := run_builtin (parse_command (strncpy (MAX_INPUT - 1) seg)) full_cmd o st in
      flow_state (execute_line line background full_cmd o st) = builtin_state r
      /\ stayed_in_process st (builtin_state r)
      /\ children (builtin_state r) = children st)
  /\ (forall seg1 seg2 segs,
        split_pipeline line MAX_CMDS = seg1 :: seg2 :: segs ->
        (forall k, k < S (length segs) -> pipe_ok o k = true) ->
        (forall i, i < S (S (length segs)) -> (0 < fork_ret o i)%Z) ->
        let st' := launch (seg1 :: seg2 :: segs) background full_cmd o st in
        execute_line line background full_cmd o st = Continue st'
        /\ forall k seg name args,
             (seg1 :: seg2 :: segs) !! k = Some seg ->
             let cmd := parse_command (strncpy (MAX_INPUT - 1) seg) in
             Command.argv cmd = name :: args ->
             name ∈ builtin_names ->
             exists c,
               children st' !! (length (children st) + k) = Some c
               /\ c_pid c = fork_ret o k
               /\ c_stage c = k
               /\ (redirections_open cmd o -> exec_ok o name = false ->
                   c_fate c = ChildExit 127 /\ c_perror c = Some "execvp")
               /\ (redirections_open cmd o -> exec_ok o name = true ->
                   c_fate c = ChildExec name (name :: args))).
Proof.
  split.
  - intros seg Hsplit Hb r.
    assert (Hflow : flow_state (execute_line line background full_cmd o st)
                    = builtin_state r).
    { unfold execute_line. rewrite Hsplit, Hb. fold r. by destruct r. }
    pose proof (run_builtin_stays
                  (parse_command (strncpy (MAX_INPUT - 1) seg)) full_cmd o st) as Hs.
    fold r in Hs. split; [done|]. split; [done|].
    destruct Hs as (d & Hout & Hd & _). by apply (children_unchanged _ _ d).
  - intros seg1 seg2 segs Hsplit Hpipes Hforks st'.
    split; [unfold execute_line; by rewrite Hsplit|].
    intros k seg name args Hk cmd Hargv Hname.
    destruct (launch_all_created (seg1 :: seg2 :: segs) background full_cmd o st)
      as (cs & Hlaunch & Hlen & Hcs); [done | | |].
    { intros j Hj. apply Hpipes. simpl in Hj. lia. }
    { intros j Hj. apply Hforks. simpl in Hj. lia. }
    assert (Hkl : k < length cs).
    { rewrite Hlen. by apply lookup_lt_Some in Hk. }
    destruct (lookup_lt_is_Some_2 cs k Hkl) as [c Hc].
    destruct (Hcs k c Hc) as (seg' & pg & Hseg' & ->).
    assert (seg' = seg) as -> by congruence.
    fold cmd.
    exists (child_main cmd k (length (seg1 :: seg2 :: segs)) background (fork_ret o k) pg o).
    split; [|split; [apply child_main_pid|split; [apply child_main_stage|]]].
    + assert (Hch : children st' = children st ++ cs).
      { unfold st'. rewrite Hlaunch, after_forks_children, children_emits.
        by rewrite omap_app, children_pipes, children_fork_records. }
      rewrite Hch, lookup_app_r by lia.
      by replace (length (children st) + k - length (children st)) with k by lia.
    + pose proof (child_main_fate cmd k (length (seg1 :: seg2 :: segs)) background
                    (fork_ret o k) pg o name args) as Hfate.
      split; intros Hopen Hexec; destruct (Hfate Hopen Hargv) as [H1 H2]; auto.
Qed.

End Pipelines.

(** C3, counterexample.  In [cd < missing | cat] the first stage has the
    builtin name [cd], the line has two stages and no program called [cd]
    exists; the file cannot be opened, and the child of that stage leaves
    with status 1, not 127. *)
Lemma builtin_stage_leaves_with_status_1 :
  let line := "cd < missing | cat" in
  exists c0 c1 st',
    execute_line (L := Glibc.lib) line false line bare_os initial_shell = Continue st'
    /\ children st' = [c0; c1]
    /\ Command.argv (parse_command "cd < missing ") = ["cd"]
    /\ is_builtin (parse_command "cd < missing ") = true
    /\ exec_ok bare_os "cd" = false
    /\ c_stage c0 = 0
    /\ c_fate c0 = ChildExit 1
    /\ c_fate c0 <> ChildExit 127.
Proof.
  eexists _, _, _. split; [vm_compute; reflexivity|].
  split; [reflexivity|]. repeat split. discriminate.
Qed.

(** ** A fork that fails *)

Section ForkFailure.
Context {L : libc}.

(** When the fork of stage [k] fails after [k] forks that succeeded, the
    launch ends right after its [perror]: the [k] children stay as they
    are and nothing more is done about them. *)
Lemma launch_fork_failure segs background full_cmd o st k :
  (forall j, j < length segs - 1 -> pipe_ok o j = true) ->
  k < length segs ->
  (forall i, i < k -> fork_ret o i <> (-1)%Z) ->
  fork_ret o k = (-1)%Z ->
  exists cs,
    length cs = k
    /\ launch segs background full_cmd o st
       = emits ((Pipe <$> seq 0 (length segs - 1)) ++ (cs ≫= fork_record)
                ++ [Perror "fork"]) st
    /\ children (launch segs background full_cmd o st) = children st ++ cs.
Proof.
  intros Hpipes Hk Hbefore Hfail. unfold launch.
  rewrite make_pipes_ok by (intros; apply Hpipes; lia).
  set (st1 := emits _ st).
  destruct (fork_stages_spec o (length segs) background segs 0 0%Z st1)
    as (cs & Hout & Hcs & Hlen).
  destruct (fork_stages segs 0 (length segs) background 0 o st1) as [[ok pg] st2].
  cbn [fst snd] in *.
  assert (Hno : forall c, cs !! k = Some c -> False).
  { intros c Hc. destruct (Hcs k c Hc) as (? & ? & _ & Hne & _). done. }
  destruct ok.
  - exfalso. destruct (lookup_lt_is_Some_2 cs k) as [c Hc]; [lia|]. eauto.
  - destruct Hlen as [Hlt Hf].
    assert (Hlen : length cs = k).
    { destruct (decide (length cs < k)) as [H1|H1].
      - exfalso. by apply (Hbefore (length cs)).
      - destruct (decide (k < length cs)) as [H2|H2]; [|lia].
        exfalso. destruct (lookup_lt_is_Some_2 cs k H2) as [c Hc]. eauto. }
    exists cs. split; [done|].
    assert (Hst2 : st2 = emits ((Pipe <$> seq 0 (length segs - 1))
                                ++ (cs ≫= fork_record) ++ [Perror "fork"]) st).
    { rewrite Hout. unfold st1. by rewrite emits_emits. }
    split; [done|].
    rewrite Hst2, children_emits, !omap_app, children_pipes, children_fork_records.
    simpl. by rewrite app_nil_r.
Qed.

End ForkFailure.


(** ** The [jobs] builtin *)




(** ** Tokens *)

Lemma split_token_last t :
  no_blank t = true -> split_token blanks t = (t, EmptyString).
Proof.
  induction t as [|c t IH]; simpl; [done|].
  intros [Hc Ht]%andb_prop. apply negb_true_iff in Hc. rewrite Hc.
  by rewrite (IH Ht).
Qed.

Lemma split_token_first t rest :
  no_blank t = true ->
  split_token blanks (String.append t (String " " rest)) = (t, rest).
Proof.
  induction t as [|c t IH]; simpl; [done|].
  intros [Hc Ht]%andb_prop. apply negb_true_iff in Hc. rewrite Hc.
  by rewrite (IH Ht).
Qed.

Lemma strtok_r_last t : is_token t -> strtok_r t blanks = Some (t, EmptyString).
Proof.
  intros [Hne Hnb]. destruct t as [|c t]; [done|].
  unfold strtok_r. pose proof Hnb as Hnb'. simpl in Hnb.
  apply andb_prop in Hnb as [Hc _]. apply negb_true_iff in Hc.
  simpl skip_delim. rewrite Hc. by rewrite split_token_last.
Qed.

Lemma strtok_r_first t rest :
  is_token t ->
  strtok_r (String.append t (String " " rest)) blanks = Some (t, rest).
Proof.
  intros [Hne Hnb]. destruct t as [|c t]; [done|].
  unfold strtok_r. pose proof Hnb as Hnb'. simpl in Hnb.
  apply andb_prop in Hnb as [Hc _]. apply negb_true_iff in Hc.
  simpl skip_delim. rewrite Hc.
  change (String c (String.append t (String " " rest)))
    with (String.append (String c t) (String " " rest)).
  by rewrite split_token_first.
Qed.

Lemma string_length_append s1 s2 :
  String.length (String.append s1 s2) = String.length s1 + String.length s2.
Proof. induction s1 as [|c s1 IH]; simpl; [done|]. by rewrite IH. Qed.

Lemma strtok_all_empty fuel : strtok_all fuel EmptyString blanks = [].
Proof. by destruct fuel. Qed.

(** Enough fuel: the tokens of a line made of tokens separated by one
    space are those tokens. *)
Lemma strtok_all_concat ts :
  forall fuel,
    Forall is_token ts ->
    String.length (String.concat " " ts) < fuel ->
    strtok_all fuel (String.concat " " ts) blanks = ts.
Proof.
  induction ts as [|t ts IH]; intros fuel Hts Hfuel.
  - apply strtok_all_empty.
  - apply Forall_cons in Hts as [Ht Hts].
    destruct fuel as [|fuel]; [lia|].
    destruct ts as [|t' ts].
    + simpl. rewrite strtok_r_last by done. by rewrite strtok_all_empty.
    + change (String.concat " " (t :: t' :: ts))
        with (String.append t (String " " (String.concat " " (t' :: ts)))) in *.
      cbn [strtok_all]. rewrite strtok_r_first by done.
      f_equal. apply IH; [done|].
      rewrite string_length_append in Hfuel.
      cbn [String.length] in Hfuel. lia.
Qed.

Lemma tokens_concat ts :
  Forall is_token ts -> tokens (String.concat " " ts) blanks = ts.
Proof. intros Hts. unfold tokens. apply strtok_all_concat; [done | lia]. Qed.

(** The segment that spells a token stream is parsed as that stream. *)
Lemma parse_command_concat ts :
  Forall is_token ts ->
  parse_command (String.concat " " ts) = parse_tokens ts 0 Command.zero.
Proof. intros Hts. unfold parse_command. by rewrite tokens_concat. Qed.

(** ** A redirection operator without its filename *)

Lemma parse_tokens_dangling items :
  forall op argc cmd,
    Forall item_ok items -> is_redirection op = true ->
    parse_tokens ((items ≫= item_tokens) ++ [op]) argc cmd
    = parse_tokens (items ≫= item_tokens) argc cmd.
Proof.
  induction items as [|it items IH]; intros op argc cmd Hok Hop.
  - change ([] ≫= item_tokens) with (@nil string).
    simpl. destruct (decide (argc < _)); [|done].
    unfold is_redirection in Hop.
    destruct (String.eqb op "<"); [done|].
    destruct (String.eqb op ">"); [done|].
    destruct (String.eqb op ">>"); [done|]. discriminate.
  - apply Forall_cons in Hok as [Hit Hok].
    change ((it :: items) ≫= item_tokens)
      with (item_tokens it ++ (items ≫= item_tokens)).
    destruct it as [w|o f]; simpl in *.
    + unfold is_redirection in Hit.
      destruct (decide (argc < _)); [|done].
      destruct (String.eqb w "<"); [done|].
      destruct (String.eqb w ">"); [done|].
      destruct (String.eqb w ">>"); [done|].
      by apply IH.
    + unfold is_redirection in Hit.
      destruct (decide (argc < _)); [|done].
      destruct (String.eqb o "<"); [by apply IH|].
      destruct (String.eqb o ">"); [by apply IH|].
      destruct (String.eqb o ">>"); [by apply IH|]. done.
Qed.

Lemma parse_tokens_argv items :
  forall argc cmd,
    Forall item_ok items ->
    Command.argv (parse_tokens (items ≫= item_tokens) argc cmd)
    = Command.argv cmd ++ take (MAX_ARGS - 1 - argc) (words items).
Proof.
  change (MAX_ARGS - 1) with 127.
  induction items as [|it items IH]; intros argc cmd Hok.
  - change ([] ≫= item_tokens) with (@nil string).
    simpl. by rewrite take_nil, app_nil_r.
  - apply Forall_cons in Hok as [Hit Hok].
    change ((it :: items) ≫= item_tokens)
      with (item_tokens it ++ (items ≫= item_tokens)).
    destruct it as [w|o f]; simpl in Hit.
    + change (words (Word w :: items)) with (w :: words items).
      simpl. destruct (decide (argc < _)) as [Hlt|Hge].
      * unfold is_redirection in Hit.
        destruct (String.eqb w "<"); [done|].
        destruct (String.eqb w ">"); [done|].
        destruct (String.eqb w ">>"); [done|].
        rewrite IH by done. simpl Command.argv.
        replace (127 - argc) with (S (127 - S argc)) by lia.
        by rewrite <- app_assoc.
      * replace (127 - argc) with 0 by lia. by rewrite app_nil_r.
    + change (words (Redirect o f :: items)) with (words items).
      simpl. destruct (decide (argc < _)) as [Hlt|Hge].
      * unfold is_redirection in Hit.
        destruct (String.eqb o "<"); [by rewrite IH|].
        destruct (String.eqb o ">"); [by rewrite IH|].
        destruct (String.eqb o ">>"); [by rewrite IH|]. done.
      * replace (127 - argc) with 0 by lia.
        by rewrite take_0, app_nil_r.
Qed.

(** C9, as the code has it.  Take a stage's token stream that ends with a
    redirection operator in operator position, with no filename after it.
    The descriptor built from it is the one built from the stream without
    that operator: the operator records no redirection, and building is a
    total function that reports nothing.  The words of the stream become
    the arguments in order, up to the first 127 of them; with at most 127
    words every word is an argument. *)
Theorem dangling_operator_is_ignored (items : list item) (op : string) :
  Forall item_ok items ->
  is_redirection op = true ->
  let toks := (items ≫= item_tokens) ++ [op] in
  let cmd := parse_tokens toks 0 Command.zero in
  cmd = parse_tokens (items ≫= item_tokens) 0 Command.zero
  /\ Command.argv cmd = take (MAX_ARGS - 1) (words items)
  /\ (length (words items) <= MAX_ARGS - 1 -> Command.argv cmd = words items).
Proof.
  intros Hok Hop toks cmd.
  assert (H1 : cmd = parse_tokens (items ≫= item_tokens) 0 Command.zero)
    by (by apply parse_tokens_dangling).
  assert (H2 : Command.argv cmd = take (MAX_ARGS - 1) (words items)).
  { rewrite H1, parse_tokens_argv by done. simpl Command.argv.
    by rewrite Nat.sub_0_r. }
  split; [done|]. split; [done|].
  intros Hlen. rewrite H2. by apply take_ge.
Qed.

(** C9, counterexample.  In the stream of 128 words [a] followed by [>],
    the operator is the last token and has no filename, and the descriptor
    has 127 arguments: the last word is not one of them. *)
Lemma dangling_operator_after_128_words :
  let toks := replicate 128 "a" ++ [">"] in
  let line := String.concat " " toks in
  tokens line blanks = toks
  /\ Command.argv (parse_command line) = replicate 127 "a"
  /\ Command.outfile (parse_command line) = None
  /\ Command.argv (parse_command line) <> replicate 128 "a".
Proof.
  split; [vm_compute; reflexivity|].
  split; [vm_compute; reflexivity|].
  split; [vm_compute; reflexivity|].
  vm_compute. discriminate.
Qed.

(** ** Job ids *)

Lemma wrap_int_small x : (- 2 ^ 31 <= x < 2 ^ 31)%Z -> wrap_int x = x.
Proof. intros H. unfold wrap_int. rewrite Z.mod_small; lia. Qed.

Lemma StronglySorted_snoc (l : list Z) (x : Z) :
  StronglySorted Z.lt l -> Forall (fun y => (y < x)%Z) l ->
  StronglySorted Z.lt (l ++ [x]).
Proof.
  induction 1 as [|y l Hl IH Hy]; intros Hx; simpl.
  - repeat constructor.
  - apply Forall_cons in Hx as [Hyx Hx]. constructor; [by apply IH|].
    apply Forall_app. split; [done|]. by repeat constructor.
Qed.

Lemma StronglySorted_filter_fmap (P : Job.t -> Prop) `{!forall j, Decision (P j)}
  (l : list Job.t) :
  StronglySorted Z.lt (Job.id <$> l) -> StronglySorted Z.lt (Job.id <$> filter P l).
Proof.
  induction l as [|j l IH]; intros Hs; [done|].
  rewrite fmap_cons in Hs. apply StronglySorted_inv in Hs as [Hs Hj].
  rewrite filter_cons. destruct (decide (P j)); [|by apply IH].
  rewrite fmap_cons. constructor; [by apply IH|].
  apply list.Forall_forall. intros x Hx.
  apply list_elem_of_fmap in Hx as (j' & -> & Hj').
  apply list_elem_of_filter in Hj' as [_ Hj'].
  eapply list.Forall_forall in Hj; [exact Hj|]. by apply list_elem_of_fmap_2.
Qed.

Lemma StronglySorted_lt_NoDup (l : list Z) : StronglySorted Z.lt l -> NoDup l.
Proof.
  induction 1 as [|x l Hl IH Hx]; constructor; [|done].
  intros Hin. eapply list.Forall_forall in Hx; [|exact Hin]. lia.
Qed.

Lemma StronglySorted_lt_increasing (l : list Z) :
  StronglySorted Z.lt l -> strictly_increasing l.
Proof.
  induction 1 as [|x l Hl IH Hx]; intros i j a b Hij Hi Hj.
  - by rewrite lookup_nil in Hi.
  - destruct j as [|j]; [lia|]. simpl in Hj. destruct i as [|i]; simpl in Hi.
    + injection Hi as <-. eapply list.Forall_forall in Hx; [exact Hx|].
      by eapply list_elem_of_lookup_2.
    + apply (IH i j); [lia | done | done].
Qed.

Lemma table_ids_set_job_state idx s st :
  Job.id <$> table (set_job_state idx s st) = Job.id <$> table st.
Proof.
  unfold table, set_job_state. simpl.
  rewrite !fmap_take, list_fmap_insert. f_equal.
  apply list_insert_id'. intros Hlt. rewrite length_fmap in Hlt.
  destruct (lookup_lt_is_Some_2 _ _ Hlt) as [j Hj].
  by rewrite list_lookup_fmap, (list_lookup_total_correct _ _ _ Hj), Hj.
Qed.

Lemma ids_invariant_set_job_state idx s st ids :
  ids_invariant st ids -> ids_invariant (set_job_state idx s st) ids.
Proof.
  intros (Hwf & Hn & Hs & Hb & Ht & Hin).
  split; [by apply set_job_state_wf|].
  rewrite table_ids_set_job_state. done.
Qed.

Lemma ids_invariant_remove_done_jobs st ids :
  ids_invariant st ids -> ids_invariant (remove_done_jobs st) ids.
Proof.
  intros (Hwf & Hn & Hs & Hb & Ht & Hin).
  assert (Hle : job_count st <= length (jobs st)) by (destruct Hwf; lia).
  destruct (remove_done_jobs_table st Hle) as (Htab & _ & _).
  assert (Hnid : next_job_id (remove_done_jobs st) = next_job_id st).
  { unfold remove_done_jobs.
    by destruct (remove_done_loop (job_count st) 0 0 (jobs st)). }
  split; [by apply remove_done_jobs_wf|].
  rewrite Hnid, Htab. repeat split; try done.
  - by apply StronglySorted_filter_fmap.
  - apply list.Forall_forall. intros x Hx.
    apply list_elem_of_fmap in Hx as (j & -> & Hj).
    apply list_elem_of_filter in Hj as [_ Hj].
    eapply list.Forall_forall in Hin; [exact Hin|]. by apply list_elem_of_fmap_2.
Qed.

Lemma add_job_entry_table pg cmdline s st :
  wf st -> job_count st < MAX_JOBS ->
  table (add_job_entry pg cmdline s st)
  = table st ++ [ {| Job.id := next_job_id st; Job.pgid := pg;
                     Job.cmdline := strncpy (MAX_INPUT - 1) cmdline;
                     Job.state := s |} ]
  /\ job_count (add_job_entry pg cmdline s st) = S (job_count st)
  /\ next_job_id (add_job_entry pg cmdline s st) = wrap_int (next_job_id st + 1)
  /\ wf (add_job_entry pg cmdline s st).
Proof.
  intros [Hl Hc] Hlt. unfold add_job_entry, table, wf.
  rewrite decide_False by lia. cbn [jobs job_count next_job_id set_jobs set_job_count set_next_job_id].
  repeat split.
  - erewrite take_S_r by (apply list_lookup_insert_eq; lia).
    by rewrite take_insert_ge by lia.
  - by rewrite length_insert.
  - lia.
Qed.

Section JobIds.
Context {L : libc}.

Lemma ids_invariant_sigchld_handler evs st ids :
  ids_invariant st ids -> ids_invariant (sigchld_handler evs st) ids.
Proof.
  revert st. induction evs as [|ev evs IH]; intros st Hinv; simpl; [done|].
  apply IH. unfold reap.
  destruct (find_job_index_by_pgid _ st); [|done].
  repeat (destruct (_ : bool)); auto using ids_invariant_set_job_state.
Qed.

Lemma ids_invariant_apply_op op st ids :
  ids_invariant st ids ->
  (next_job_id st < INT_MAX)%Z ->
  ids_invariant (apply_op op st) (ids ++ assigned_by op st)
  /\ (next_job_id (apply_op op st) <= next_job_id st + 1)%Z.
Proof.
  intros Hinv Hmax. destruct op as [pg cmdline s| |evs|idx s]; simpl.
  - destruct (decide (job_count st < MAX_JOBS)) as [Hlt|Hge].
    + destruct Hinv as (Hwf & Hn & Hs & Hb & Ht & Hin).
      destruct (add_job_entry_table pg cmdline s st Hwf Hlt) as (Htab & Hcnt & Hnid & Hwf').
      rewrite decide_True by done.
      assert (Hid : Job.id (jobs (add_job_entry pg cmdline s st) !!! job_count st)
                    = next_job_id st).
      { unfold add_job_entry. rewrite decide_False by lia. simpl.
        rewrite list_lookup_total_insert_eq by (destruct Hwf; lia). done. }
      rewrite Hid.
      assert (Hw : wrap_int (next_job_id st + 1) = (next_job_id st + 1)%Z).
      { apply wrap_int_small. unfold INT_MAX in Hmax. lia. }
      rewrite Hnid, Hw. split; [|lia].
      split; [done|]. rewrite Hnid, Hw, Htab, fmap_app. simpl.
      repeat split.
      * lia.
      * apply StronglySorted_snoc; [done|].
        eapply Forall_impl; [exact Hb|]. simpl. lia.
      * apply Forall_app. split.
        -- eapply Forall_impl; [exact Hb|]. simpl. lia.
        -- repeat constructor; lia.
      * apply StronglySorted_snoc; [done|].
        apply list.Forall_forall. intros x Hx.
        eapply list.Forall_forall in Hin; [|exact Hx].
        eapply list.Forall_forall in Hb; [|exact Hin]. simpl in Hb. lia.
      * apply Forall_app. split.
        -- eapply Forall_impl; [exact Hin|]. simpl. intros x Hx.
           apply elem_of_app. by left.
        -- repeat constructor. apply elem_of_app. right. by apply list_elem_of_singleton.
    + rewrite add_job_entry_full by lia.
      rewrite decide_False by lia. rewrite app_nil_r. split; [done|lia].
  - rewrite app_nil_r. split; [by apply ids_invariant_remove_done_jobs|].
    unfold remove_done_jobs.
    destruct (remove_done_loop (job_count st) 0 0 (jobs st)). simpl. lia.
  - rewrite app_nil_r. split; [by apply ids_invariant_sigchld_handler|].
    clear. revert st. induction evs as [|ev evs IH]; intros st; simpl; [lia|].
    etrans; [apply IH|]. unfold reap.
    destruct (find_job_index_by_pgid _ st); [|lia].
    repeat (destruct (_ : bool)); simpl; lia.
  - rewrite app_nil_r. split; [by apply ids_invariant_set_job_state|]. simpl. lia.
Qed.

Lemma ids_invariant_session ops :
  forall st ids0,
    ids_invariant st ids0 ->
    (next_job_id st + Z.of_nat (length ops) <= INT_MAX)%Z ->
    ids_invariant (session ops st).1 (ids0 ++ (session ops st).2).
Proof.
  induction ops as [|op ops IH]; intros st ids0 Hinv Hmax; simpl.
  - by rewrite app_nil_r.
  - destruct (ids_invariant_apply_op op st ids0 Hinv) as [Hinv' Hn].
    { simpl in Hmax. lia. }
    specialize (IH (apply_op op st) (ids0 ++ assigned_by op st) Hinv').
    destruct (session ops (apply_op op st)) as [st' ids]. simpl in *.
    rewrite app_assoc. apply IH. lia.
Qed.

End JobIds.

(** ** The program changes the table through the four operations only *)

Section Follows.
Context {L : libc}.

Lemma apply_op_emits op d st : apply_op op (emits d st) = emits d (apply_op op st).
Proof.
  destruct op as [pg cmdline s| |evs|idx s]; simpl.
  - unfold add_job_entry. simpl. by destruct (decide _).
  - unfold remove_done_jobs. simpl.
    by destruct (remove_done_loop (job_count st) 0 0 (jobs st)).
  - revert st. induction evs as [|ev evs IH]; intros st; simpl; [done|].
    rewrite <- IH. f_equal. unfold reap.
    change (find_job_index_by_pgid (ev_getpgid ev) (emits d st))
      with (find_job_index_by_pgid (ev_getpgid ev) st).
    destruct (find_job_index_by_pgid _ st); [|done].
    by repeat (destruct (_ : bool)).
  - reflexivity.
Qed.

Lemma session_emits ops :
  forall d st, (session ops (emits d st)).1 = emits d (session ops st).1.
Proof.
  induction ops as [|op ops IH]; intros d st; simpl; [done|].
  rewrite apply_op_emits. specialize (IH d (apply_op op st)).
  destruct (session ops (emits d (apply_op op st))) as [s1 i1].
  destruct (session ops (apply_op op st)) as [s2 i2]. done.
Qed.

Lemma session_app ops1 :
  forall ops2 st,
    (session (ops1 ++ ops2) st).1 = (session ops2 (session ops1 st).1).1.
Proof.
  induction ops1 as [|op ops1 IH]; intros ops2 st; simpl; [done|].
  specialize (IH ops2 (apply_op op st)).
  destruct (session (ops1 ++ ops2) (apply_op op st)) as [s1 i1].
  destruct (session ops1 (apply_op op st)) as [s2 i2]. done.
Qed.

Lemma follows_intro ops d st : follows st (emits d (session ops st).1).
Proof. by exists ops, d. Qed.

Lemma follows_refl st : follows st st.
Proof. exists [], []. simpl. rewrite app_nil_r. by destruct st. Qed.

Lemma follows_trans st1 st2 st3 : follows st1 st2 -> follows st2 st3 -> follows st1 st3.
Proof.
  intros (ops1 & d1 & ->) (ops2 & d2 & ->).
  exists (ops1 ++ ops2), (d1 ++ d2).
  change {| jobs := jobs (session ops1 st1).1;
            job_count := job_count (session ops1 st1).1;
            next_job_id := next_job_id (session ops1 st1).1;
            history := history (session ops1 st1).1;
            out := out (session ops1 st1).1 ++ d1 |}
    with (emits d1 (session ops1 st1).1).
  rewrite session_emits, session_app. simpl. by rewrite app_assoc.
Qed.

Lemma follows_emits d st : follows st (emits d st).
Proof. by exists [], d. Qed.

Lemma follows_emit e st : follows st (emit e st).
Proof. apply (follows_emits [e]). Qed.

Lemma follows_op op st : follows st (apply_op op st).
Proof.
  exists [op], []. simpl. rewrite app_nil_r. by destruct (apply_op op st).
Qed.

Lemma follows_print_jobs_from js i n st : follows st (print_jobs_from js i n st).
Proof.
  revert i st. induction n as [|n IH]; intros i st; simpl.
  - apply follows_refl.
  - destruct (is_done _); [apply IH|].
    eapply follows_trans; [apply follows_emit | apply IH].
Qed.

Lemma follows_print_history lines i st : follows st (print_history lines i st).
Proof.
  revert i st. induction lines as [|l lines IH]; intros i st; simpl.
  - apply follows_refl.
  - eapply follows_trans; [apply follows_emit | apply IH].
Qed.

Lemma follows_wait_group pg statuses st : follows st (wait_group pg statuses st).2.
Proof.
  revert st. induction statuses as [|s statuses IH]; intros st; simpl.
  - apply follows_refl.
  - destruct (WIFSTOPPED s); simpl; [apply follows_emit|].
    eapply follows_trans; [apply follows_emit | apply IH].
Qed.

Local Ltac solve_follows :=
  repeat first
    [ apply follows_refl
    | apply follows_emit
    | apply follows_emits
    | apply (follows_op (SetState _ _))
    | apply (follows_op (AddJob _ _ _))
    | apply (follows_op RemoveDone)
    | apply follows_print_jobs_from
    | apply follows_print_history
    | apply follows_wait_group
    | (eapply follows_trans; [|apply (follows_op (SetState _ _))])
    | (eapply follows_trans; [|apply follows_emit]) ].

Lemma run_builtin_follows cmd full_line o st :
  follows st (builtin_state (run_builtin cmd full_line o st)).
Proof.
  unfold run_builtin.
  destruct (Command.argv cmd) as [|name args] eqn:Hargv; [apply follows_refl|].
  repeat (match goal with |- context [if String.eqb ?a ?b then _ else _] =>
            destruct (String.eqb a b) end); simpl.
  - unfold builtin_cd. destruct (chdir_ok o _); simpl; solve_follows.
  - unfold print_pwd. destruct (getcwd o); solve_follows.
  - unfold save_history. destruct (history_file_ok o); solve_follows.
  - unfold print_jobs. eapply follows_trans; [apply (follows_op RemoveDone)|]. solve_follows.
  - solve_follows.
  - unfold builtin_fg. destruct (_ !! 1); simpl; [|solve_follows].
    destruct (find_job_index_by_id _ st) as [idx|]; simpl; [|solve_follows].
    match goal with |- context [wait_group ?pg ?ws ?s] =>
      pose proof (follows_wait_group pg ws s) as Hw;
      destruct (wait_group pg ws s) as [stopped st2] end.
    simpl in Hw.
    assert (H0 : follows st st2).
    { eapply follows_trans; [|exact Hw]. solve_follows. }
    destruct (group_gone o), stopped; simpl;
      (eapply follows_trans; [exact H0|]); solve_follows.
  - unfold builtin_bg. destruct (_ !! 1); simpl; [|solve_follows].
    destruct (find_job_index_by_id _ st) as [idx|]; simpl; solve_follows.
  - unfold builtin_kill. destruct (_ !! 1); simpl; [|solve_follows].
    destruct (find_job_index_by_id _ st) as [idx|]; simpl; [|solve_follows].
    destruct (kill_ok o); solve_follows.
  - apply follows_refl.
Qed.

Lemma make_pipes_follows n k o st : follows st (make_pipes n k o st).2.
Proof.
  revert k st. induction n as [|n IH]; intros k st; simpl.
  - apply follows_refl.
  - destruct (pipe_ok o k); simpl; [|apply follows_emit].
    eapply follows_trans; [apply follows_emit | apply IH].
Qed.

Lemma launch_follows segs background full_cmd o st :
  follows st (launch segs background full_cmd o st).
Proof.
  unfold launch.
  pose proof (make_pipes_follows (length segs - 1) 0 o st) as H1.
  destruct (make_pipes (length segs - 1) 0 o st) as [[|] st1]; simpl in H1.
  -     destruct (fork_stages_spec o (length segs) background segs 0 0%Z st1)
      as (cs & Hout & _).
    destruct (fork_stages segs 0 (length segs) background 0 o st1) as [[ok pg] st2].
    cbn [fst snd] in Hout.
    assert (H2 : follows st st2).
    { eapply follows_trans; [exact H1|]. rewrite Hout. apply follows_emits. }
    destruct ok; [|done].
    eapply follows_trans; [exact H2|].
    unfold after_forks. rewrite close_pipes_emits.
    destruct background.
    + eapply follows_trans; [apply follows_emits|].
      eapply follows_trans; [apply (follows_op (AddJob pg full_cmd JOB_RUNNING))|].
      solve_follows.
    + eapply follows_trans; [apply follows_emits|].
      match goal with |- context [wait_group ?pg ?ws ?s] =>
        pose proof (follows_wait_group pg ws s) as Hw;
        destruct (wait_group pg ws s) as [stopped st3] end.
      simpl in Hw.
      eapply follows_trans; [apply follows_emit|].
      eapply follows_trans; [exact Hw|].
      destruct stopped; [|solve_follows].
      destruct (find_job_index_by_pgid pg st3).
      * solve_follows.
      * eapply follows_trans; [apply (follows_op (AddJob pg full_cmd JOB_STOPPED))|].
        solve_follows.
  - done.
Qed.

(** Whatever the line and the answers of the system, the state after
    [execute_line] is the state before it changed by operations of
    [job_op] and extended by output. *)
Lemma execute_line_follows line background full_cmd o st :
  follows st (flow_state (execute_line line background full_cmd o st)).
Proof.
  unfold execute_line.
  destruct (split_pipeline line MAX_CMDS) as [|seg [|seg' segs]].
  - apply follows_refl.
  - destruct (is_builtin _).
    + pose proof (run_builtin_follows
                    (parse_command (strncpy (MAX_INPUT - 1) seg)) full_cmd o st) as H.
      by destruct (run_builtin _ full_cmd o st).
    + apply launch_follows.
  - apply launch_follows.
Qed.

End Follows.

(** * The GNU C library satisfies what is asked of the platform *)


(** * The theorems at concrete inputs *)

(** C4 on [fg 7] with an empty table. *)
Lemma unknown_job_id_is_reported_witness :
  let cmd := {| Command.argv := ["fg"; "7"]; Command.infile := None;
                Command.outfile := None; Command.append := false |} in
  no_such_job (atoi (libc := Glibc.lib) "7") initial_shell
  /\ exists st',
       run_builtin (L := Glibc.lib) cmd "fg 7" plain_os initial_shell = BReturn (-1) st'
       /\ out st' = [Eprintf "fg: no such job\n"]
       /\ jobs st' = jobs initial_shell
       /\ job_count st' = 0
       /\ next_job_id st' = 1%Z.
Proof.
  intros cmd.
  assert (Hno : no_such_job (atoi (libc := Glibc.lib) "7") initial_shell).
  { intros k Hk. simpl in Hk. lia. }
  split; [done|].
  exact (unknown_job_id_is_reported (L := Glibc.lib) "fg" "7" [] cmd "fg 7" plain_os
           initial_shell (list_elem_of_here _ _) eq_refl Hno).
Defined.

(** C5 on a table of two jobs of which the first is done. *)
Lemma remove_done_jobs_removes_exactly_done_witness :
  let st := set_job_state 0 JOB_DONE
              (add_job_entry 200 "b &" JOB_RUNNING
                 (add_job_entry 100 "a &" JOB_RUNNING initial_shell)) in
  wf st
  /\ table (remove_done_jobs st)
     = filter (fun j => Job.state j <> JOB_DONE) (table st)
  /\ Job.id <$> table (remove_done_jobs st) = [2%Z].
Proof.
  intros st.
  assert (Hwf : wf st) by (split; [reflexivity | vm_compute; lia]).
  split; [done|].
  split; [exact (proj1 (remove_done_jobs_removes_exactly_done st Hwf))|].
  reflexivity.
Defined.

(** C6 on the same table. *)
Lemma remove_done_jobs_idempotent_witness :
  let st := set_job_state 0 JOB_DONE
              (add_job_entry 200 "b &" JOB_RUNNING
                 (add_job_entry 100 "a &" JOB_RUNNING initial_shell)) in
  wf st
  /\ remove_done_jobs (remove_done_jobs st) = remove_done_jobs st.
Proof.
  intros st.
  assert (Hwf : wf st) by (split; [reflexivity | vm_compute; lia]).
  split; [done|]. exact (remove_done_jobs_idempotent st Hwf).
Defined.

(** C9 on [cat < in >]. *)
Lemma dangling_operator_is_ignored_witness :
  let items := [Word "cat"; Redirect "<" "in"] in
  Forall item_ok items
  /\ is_redirection ">" = true
  /\ parse_tokens ["cat"; "<"; "in"; ">"] 0 Command.zero
     = parse_tokens ["cat"; "<"; "in"] 0 Command.zero
  /\ Command.argv (parse_tokens ["cat"; "<"; "in"; ">"] 0 Command.zero) = ["cat"].
Proof.
  intros items.
  assert (Hok : Forall item_ok items) by (repeat constructor).
  split; [done|]. split; [reflexivity|].
  destruct (dangling_operator_is_ignored items ">" Hok eq_refl) as (H1 & _ & H3).
  split; [exact H1|].
  apply H3. vm_compute. lia.
Defined.

(** C10 on a table filled by 64 registrations and the line [sleep 100]. *)
Lemma full_table_registration_is_silent_witness :
  let st := Nat.iter 64 (add_job_entry 7 "sleep 9 &" JOB_RUNNING) initial_shell in
  wf st
  /\ job_count st = MAX_JOBS
  /\ split_pipeline "sleep 100" MAX_CMDS = ["sleep 100"]
  /\ add_job_entry 4242 "sleep 100 &" JOB_RUNNING st = st
  /\ exists d,
       execute_line (L := Glibc.lib) "sleep 100" true "sleep 100 &" plain_os st
       = Continue
           (emits
              (d ++ [Printf "[%%%d] started in background, PGID=%d\n"
                       [ArgInt (Job.id (jobs st !!! (MAX_JOBS - 1))); ArgInt 1000];
                     Tcsetpgrp 1])
              st)
       /\ Forall (fun e => is_error e = false) d.
Proof.
  intros st.
  assert (Hwf : wf st) by (split; [reflexivity | vm_compute; lia]).
  assert (Hfull : job_count st = MAX_JOBS) by reflexivity.
  assert (Hsplit : split_pipeline "sleep 100" MAX_CMDS = ["sleep 100"]) by reflexivity.
  split; [done|]. split; [done|]. split; [done|].
  destruct (full_table_registration_is_silent (L := Glibc.lib) 4242 "sleep 100 &"
              JOB_RUNNING "sleep 100" "sleep 100 &" "sleep 100" [] plain_os st
              Hwf Hfull Hsplit)
    as (Hadd & d & Hexec & Hquiet & _).
  - intros _. vm_compute. reflexivity.
  - intros k Hk. reflexivity.
  - intros i Hi. simpl. lia.
  - split; [exact Hadd|]. exists d. split; [exact Hexec | exact Hquiet].
Defined.

(** C3 on [pwd] alone and on [ls | cd /tmp] where no program is found. *)
Lemma builtin_runs_in_process_only_when_alone_witness :
  (split_pipeline "pwd" MAX_CMDS = ["pwd"]
   /\ is_builtin (parse_command "pwd") = true
   /\ children (flow_state (execute_line (L := Glibc.lib) "pwd" false "pwd"
                              plain_os initial_shell)) = [])
  /\ (split_pipeline "ls | cd /tmp" MAX_CMDS = ["ls "; "cd /tmp"]
      /\ Command.argv (parse_command "cd /tmp") = ["cd"; "/tmp"]
      /\ redirections_open (parse_command "cd /tmp") plain_os
      /\ exec_ok plain_os "cd" = false
      /\ exists c,
           children (launch (L := Glibc.lib) ["ls "; "cd /tmp"] false "ls | cd /tmp"
                       plain_os initial_shell) !! 1 = Some c
           /\ c_fate c = ChildExit 127).
Proof.
  assert (Hopen : redirections_open (parse_command "cd /tmp") plain_os).
  { split; intros f Hf; reflexivity. }
  assert (Hin : "cd" ∈ builtin_names) by (apply list_elem_of_here).
  destruct (builtin_runs_in_process_only_when_alone (L := Glibc.lib)
              "pwd" "pwd" false plain_os initial_shell) as [Hsolo _].
  destruct (builtin_runs_in_process_only_when_alone (L := Glibc.lib)
              "ls | cd /tmp" "ls | cd /tmp" false plain_os initial_shell) as [_ Hpipe].
  split.
  - split; [reflexivity|]. split; [reflexivity|].
    destruct (Hsolo "pwd" eq_refl eq_refl) as (Hflow & _ & Hch).
    rewrite Hflow. exact Hch.
  - split; [reflexivity|]. split; [reflexivity|]. split; [exact Hopen|].
    split; [reflexivity|].
    destruct (Hpipe "ls " "cd /tmp" [] eq_refl) as (_ & Hstage).
    + intros k Hk. reflexivity.
    + intros i Hi. simpl. lia.
    + destruct (Hstage 1 "cd /tmp" "cd" ["/tmp"] eq_refl eq_refl Hin)
        as (c & Hc & _ & _ & Hnot & _).
      exists c. split; [exact Hc|]. exact (proj1 (Hnot Hopen eq_refl)).
Defined.

(** * Further properties of the program *)

(** ** Looking a job up *)

Lemma find_job_index_from_ext p js js' i n :
  (forall k, i <= k < i + n -> js !!! k = js' !!! k) ->
  find_job_index_from p js i n = find_job_index_from p js' i n.
Proof.
  revert i. induction n as [|n IH]; intros i Hext; simpl; [done|].
  rewrite <- (Hext i) by lia. destruct (p (js !!! i)); [done|].
  apply IH. intros k Hk. apply Hext. lia.
Qed.

Lemma find_job_index_from_snoc p js i n :
  find_job_index_from p js i (S n)
  = match find_job_index_from p js i n with
    | Some k => Some k
    | None => if p (js !!! (i + n)) then Some (i + n) else None
    end.
Proof.
  revert i. induction n as [|n IH]; intros i.
  - simpl. by rewrite Nat.add_0_r.
  - change (find_job_index_from p js i (S (S n)))
      with (if p (js !!! i) then Some i else find_job_index_from p js (S i) (S n)).
    rewrite IH. simpl. destruct (p (js !!! i)); [done|].
    by replace (i + S n) with (S (i + n)) by lia.
Qed.

(** X1.  [find_job_index_by_id] and [find_job_index_by_pgid] return the
    first slot of the table that carries the id, respectively the process
    group, and -1 exactly when no slot of the table carries it; slots
    beyond [job_count] are never looked at. *)
Theorem find_job_index_finds_first (id pg : Z) (st : shell) :
  (forall idx,
      find_job_index_by_id id st = Some idx <->
      idx < job_count st /\ Job.id (jobs st !!! idx) = id
      /\ forall k, k < idx -> Job.id (jobs st !!! k) <> id)
  /\ (find_job_index_by_id id st = None <-> no_such_job id st)
  /\ (forall idx, find_job_index_by_pgid pg st = Some idx <-> job_of_group pg st idx)
  /\ (find_job_index_by_pgid pg st = None <-> untracked pg st).
Proof.
  split; [|split; [|split]].
  - intros idx. unfold find_job_index_by_id.
    rewrite find_job_index_from_Some. simpl.
    split; intros (H1 & H2 & H3).
    + repeat split; [lia | by apply Z.eqb_eq |].
      intros k Hk. apply Z.eqb_neq, H3. lia.
    + repeat split; [lia | lia | by apply Z.eqb_eq |].
      intros m Hm. apply Z.eqb_neq, H3. lia.
  - apply find_job_index_by_id_None.
  - intros idx. apply find_job_index_by_pgid_Some.
  - apply find_job_index_by_pgid_None.
Qed.

(** ** Registering a job *)

Lemma strncpy_length n s : String.length (strncpy n s) = Nat.min n (String.length s).
Proof.
  revert s. induction n as [|n IH]; intros [|c s]; cbn [strncpy String.length]; try done.
  rewrite IH. lia.
Qed.

Lemma strncpy_fits n s : String.length s <= n -> strncpy n s = s.
Proof.
  revert s. induction n as [|n IH]; intros [|c s] Hlen; cbn [strncpy]; try done.
  - simpl in Hlen. lia.
  - rewrite IH; [done|]. simpl in Hlen. lia.
Qed.

Lemma strncpy_prefix n s : String.prefix (strncpy n s) s = true.
Proof.
  revert s. induction n as [|n IH]; intros [|c s]; cbn [strncpy String.prefix]; try done.
  destruct (ascii_dec c c); [apply IH | done].
Qed.

(** X2.  With room in the table, [add_job_entry] puts the new job last,
    with the next id, the given process group and state, and leaves every
    other entry, the history and the trace alone; the id counter moves to
    the next [int].  If no entry had that id, looking the new id up gives
    the new slot, and looking any other id up gives what it gave before. *)
Theorem add_job_entry_registers (pg : Z) (cmdline : string) (s : job_state) (st : shell) :
  wf st ->
  job_count st < MAX_JOBS ->
  no_such_job (next_job_id st) st ->
  let st' := add_job_entry pg cmdline s st in
  table st'
  = table st ++ [ {| Job.id := next_job_id st; Job.pgid := pg;
                     Job.cmdline := strncpy (MAX_INPUT - 1) cmdline;
                     Job.state := s |} ]
  /\ next_job_id st' = wrap_int (next_job_id st + 1)
  /\ history st' = history st
  /\ out st' = out st
  /\ find_job_index_by_id (next_job_id st) st' = Some (job_count st)
  /\ (forall id, id <> next_job_id st ->
        find_job_index_by_id id st' = find_job_index_by_id id st).
Proof.
  intros Hwf Hlt Hno st'.
  destruct (add_job_entry_table pg cmdline s st Hwf Hlt) as (Htab & Hcnt & Hnid & _).
  fold st' in Htab, Hcnt, Hnid.
  assert (Hnew : jobs st' !!! job_count st
                 = {| Job.id := next_job_id st; Job.pgid := pg;
                      Job.cmdline := strncpy (MAX_INPUT - 1) cmdline;
                      Job.state := s |}).
  { unfold st', add_job_entry. rewrite decide_False by lia. cbn [jobs set_jobs set_job_count].
    apply list_lookup_total_insert_eq. destruct Hwf. lia. }
  assert (Hold : forall k, k < job_count st -> jobs st' !!! k = jobs st !!! k).
  { intros k Hk. unfold st', add_job_entry. rewrite decide_False by lia.
    cbn [jobs set_jobs set_job_count]. apply list_lookup_total_insert_ne. lia. }
  assert (Hfind : forall id,
             find_job_index_by_id id st'
             = match find_job_index_by_id id st with
               | Some k => Some k
               | None => if (next_job_id st =? id)%Z then Some (job_count st) else None
               end).
  { intros id. unfold find_job_index_by_id. rewrite Hcnt, find_job_index_from_snoc.
    rewrite (find_job_index_from_ext _ (jobs st') (jobs st) 0 (job_count st))
      by (intros k Hk; apply Hold; lia).
    simpl. by rewrite Hnew. }
  split; [done|]. split; [done|].
  split; [unfold st', add_job_entry; by destruct (decide _)|].
  split; [apply add_job_entry_out|]. split.
  - rewrite Hfind. apply find_job_index_by_id_None in Hno. rewrite Hno.
    by rewrite Z.eqb_refl.
  - intros id Hid. rewrite Hfind.
    destruct (find_job_index_by_id id st); [done|].
    destruct (Z.eqb_spec (next_job_id st) id); [congruence | done].
Qed.

(** X2 on the empty table. *)
Lemma add_job_entry_registers_witness :
  wf initial_shell
  /\ no_such_job 1 initial_shell
  /\ table (add_job_entry 4242 "sleep 100 &" JOB_RUNNING initial_shell)
     = [ {| Job.id := 1; Job.pgid := 4242; Job.cmdline := "sleep 100 &";
            Job.state := JOB_RUNNING |} ]
  /\ find_job_index_by_id 1 (add_job_entry 4242 "sleep 100 &" JOB_RUNNING initial_shell)
     = Some 0.
Proof.
  assert (Hwf : wf initial_shell) by (split; [reflexivity | vm_compute; lia]).
  assert (Hlt : job_count initial_shell < MAX_JOBS) by (vm_compute; lia).
  assert (Hno : no_such_job 1 initial_shell) by (intros k Hk; simpl in Hk; lia).
  destruct (add_job_entry_registers 4242 "sleep 100 &" JOB_RUNNING initial_shell
              Hwf Hlt Hno) as (H1 & _ & _ & _ & H5 & _).
  split; [done|]. split; [done|]. split; [|exact H5].
  rewrite H1. reflexivity.
Defined.

(** X3.  The command text a job is registered with is the text given, cut
    after [MAX_INPUT - 1] characters: it is a prefix of the text given, never
    longer than the buffer allows, and the very text when that fits. *)
Theorem add_job_entry_command_text (pg : Z) (cmdline : string) (s : job_state) (st : shell) :
  wf st ->
  job_count st < MAX_JOBS ->
  let text := Job.cmdline (jobs (add_job_entry pg cmdline s st) !!! job_count st) in
  String.prefix text cmdline = true
  /\ String.length text <= MAX_INPUT - 1
  /\ (String.length cmdline <= MAX_INPUT - 1 -> text = cmdline).
Proof.
  intros [Hl Hc] Hlt text.
  assert (Htext : text = strncpy (MAX_INPUT - 1) cmdline).
  { unfold text, add_job_entry. rewrite decide_False by lia.
    cbn [jobs set_jobs set_job_count].
    by rewrite list_lookup_total_insert_eq by lia. }
  rewrite Htext. split; [apply strncpy_prefix|]. split.
  - rewrite strncpy_length. lia.
  - apply strncpy_fits.
Qed.

(** X3 on the empty table. *)
Lemma add_job_entry_command_text_witness :
  wf initial_shell
  /\ job_count initial_shell < MAX_JOBS
  /\ Job.cmdline (jobs (add_job_entry 7 "ls &" JOB_RUNNING initial_shell) !!! 0) = "ls &".
Proof.
  assert (Hwf : wf initial_shell) by (split; [reflexivity | vm_compute; lia]).
  assert (Hlt : job_count initial_shell < MAX_JOBS) by (vm_compute; lia).
  split; [done|]. split; [done|].
  destruct (add_job_entry_command_text 7 "ls &" JOB_RUNNING initial_shell Hwf Hlt)
    as (_ & _ & H3).
  apply H3. vm_compute. lia.
Defined.

(** ** The job-control builtins on a job of the table *)

Lemma terminal_owner_last (d d' : list effect) (pg : Z) :
  Forall (fun e => match e with Tcsetpgrp _ => False | _ => True end) d' ->
  terminal_owner (d ++ Tcsetpgrp pg :: d') = Some pg.
Proof.
  intros Hd'. unfold terminal_owner. rewrite omap_app.
  cbn [omap list_omap].
  replace (omap (fun e => match e with Tcsetpgrp pg0 => Some pg0 | _ => None end) d')
    with (@nil Z).
  - apply last_snoc.
  - induction Hd' as [|e d' He _ IH]; [done|]. simpl. by destruct e.
Qed.

Lemma set_job_state_traced idx s d st :
  idx < length (jobs st) ->
  state_set_and_traced idx s d st (set_job_state idx s (emits d st)).
Proof.
  intros Hidx. unfold state_set_and_traced, set_job_state. simpl.
  repeat split; auto.
  - apply length_insert.
  - by apply list_lookup_total_insert_eq.
  - intros k Hk. by apply list_lookup_total_insert_ne.
Qed.

Lemma set_job_state_twice idx s s' st :
  idx < length (jobs st) ->
  set_job_state idx s (set_job_state idx s' st) = set_job_state idx s st.
Proof.
  intros Hidx. unfold set_job_state, set_jobs. simpl. f_equal.
  rewrite list_lookup_total_insert_eq by done.
  by rewrite list_insert_insert_eq.
Qed.

Lemma find_job_index_by_id_lt id st idx :
  find_job_index_by_id id st = Some idx -> idx < job_count st.
Proof.
  unfold find_job_index_by_id. rewrite find_job_index_from_Some. lia.
Qed.

Section JobControl.
Context {L : libc}.

Lemma wait_group_spec pg statuses st :
  wait_group pg statuses st
  = (existsb WIFSTOPPED statuses, emits (Waitpid (- pg) <$> until_stop statuses) st).
Proof.
  revert st. induction statuses as [|s statuses IH]; intros st; simpl.
  - by rewrite emits_nil.
  - destruct (WIFSTOPPED s); simpl.
    + by rewrite emit_emits.
    + by rewrite IH, emit_emits, emits_emits.
Qed.

(** X4.  [kill] on a job of the table sends SIGTERM to the whole process
    group of that job and marks that job, and no other, [JOB_DONE] at once,
    whether or not the signal could be sent; a signal that could not be sent
    is reported with [perror] and the builtin still returns 0. *)
Theorem kill_marks_job_done
  (a : string) (rest : list string) (cmd : Command.t) (full_line : string)
  (o : os) (st : shell) (idx : nat) :
  wf st ->
  Command.argv cmd = "kill" :: a :: rest ->
  find_job_index_by_id (atoi a) st = Some idx ->
  exists st',
    run_builtin cmd full_line o st = BReturn 0 st'
    /\ state_set_and_traced idx JOB_DONE
         (Kill (- Job.pgid (jobs st !!! idx)) SIGTERM
            :: (if kill_ok o then [] else [Perror "kill"]))
         st st'.
Proof.
  intros [Hl Hc] Hargv Hfind.
  pose proof (find_job_index_by_id_lt _ _ _ Hfind) as Hidx.
  unfold run_builtin. rewrite Hargv. simpl.
  unfold builtin_kill. simpl. rewrite Hfind.
  eexists. split; [reflexivity|].
  destruct (kill_ok o); rewrite ?emit_emits, ?emits_emits;
    apply set_job_state_traced; lia.
Qed.

(** X5.  [bg] on a job of the table sends SIGCONT to the process group of
    that job, marks that job, and no other, [JOB_RUNNING], and returns 0
    without waiting for anything. *)
Theorem bg_marks_job_running
  (a : string) (rest : list string) (cmd : Command.t) (full_line : string)
  (o : os) (st : shell) (idx : nat) :
  wf st ->
  Command.argv cmd = "bg" :: a :: rest ->
  find_job_index_by_id (atoi a) st = Some idx ->
  exists st',
    run_builtin cmd full_line o st = BReturn 0 st'
    /\ state_set_and_traced idx JOB_RUNNING
         [Kill (- Job.pgid (jobs st !!! idx)) SIGCONT] st st'.
Proof.
  intros [Hl Hc] Hargv Hfind.
  pose proof (find_job_index_by_id_lt _ _ _ Hfind) as Hidx.
  unfold run_builtin. rewrite Hargv. simpl.
  unfold builtin_bg. simpl. rewrite Hfind.
  eexists. split; [reflexivity|].
  rewrite emit_emits. apply set_job_state_traced. lia.
Qed.

(** The state [fg] returns, with the trace in one piece. *)
Lemma builtin_fg_found (a : string) (rest : list string) (o : os) (st : shell) (idx : nat) :
  find_job_index_by_id (atoi a) st = Some idx ->
  let pg := Job.pgid (jobs st !!! idx) in
  let d := [Tcsetpgrp pg; Kill (- pg) SIGCONT]
           ++ (Waitpid (- pg) <$> until_stop (wait_status o))
           ++ [Tcsetpgrp (getpgrp o); Kill (- pg) SIGNULL] in
  builtin_fg ("fg" :: a :: rest) o st
  = BReturn 0
      (let s1 := emits d st in
       let s2 := if existsb WIFSTOPPED (wait_status o)
                 then set_job_state idx JOB_STOPPED s1 else s1 in
       if group_gone o then set_job_state idx JOB_DONE s2 else s2).
Proof.
  intros Hfind pg d. unfold builtin_fg. simpl. rewrite Hfind. fold pg.
  rewrite wait_group_spec. rewrite !emit_emits, !emits_emits.
  cbn zeta. f_equal.
  assert (Hd : forall s0 : shell,
             emits ([Tcsetpgrp (getpgrp o)] ++ [Kill (- pg) SIGNULL])
               (emits (([Tcsetpgrp pg] ++ [Kill (- pg) SIGCONT])
                       ++ (Waitpid (- pg) <$> until_stop (wait_status o))) s0)
             = emits d s0).
  { intros s0. rewrite emits_emits. unfold d. by rewrite <- !app_assoc. }
  destruct (existsb WIFSTOPPED (wait_status o)).
  - change (emits ([Tcsetpgrp (getpgrp o)] ++ [Kill (- pg) SIGNULL])
              (set_job_state idx JOB_STOPPED ?s))
      with (set_job_state idx JOB_STOPPED
              (emits ([Tcsetpgrp (getpgrp o)] ++ [Kill (- pg) SIGNULL]) s)).
    by rewrite Hd.
  - by rewrite Hd.
Qed.

(** X6.  [fg] on a job of the table gives the terminal to the process group
    of the job, continues it, waits until the group stops or there is nothing
    left to wait for, and gives the terminal back to the shell's own group:
    whatever the waits answer, the shell owns the terminal when [fg]
    returns.  The job is [JOB_DONE] if the group is gone, otherwise
    [JOB_STOPPED] if a stop was seen, otherwise in the state it had; nothing
    else in the table changes. *)
Theorem fg_returns_the_terminal
  (a : string) (rest : list string) (cmd : Command.t) (full_line : string)
  (o : os) (st : shell) (idx : nat) :
  wf st ->
  Command.argv cmd = "fg" :: a :: rest ->
  find_job_index_by_id (atoi a) st = Some idx ->
  let pg := Job.pgid (jobs st !!! idx) in
  let d := [Tcsetpgrp pg; Kill (- pg) SIGCONT]
           ++ (Waitpid (- pg) <$> until_stop (wait_status o))
           ++ [Tcsetpgrp (getpgrp o); Kill (- pg) SIGNULL] in
  exists st',
    run_builtin cmd full_line o st = BReturn 0 st'
    /\ terminal_owner (out st') = Some (getpgrp o)
    /\ (if group_gone o then state_set_and_traced idx JOB_DONE d st st'
        else if existsb WIFSTOPPED (wait_status o)
             then state_set_and_traced idx JOB_STOPPED d st st'
             else st' = emits d st).
Proof.
  intros [Hl Hc] Hargv Hfind pg d.
  pose proof (find_job_index_by_id_lt _ _ _ Hfind) as Hidx.
  assert (Hown : terminal_owner (out st ++ d) = Some (getpgrp o)).
  { replace (out st ++ d)
      with ((out st ++ [Tcsetpgrp pg; Kill (- pg) SIGCONT]
             ++ (Waitpid (- pg) <$> until_stop (wait_status o)))
            ++ Tcsetpgrp (getpgrp o) :: [Kill (- pg) SIGNULL])
      by (unfold d; by rewrite <- !app_assoc).
    apply terminal_owner_last. by repeat constructor. }
  assert (Hrun : run_builtin cmd full_line o st = builtin_fg ("fg" :: a :: rest) o st).
  { unfold run_builtin. by rewrite Hargv. }
  rewrite Hrun, (builtin_fg_found a rest o st idx Hfind). fold pg d. cbn zeta.
  eexists. split; [reflexivity|].
  destruct (existsb WIFSTOPPED (wait_status o)), (group_gone o).
  - rewrite set_job_state_twice by (simpl; lia).
    split; [exact Hown|]. apply set_job_state_traced. lia.
  - split; [exact Hown|]. apply set_job_state_traced. lia.
  - split; [exact Hown|]. apply set_job_state_traced. lia.
  - split; [exact Hown | done].
Qed.

End JobControl.

(** X4 to X6 on a table with one running job, of id 1 and group 4242. *)
Lemma kill_marks_job_done_witness :
  let st := add_job_entry 4242 "sleep 100 &" JOB_RUNNING initial_shell in
  let cmd := {| Command.argv := ["kill"; "1"]; Command.infile := None;
                Command.outfile := None; Command.append := false |} in
  wf st
  /\ find_job_index_by_id (atoi (libc := Glibc.lib) "1") st = Some 0
  /\ exists st',
       run_builtin (L := Glibc.lib) cmd "kill 1" plain_os st = BReturn 0 st'
       /\ Job.state (jobs st' !!! 0) = JOB_DONE
       /\ out st' = [Kill (-4242) SIGTERM].
Proof.
  intros st cmd.
  assert (Hwf : wf st) by (split; [reflexivity | vm_compute; lia]).
  split; [done|]. split; [reflexivity|].
  destruct (kill_marks_job_done (L := Glibc.lib) "1" [] cmd "kill 1" plain_os st 0
              Hwf eq_refl eq_refl) as (st' & Hrun & _ & _ & _ & Hout & _ & Hst & _).
  exists st'. split; [exact Hrun|]. split; [by rewrite Hst | exact Hout].
Defined.

Lemma bg_marks_job_running_witness :
  let st := add_job_entry 4242 "sleep 100" JOB_STOPPED initial_shell in
  let cmd := {| Command.argv := ["bg"; "1"]; Command.infile := None;
                Command.outfile := None; Command.append := false |} in
  wf st
  /\ find_job_index_by_id (atoi (libc := Glibc.lib) "1") st = Some 0
  /\ exists st',
       run_builtin (L := Glibc.lib) cmd "bg 1" plain_os st = BReturn 0 st'
       /\ Job.state (jobs st' !!! 0) = JOB_RUNNING
       /\ out st' = [Kill (-4242) SIGCONT].
Proof.
  intros st cmd.
  assert (Hwf : wf st) by (split; [reflexivity | vm_compute; lia]).
  split; [done|]. split; [reflexivity|].
  destruct (bg_marks_job_running (L := Glibc.lib) "1" [] cmd "bg 1" plain_os st 0
              Hwf eq_refl eq_refl) as (st' & Hrun & _ & _ & _ & Hout & _ & Hst & _).
  exists st'. split; [exact Hrun|]. split; [by rewrite Hst | exact Hout].
Defined.

Lemma fg_returns_the_terminal_witness :
  let st := add_job_entry 4242 "sleep 100" JOB_STOPPED initial_shell in
  let cmd := {| Command.argv := ["fg"; "1"]; Command.infile := None;
                Command.outfile := None; Command.append := false |} in
  wf st
  /\ find_job_index_by_id (atoi (libc := Glibc.lib) "1") st = Some 0
  /\ exists st',
       run_builtin (L := Glibc.lib) cmd "fg 1" plain_os st = BReturn 0 st'
       /\ terminal_owner (out st') = Some 1%Z.
Proof.
  intros st cmd.
  assert (Hwf : wf st) by (split; [reflexivity | vm_compute; lia]).
  split; [done|]. split; [reflexivity|].
  destruct (fg_returns_the_terminal (L := Glibc.lib) "1" [] cmd "fg 1" plain_os st 0
              Hwf eq_refl eq_refl) as (st' & Hrun & Hown & _).
  exists st'. split; [exact Hrun | exact Hown].
Defined.

(** ** Killing a job and compacting *)

Lemma filter_alive_insert_dead (l : list Job.t) (i : nat) (x : Job.t) :
  ~ alive x -> i < length l ->
  filter alive (<[i := x]> l) = filter alive (delete i l).
Proof.
  intros Hx. revert i. induction l as [|y l IH]; intros i Hi; simpl in Hi; [lia|].
  destruct i as [|i]; simpl.
  - by rewrite filter_cons_False.
  - rewrite !filter_cons. rewrite IH by lia. done.
Qed.

Lemma table_set_job_state idx s st :
  idx < job_count st -> job_count st <= length (jobs st) ->
  table (set_job_state idx s st)
  = <[idx := Job.with_state s (table st !!! idx)]> (table st).
Proof.
  intros Hidx Hle. unfold table, set_job_state. simpl.
  rewrite take_insert_lt by done. by rewrite lookup_total_take_lt.
Qed.

Lemma elem_of_delete_other_id (l : list Job.t) (i : nat) (x y : Job.t) :
  NoDup (Job.id <$> l) -> l !! i = Some y -> x ∈ delete i l -> Job.id x <> Job.id y.
Proof.
  intros Hnd Hy Hx. rewrite delete_take_drop in Hx.
  rewrite <- (take_drop_middle l i y Hy) in Hnd.
  rewrite fmap_app, fmap_cons in Hnd.
  apply NoDup_app in Hnd as (_ & Hdisj & Hnd).
  apply NoDup_cons in Hnd as [Hnotin _].
  apply elem_of_app in Hx as [Hx|Hx].
  - intros Heq. apply (Hdisj (Job.id x)); [by apply list_elem_of_fmap_2|].
    rewrite Heq. apply list_elem_of_here.
  - intros Heq. apply Hnotin. rewrite <- Heq. by apply list_elem_of_fmap_2.
Qed.

Section KillAndCompact.
Context {L : libc}.

(** X7.  After [kill] on a job of the table and the compaction that ends
    the iteration of the main loop, the table is the former table without
    that job and without the jobs that were done; if ids were unique in the
    table, the id that was killed is no longer there to be found. *)
Theorem kill_then_compaction_removes_job
  (a : string) (rest : list string) (cmd : Command.t) (full_line : string)
  (o : os) (st : shell) (idx : nat) :
  wf st ->
  Command.argv cmd = "kill" :: a :: rest ->
  find_job_index_by_id (atoi a) st = Some idx ->
  exists st',
    run_builtin cmd full_line o st = BReturn 0 st'
    /\ table (remove_done_jobs st') = filter alive (delete idx (table st))
    /\ (NoDup (Job.id <$> table st) -> no_such_job (atoi a) (remove_done_jobs st')).
Proof.
  intros [Hl Hc] Hargv Hfind.
  pose proof (find_job_index_by_id_lt _ _ _ Hfind) as Hidx.
  assert (Hid : Job.id (jobs st !!! idx) = atoi a).
  { unfold find_job_index_by_id in Hfind.
    apply find_job_index_from_Some in Hfind as (_ & Hp & _).
    by apply Z.eqb_eq in Hp. }
  set (d := Kill (- Job.pgid (jobs st !!! idx)) SIGTERM
              :: (if kill_ok o then [] else [Perror "kill"])).
  exists (set_job_state idx JOB_DONE (emits d st)).
  assert (Hrun : run_builtin cmd full_line o st
                 = BReturn 0 (set_job_state idx JOB_DONE (emits d st))).
  { unfold run_builtin. rewrite Hargv. simpl. unfold builtin_kill. simpl.
    rewrite Hfind. unfold d.
    destruct (kill_ok o); by rewrite ?emit_emits, ?emits_emits. }
  assert (Htab : table (remove_done_jobs (set_job_state idx JOB_DONE (emits d st)))
                 = filter alive (delete idx (table st))).
  { destruct (remove_done_jobs_table (set_job_state idx JOB_DONE (emits d st)))
      as (Ht & _ & _).
    { simpl. rewrite length_insert. lia. }
    rewrite Ht.
    change (table (set_job_state idx JOB_DONE (emits d st)))
      with (table (set_job_state idx JOB_DONE st)).
    rewrite table_set_job_state by lia.
    apply filter_alive_insert_dead; [by intros H|].
    unfold table. rewrite length_take. lia. }
  split; [done|]. split; [done|].
  intros Hnd k Hk.
  set (st2 := remove_done_jobs (set_job_state idx JOB_DONE (emits d st))) in *.
  assert (Hwf2 : wf st2).
  { apply remove_done_jobs_wf. split; simpl; [by rewrite length_insert | done]. }
  assert (Hin : jobs st2 !!! k ∈ table st2).
  { apply (list_elem_of_lookup_2 _ k). unfold table.
    rewrite lookup_take_lt by done.
    apply list_lookup_lookup_total_lt. destruct Hwf2. lia. }
  rewrite Htab in Hin. apply list_elem_of_filter in Hin as [_ Hin].
  rewrite <- Hid.
  assert (Hy : table st !! idx = Some (jobs st !!! idx)).
  { unfold table. rewrite lookup_take_lt by done.
    apply list_lookup_lookup_total_lt. lia. }
  exact (elem_of_delete_other_id _ _ _ _ Hnd Hy Hin).
Qed.

End KillAndCompact.

(** X7 on a table with jobs 1 and 2, killing job 1. *)
Lemma kill_then_compaction_removes_job_witness :
  let st := add_job_entry 200 "b &" JOB_RUNNING
              (add_job_entry 100 "a &" JOB_RUNNING initial_shell) in
  let cmd := {| Command.argv := ["kill"; "1"]; Command.infile := None;
                Command.outfile := None; Command.append := false |} in
  wf st
  /\ find_job_index_by_id (atoi (libc := Glibc.lib) "1") st = Some 0
  /\ exists st',
       run_builtin (L := Glibc.lib) cmd "kill 1" plain_os st = BReturn 0 st'
       /\ Job.id <$> table (remove_done_jobs st') = [2%Z].
Proof.
  intros st cmd.
  assert (Hwf : wf st) by (split; [reflexivity | vm_compute; lia]).
  split; [done|]. split; [reflexivity|].
  destruct (kill_then_compaction_removes_job (L := Glibc.lib) "1" [] cmd "kill 1"
              plain_os st 0 Hwf eq_refl eq_refl) as (st' & Hrun & Htab & _).
  exists st'. split; [exact Hrun|]. rewrite Htab. reflexivity.
Defined.

(** ** The processes of a pipeline *)

Lemma fork_stages_group o nseg background segs :
  forall i pgid st,
    pgid <> 0%Z ->
    (forall k, i <= k < i + length segs -> (0 < fork_ret o k)%Z) ->
    fork_stages segs i nseg background pgid o st
    = (true, pgid,
       emits (imap (fun k seg =>
                      child_main (parse_command (strncpy (MAX_INPUT - 1) seg)) (i + k)
                        nseg background (fork_ret o (i + k)) pgid o) segs
              ≫= fork_record) st).
Proof.
  induction segs as [|seg rest IH]; intros i pgid st Hpg Hok.
  - simpl. by rewrite emits_nil.
  - cbn [fork_stages].
    assert (Hi : (0 < fork_ret o i)%Z) by (apply Hok; simpl; lia).
    destruct (fork_ret o i =? -1)%Z eqn:Hf; [apply Z.eqb_eq in Hf; lia|].
    destruct (pgid =? 0)%Z eqn:Hz; [apply Z.eqb_eq in Hz; done|].
    rewrite IH; [|done|intros k Hk; apply Hok; simpl; lia].
    rewrite imap_cons. rewrite !emit_emits, !emits_emits.
    match goal with |- (_, _, emits ?A _) = (_, _, emits ?B _) =>
      cut (A = B); [intros ->; reflexivity|] end.
    change ((?c :: ?cs) ≫= fork_record) with (fork_record c ++ (cs ≫= fork_record)).
    rewrite Nat.add_0_r. unfold fork_record at 2.
    rewrite child_main_pid, child_main_pgid, Hz.
    cbn [app].
    apply (f_equal (fun l => _ :: _ :: (l ≫= fork_record))).
    apply imap_ext. intros k seg' _. cbn [compose].
    by replace (i + S k) with (S i + k) by lia.
Qed.

Lemma fork_stages_pipeline o background segs st :
  segs <> [] ->
  (forall k, k < length segs -> (0 < fork_ret o k)%Z) ->
  fork_stages segs 0 (length segs) background 0 o st
  = (true, fork_ret o 0,
     emits (pipeline_children segs background o ≫= fork_record) st).
Proof.
  intros Hne Hok. destruct segs as [|seg rest]; [done|].
  set (n := length (seg :: rest)).
  cbn [fork_stages].
  assert (H0 : (0 < fork_ret o 0)%Z) by (apply Hok; simpl; lia).
  destruct (fork_ret o 0 =? -1)%Z eqn:Hf; [apply Z.eqb_eq in Hf; lia|].
  change (0 =? 0)%Z with true. cbn iota.
  rewrite fork_stages_group; [|lia|intros k Hk; apply Hok; simpl; lia].
  unfold pipeline_children. fold n. rewrite imap_cons.
  rewrite !emit_emits, !emits_emits.
  match goal with |- (_, _, emits ?A _) = (_, _, emits ?B _) =>
    cut (A = B); [intros ->; reflexivity|] end.
  change ((?c :: ?cs) ≫= fork_record) with (fork_record c ++ (cs ≫= fork_record)).
  unfold fork_record at 2. rewrite child_main_pid, child_main_pgid.
  rewrite decide_True by done.
  change (0 =? 0)%Z with true. cbn iota.
  cbn [app].
  apply (f_equal (fun l => _ :: _ :: (l ≫= fork_record))).
  apply imap_ext. intros k seg' _. cbn [compose].
  by rewrite decide_False by lia.
Qed.

Lemma pipeline_children_lookup segs background o k seg :
  segs !! k = Some seg ->
  pipeline_children segs background o !! k
  = Some (child_main (parse_command (strncpy (MAX_INPUT - 1) seg)) k (length segs)
            background (fork_ret o k)
            (if decide (k = 0) then 0%Z else fork_ret o 0) o).
Proof.
  intros Hk. unfold pipeline_children. by rewrite list_lookup_imap, Hk.
Qed.

Section PipelineProcesses.
Context {L : libc}.

Lemma launch_created segs background full_cmd o st :
  segs <> [] ->
  (forall k, k < length segs - 1 -> pipe_ok o k = true) ->
  (forall i, i < length segs -> (0 < fork_ret o i)%Z) ->
  launch segs background full_cmd o st
  = after_forks (length segs) background (fork_ret o 0) full_cmd o
      (emits ((Pipe <$> seq 0 (length segs - 1))
              ++ (pipeline_children segs background o ≫= fork_record)) st).
Proof.
  intros Hne Hpipes Hforks. unfold launch.
  rewrite make_pipes_ok by (intros; apply Hpipes; lia).
  rewrite fork_stages_pipeline by done.
  by rewrite emits_emits.
Qed.

(** X8.  A pipeline of N stages whose pipes and forks succeed gets N
    children, one per stage and in stage order, all put into one process
    group, that of the first child's pid; its N-1 pipes are all made before
    the first fork and all closed by the shell after the last. *)
Theorem pipeline_has_one_child_per_stage
  (segs : list string) (background : bool) (full_cmd : string) (o : os) (st : shell) :
  segs <> [] ->
  (forall k, k < length segs - 1 -> pipe_ok o k = true) ->
  (forall i, i < length segs -> (0 < fork_ret o i)%Z) ->
  let st' := launch segs background full_cmd o st in
  exists cs rest,
    children st' = children st ++ cs
    /\ length cs = length segs
    /\ (forall k c, cs !! k = Some c ->
          c_stage c = k /\ c_pid c = fork_ret o k /\ c_pgid c = fork_ret o 0)
    /\ out st' = out st ++ (Pipe <$> seq 0 (length segs - 1))
                  ++ (cs ≫= fork_record)
                  ++ (ClosePipe <$> seq 0 (length segs - 1)) ++ rest
    /\ Forall (fun e => is_process_creation e = false) rest.
Proof.
  intros Hne Hpipes Hforks st'.
  assert (Hst' : st' = after_forks (length segs) background (fork_ret o 0) full_cmd o
                         (emits ((Pipe <$> seq 0 (length segs - 1))
                                 ++ (pipeline_children segs background o ≫= fork_record)) st))
    by (by apply launch_created).
  exists (pipeline_children segs background o).
  assert (Hch : children st' = children st ++ pipeline_children segs background o).
  { rewrite Hst', after_forks_children, children_emits.
    by rewrite omap_app, children_pipes, children_fork_records. }
  assert (Hlen : length (pipeline_children segs background o) = length segs)
    by apply length_imap.
  assert (Hcs : forall k c, pipeline_children segs background o !! k = Some c ->
                  c_stage c = k /\ c_pid c = fork_ret o k /\ c_pgid c = fork_ret o 0).
  { intros k c Hc.
    assert (Hk : k < length segs) by (rewrite <- Hlen; by eapply lookup_lt_Some).
    destruct (lookup_lt_is_Some_2 segs k Hk) as [seg Hseg].
    rewrite (pipeline_children_lookup _ _ _ _ _ Hseg) in Hc. injection Hc as <-.
    rewrite child_main_stage, child_main_pid, child_main_pgid.
    repeat split. destruct (decide (k = 0)) as [->|Hk0]; [done|].
    pose proof (Hforks 0 ltac:(lia)).
    destruct (fork_ret o 0 =? 0)%Z eqn:E; [apply Z.eqb_eq in E; lia | done]. }
  assert (Hout : exists rest,
             out st' = out st ++ (Pipe <$> seq 0 (length segs - 1))
                         ++ (pipeline_children segs background o ≫= fork_record)
                         ++ (ClosePipe <$> seq 0 (length segs - 1)) ++ rest
             /\ Forall (fun e => is_process_creation e = false) rest).
  { rewrite Hst'. unfold after_forks. rewrite close_pipes_emits, emits_emits.
    set (s1 := emits _ st).
    assert (Hs1 : out s1 = out st ++ (Pipe <$> seq 0 (length segs - 1))
                   ++ (pipeline_children segs background o ≫= fork_record)
                   ++ (ClosePipe <$> seq 0 (length segs - 1))).
    { unfold s1. cbn [out emits]. by rewrite <- !app_assoc. }
    assert (Hw : Forall (fun e => is_process_creation e = false)
                   (Waitpid (- fork_ret o 0) <$> until_stop (wait_status o))).
    { apply list.Forall_forall. intros e He.
      by apply list_elem_of_fmap in He as (x & -> & _). }
    destruct background.
    - eexists. split.
      + cbn [out emit]. rewrite add_job_entry_out, Hs1, <- !app_assoc. reflexivity.
      + by repeat constructor.
    - rewrite wait_group_spec.
      destruct (existsb WIFSTOPPED (wait_status o)).
      + eexists. split.
        * cbn [out emit].
          assert (Hm : forall s0 : shell,
                     out (match find_job_index_by_pgid (fork_ret o 0) s0 with
                          | Some idx => set_job_state idx JOB_STOPPED s0
                          | None => add_job_entry (fork_ret o 0) full_cmd JOB_STOPPED s0
                          end) = out s0).
          { intros s0. destruct (find_job_index_by_pgid _ s0); [done|].
            apply add_job_entry_out. }
          rewrite Hm. cbn [out emits emit]. rewrite Hs1, <- !app_assoc. reflexivity.
        * apply Forall_app. split; [by repeat constructor|].
          apply Forall_app. split; [exact Hw | by repeat constructor].
      + eexists. split.
        * cbn [out emits emit]. rewrite Hs1, <- !app_assoc. reflexivity.
        * apply Forall_app. split; [by repeat constructor|].
          apply Forall_app. split; [exact Hw | by repeat constructor]. }
  destruct Hout as (rest & Hout & Hrest).
  exists rest. done.
Qed.

End PipelineProcesses.

(** X8 on [ls | wc] in the background. *)
Lemma pipeline_has_one_child_per_stage_witness :
  exists c0 c1,
    children (launch (L := Glibc.lib) ["ls "; "wc"] true "ls | wc &" plain_os initial_shell)
    = [c0; c1]
    /\ c_pgid c0 = 1000%Z /\ c_pgid c1 = 1000%Z
    /\ c_pid c0 = 1000%Z /\ c_pid c1 = 1001%Z.
Proof.
  destruct (pipeline_has_one_child_per_stage (L := Glibc.lib) ["ls "; "wc"] true
              "ls | wc &" plain_os initial_shell)
    as (cs & rest & Hch & Hlen & Hcs & _).
  - done.
  - intros k Hk. reflexivity.
  - intros i Hi. simpl. lia.
  - destruct cs as [|c0 [|c1 [|c2 cs]]]; try discriminate Hlen.
    exists c0, c1. split; [exact Hch|].
    destruct (Hcs 0 c0 eq_refl) as (_ & Hp0 & Hg0).
    destruct (Hcs 1 c1 eq_refl) as (_ & Hp1 & Hg1).
    repeat split; assumption.
Defined.

(** ** How a launch ends *)

Lemma creation_trace_quiet segs background o :
  Forall (fun e => is_kill_or_wait e = false /\ is_error e = false
                   /\ match e with Tcsetpgrp _ => False | _ => True end)
    (creation_trace segs background o).
Proof.
  unfold creation_trace. repeat apply Forall_app_2.
  - apply list.Forall_forall. intros e He.
    by apply list_elem_of_fmap in He as (k & -> & _).
  - induction (pipeline_children segs background o) as [|c cs IH]; [constructor|].
    change ((c :: cs) ≫= fork_record) with (fork_record c ++ (cs ≫= fork_record)).
    apply Forall_app_2; [by repeat constructor | done].
  - apply list.Forall_forall. intros e He.
    by apply list_elem_of_fmap in He as (k & -> & _).
Qed.

Lemma make_pipes_fails_at o n :
  forall k m st,
    m < n ->
    (forall j, j < m -> pipe_ok o (k + j) = true) ->
    pipe_ok o (k + m) = false ->
    make_pipes n k o st = (false, emits ((Pipe <$> seq k m) ++ [Perror "pipe"]) st).
Proof.
  induction n as [|n IH]; intros k m st Hm Hok Hfail; [lia|].
  cbn [make_pipes]. destruct m as [|m].
  - rewrite Nat.add_0_r in Hfail. rewrite Hfail. by rewrite emit_emits.
  - rewrite <- (Nat.add_0_r k) at 1. rewrite Hok by lia.
    rewrite (IH (S k) m); [|lia| |].
    + by rewrite emit_emits, emits_emits.
    + intros j Hj. replace (S k + j) with (k + S j) by lia. apply Hok. lia.
    + by replace (S k + m) with (k + S m) by lia.
Qed.

Lemma add_job_entry_emits pg cmdline s d st :
  add_job_entry pg cmdline s (emits d st) = emits d (add_job_entry pg cmdline s st).
Proof. unfold add_job_entry. simpl. by destruct (decide _). Qed.

Section LaunchEnds.
Context {L : libc}.

Lemma until_stop_all statuses :
  existsb WIFSTOPPED statuses = false -> until_stop statuses = statuses.
Proof.
  induction statuses as [|s statuses IH]; simpl; [done|].
  destruct (WIFSTOPPED s); [discriminate|]. intros H. by rewrite IH.
Qed.

(** X9.  A background launch with room in the table registers one job,
    last in the table, running, with the next id, the process group of the
    pipeline and the command text given; it prints that id and that group,
    hands the terminal to the shell's own group and returns without a single
    wait. *)
Theorem background_launch_registers_job
  (segs : list string) (full_cmd : string) (o : os) (st : shell) :
  wf st ->
  job_count st < MAX_JOBS ->
  segs <> [] ->
  (forall k, k < length segs - 1 -> pipe_ok o k = true) ->
  (forall i, i < length segs -> (0 < fork_ret o i)%Z) ->
  let st' := launch segs true full_cmd o st in
  table st'
  = table st ++ [ {| Job.id := next_job_id st; Job.pgid := fork_ret o 0;
                     Job.cmdline := strncpy (MAX_INPUT - 1) full_cmd;
                     Job.state := JOB_RUNNING |} ]
  /\ out st'
     = out st ++ creation_trace segs true o
       ++ [Printf "[%%%d] started in background, PGID=%d\n"
             [ArgInt (next_job_id st); ArgInt (fork_ret o 0)];
           Tcsetpgrp (getpgrp o)]
  /\ Forall (fun e => is_kill_or_wait e = false) (drop (length (out st)) (out st')).
Proof.
  intros Hwf Hlt Hne Hpipes Hforks st'.
  assert (Hst' : st' = after_forks (length segs) true (fork_ret o 0) full_cmd o
                         (emits ((Pipe <$> seq 0 (length segs - 1))
                                 ++ (pipeline_children segs true o ≫= fork_record)) st))
    by (by apply launch_created).
  unfold after_forks in Hst'.
  rewrite close_pipes_emits, emits_emits in Hst'.
  rewrite <- app_assoc in Hst'. fold (creation_trace segs true o) in Hst'.
  rewrite add_job_entry_emits in Hst'.
  destruct (add_job_entry_table (fork_ret o 0) full_cmd JOB_RUNNING st Hwf Hlt)
    as (Htab & Hcnt & _ & _).
  assert (Hid : Job.id (jobs (add_job_entry (fork_ret o 0) full_cmd JOB_RUNNING st)
                        !!! job_count st) = next_job_id st).
  { unfold add_job_entry. rewrite decide_False by lia. cbn [jobs set_jobs set_job_count].
    rewrite list_lookup_total_insert_eq by (destruct Hwf; lia). done. }
  cbn [jobs job_count emits] in Hst'. rewrite Hcnt in Hst'.
  replace (S (job_count st) - 1) with (job_count st) in Hst' by lia.
  rewrite Hid in Hst'.
  assert (Hout : out st' = out st ++ creation_trace segs true o
                   ++ [Printf "[%%%d] started in background, PGID=%d\n"
                         [ArgInt (next_job_id st); ArgInt (fork_ret o 0)];
                       Tcsetpgrp (getpgrp o)]).
  { rewrite Hst'. cbn [out emit emits]. rewrite add_job_entry_out.
    by rewrite <- !app_assoc. }
  split; [|split; [exact Hout|]].
  - rewrite Hst'. exact Htab.
  - rewrite Hout, drop_app_length. apply Forall_app_2.
    + eapply Forall_impl; [apply creation_trace_quiet|]. simpl. tauto.
    + by repeat constructor.
Qed.

(** X10.  A foreground launch during which no process of the pipeline is
    seen to stop gives the terminal to the pipeline, waits for every status
    the group delivers and gives the terminal back to the shell: the Job
    Table, the id counter and the history are as they were, and nothing is
    printed or reported. *)
Theorem foreground_launch_leaves_no_job
  (segs : list string) (full_cmd : string) (o : os) (st : shell) :
  segs <> [] ->
  (forall k, k < length segs - 1 -> pipe_ok o k = true) ->
  (forall i, i < length segs -> (0 < fork_ret o i)%Z) ->
  existsb WIFSTOPPED (wait_status o) = false ->
  let st' := launch segs false full_cmd o st in
  st' = emits (creation_trace segs false o
               ++ [Tcsetpgrp (fork_ret o 0)]
               ++ (Waitpid (- fork_ret o 0) <$> wait_status o)
               ++ [Tcsetpgrp (getpgrp o)]) st
  /\ terminal_owner (out st') = Some (getpgrp o).
Proof.
  intros Hne Hpipes Hforks Hstop st'.
  assert (Hst' : st' = emits (creation_trace segs false o
                              ++ [Tcsetpgrp (fork_ret o 0)]
                              ++ (Waitpid (- fork_ret o 0) <$> wait_status o)
                              ++ [Tcsetpgrp (getpgrp o)]) st).
  { unfold st'. rewrite launch_created by done. unfold after_forks.
    rewrite close_pipes_emits, emits_emits, wait_group_spec, Hstop.
    rewrite until_stop_all by done.
    rewrite !emit_emits, !emits_emits. unfold creation_trace.
    by rewrite <- !app_assoc. }
  split; [exact Hst'|].
  rewrite Hst'. cbn [out emits].
  replace (out st ++ creation_trace segs false o ++ [Tcsetpgrp (fork_ret o 0)]
           ++ (Waitpid (- fork_ret o 0) <$> wait_status o) ++ [Tcsetpgrp (getpgrp o)])
    with ((out st ++ creation_trace segs false o ++ [Tcsetpgrp (fork_ret o 0)]
           ++ (Waitpid (- fork_ret o 0) <$> wait_status o))
          ++ Tcsetpgrp (getpgrp o) :: [])
    by (by rewrite <- !app_assoc).
  by apply terminal_owner_last.
Qed.

(** X11.  A foreground launch during which a process of the pipeline is
    seen to stop ends its waiting there, says so, and gives the terminal
    back to the shell.  If no job has the process group of the pipeline and
    the table has room, one job is added last, stopped, with the next id,
    that group and the command text given; if a job has that group, that
    job, and nothing else, is marked stopped. *)
Theorem foreground_stop_is_recorded
  (segs : list string) (full_cmd : string) (o : os) (st : shell) :
  wf st ->
  segs <> [] ->
  (forall k, k < length segs - 1 -> pipe_ok o k = true) ->
  (forall i, i < length segs -> (0 < fork_ret o i)%Z) ->
  existsb WIFSTOPPED (wait_status o) = true ->
  let pg := fork_ret o 0 in
  let st' := launch segs false full_cmd o st in
  let d := creation_trace segs false o
           ++ [Tcsetpgrp pg]
           ++ (Waitpid (- pg) <$> until_stop (wait_status o))
           ++ [Printf "\n[stopped] %s\n" [ArgStr full_cmd]; Tcsetpgrp (getpgrp o)] in
  out st' = out st ++ d
  /\ terminal_owner (out st') = Some (getpgrp o)
  /\ (untracked pg st -> job_count st < MAX_JOBS ->
      table st'
      = table st ++ [ {| Job.id := next_job_id st; Job.pgid := pg;
                         Job.cmdline := strncpy (MAX_INPUT - 1) full_cmd;
                         Job.state := JOB_STOPPED |} ])
  /\ (forall idx, job_of_group pg st idx -> state_set_and_traced idx JOB_STOPPED d st st').
Proof.
  intros Hwf Hne Hpipes Hforks Hstop pg st' d.
  set (d0 := creation_trace segs false o ++ [Tcsetpgrp pg]
             ++ (Waitpid (- pg) <$> until_stop (wait_status o))).
  assert (Hst' : st' = emit (Tcsetpgrp (getpgrp o))
                         (emit (Printf "\n[stopped] %s\n" [ArgStr full_cmd])
                            match find_job_index_by_pgid pg st with
                            | Some idx => set_job_state idx JOB_STOPPED (emits d0 st)
                            | None => add_job_entry pg full_cmd JOB_STOPPED (emits d0 st)
                            end)).
  { unfold st'. rewrite launch_created by done. unfold after_forks.
    rewrite close_pipes_emits, emits_emits, wait_group_spec, Hstop.
    rewrite !emit_emits, !emits_emits.
    replace (((Pipe <$> seq 0 (length segs - 1))
              ++ pipeline_children segs false o ≫= fork_record)
             ++ (ClosePipe <$> seq 0 (length segs - 1)))
      with (creation_trace segs false o)
      by (unfold creation_trace; by rewrite <- !app_assoc).
    replace ((creation_trace segs false o ++ [Tcsetpgrp (fork_ret o 0)])
             ++ (Waitpid (- fork_ret o 0) <$> until_stop (wait_status o)))
      with d0 by (unfold d0, pg; by rewrite <- !app_assoc).
    reflexivity. }
  assert (Hd : d = d0 ++ [Printf "\n[stopped] %s\n" [ArgStr full_cmd];
                          Tcsetpgrp (getpgrp o)]).
  { unfold d, d0. by rewrite <- !app_assoc. }
  assert (Hout : out st' = out st ++ d).
  { rewrite Hst', Hd. cbn [out emit].
    destruct (find_job_index_by_pgid pg st); cbn [out set_job_state set_jobs emits];
      rewrite ?add_job_entry_out; cbn [out emits]; by rewrite <- !app_assoc. }
  split; [exact Hout|]. split; [|split].
  - rewrite Hout, Hd.
    replace (out st ++ d0 ++ [Printf "\n[stopped] %s\n" [ArgStr full_cmd];
                              Tcsetpgrp (getpgrp o)])
      with ((out st ++ d0 ++ [Printf "\n[stopped] %s\n" [ArgStr full_cmd]])
            ++ Tcsetpgrp (getpgrp o) :: [])
      by (by rewrite <- !app_assoc).
    by apply terminal_owner_last.
  - intros Hun Hlt. apply find_job_index_by_pgid_None in Hun.
    rewrite Hst', Hun.
    rewrite add_job_entry_emits.
    by destruct (add_job_entry_table pg full_cmd JOB_STOPPED st Hwf Hlt) as (Htab & _).
  - intros idx Hjob.
    assert (Hidx : idx < length (jobs st)).
    { destruct Hwf as [Hl Hc], Hjob as [Hi _]. lia. }
    apply find_job_index_by_pgid_Some in Hjob.
    rewrite Hst', Hjob, Hd.
    rewrite !emit_emits.
    change (emits [Tcsetpgrp (getpgrp o)]
              (emits [Printf "\n[stopped] %s\n" [ArgStr full_cmd]]
                 (set_job_state idx JOB_STOPPED (emits d0 st))))
      with (set_job_state idx JOB_STOPPED
              (emits [Tcsetpgrp (getpgrp o)]
                 (emits [Printf "\n[stopped] %s\n" [ArgStr full_cmd]] (emits d0 st)))).
    rewrite !emits_emits.
    replace ((d0 ++ [Printf "\n[stopped] %s\n" [ArgStr full_cmd]])
             ++ [Tcsetpgrp (getpgrp o)])
      with (d0 ++ [Printf "\n[stopped] %s\n" [ArgStr full_cmd]; Tcsetpgrp (getpgrp o)])
      by (by rewrite <- app_assoc).
    by apply set_job_state_traced.
Qed.

(** X12.  When the creation of a pipe fails, the launch is given up with
    that one report: no process is forked, and the Job Table, the id counter
    and the terminal are not touched.  The pipes made before the failure are
    left as they are. *)
Theorem pipe_failure_creates_no_process
  (segs : list string) (background : bool) (full_cmd : string) (o : os)
  (st : shell) (m : nat) :
  m < length segs - 1 ->
  (forall j, j < m -> pipe_ok o j = true) ->
  pipe_ok o m = false ->
  launch segs background full_cmd o st
  = emits ((Pipe <$> seq 0 m) ++ [Perror "pipe"]) st
  /\ children (launch segs background full_cmd o st) = children st.
Proof.
  intros Hm Hok Hfail.
  assert (Hl : launch segs background full_cmd o st
               = emits ((Pipe <$> seq 0 m) ++ [Perror "pipe"]) st).
  { unfold launch. by rewrite (make_pipes_fails_at o (length segs - 1) 0 m st). }
  split; [exact Hl|]. rewrite Hl, children_emits, omap_app, children_pipes.
  simpl. by rewrite app_nil_r.
Qed.

End LaunchEnds.

(** X9 on [sleep 5] with the empty table. *)
Lemma background_launch_registers_job_witness :
  wf initial_shell
  /\ job_count initial_shell < MAX_JOBS
  /\ table (launch (L := Glibc.lib) ["sleep 5"] true "sleep 5 &" plain_os initial_shell)
     = [ {| Job.id := 1; Job.pgid := 1000; Job.cmdline := "sleep 5 &";
            Job.state := JOB_RUNNING |} ].
Proof.
  assert (Hwf : wf initial_shell) by (split; [reflexivity | vm_compute; lia]).
  assert (Hlt : job_count initial_shell < MAX_JOBS) by (vm_compute; lia).
  split; [done|]. split; [done|].
  destruct (background_launch_registers_job (L := Glibc.lib) ["sleep 5"] "sleep 5 &"
              plain_os initial_shell Hwf Hlt) as (Htab & _).
  - done.
  - intros k Hk. reflexivity.
  - intros i Hi. simpl. lia.
  - rewrite Htab. reflexivity.
Defined.

(** X10 on [ls | wc] whose processes all exit. *)
Lemma foreground_launch_leaves_no_job_witness :
  existsb (WIFSTOPPED (libc := Glibc.lib)) (wait_status plain_os) = false
  /\ table (launch (L := Glibc.lib) ["ls "; "wc"] false "ls | wc" plain_os initial_shell) = []
  /\ terminal_owner
       (out (launch (L := Glibc.lib) ["ls "; "wc"] false "ls | wc" plain_os initial_shell))
     = Some 1%Z.
Proof.
  split; [reflexivity|].
  destruct (foreground_launch_leaves_no_job (L := Glibc.lib) ["ls "; "wc"] "ls | wc"
              plain_os initial_shell) as (Hst & Hown).
  - done.
  - intros k Hk. reflexivity.
  - intros i Hi. simpl. lia.
  - reflexivity.
  - split; [|exact Hown]. rewrite Hst. reflexivity.
Defined.

(** X11 on [vi notes] stopped from the keyboard. *)
Lemma foreground_stop_is_recorded_witness :
  wf initial_shell
  /\ existsb (WIFSTOPPED (libc := Glibc.lib)) (wait_status stopping_os) = true
  /\ untracked 1000 initial_shell
  /\ table (launch (L := Glibc.lib) ["vi notes"] false "vi notes" stopping_os initial_shell)
     = [ {| Job.id := 1; Job.pgid := 1000; Job.cmdline := "vi notes";
            Job.state := JOB_STOPPED |} ]
  /\ terminal_owner
       (out (launch (L := Glibc.lib) ["vi notes"] false "vi notes" stopping_os initial_shell))
     = Some 1%Z.
Proof.
  assert (Hwf : wf initial_shell) by (split; [reflexivity | vm_compute; lia]).
  assert (Hun : untracked 1000 initial_shell) by (intros k Hk; simpl in Hk; lia).
  split; [done|]. split; [reflexivity|]. split; [done|].
  destruct (foreground_stop_is_recorded (L := Glibc.lib) ["vi notes"] "vi notes"
              stopping_os initial_shell Hwf) as (_ & Hown & Hnew & _).
  - done.
  - intros k Hk. reflexivity.
  - intros i Hi. simpl. lia.
  - reflexivity.
  - split; [|exact Hown]. rewrite (Hnew Hun); [reflexivity | vm_compute; lia].
Defined.

(** X12 on [a | b | c] whose second pipe cannot be made. *)
Lemma pipe_failure_creates_no_process_witness :
  pipe_ok second_pipe_fails 1 = false
  /\ out (launch (L := Glibc.lib) ["a "; "b "; "c"] false "a | b | c"
            second_pipe_fails initial_shell)
     = [Pipe 0; Perror "pipe"]
  /\ children (launch (L := Glibc.lib) ["a "; "b "; "c"] false "a | b | c"
                 second_pipe_fails initial_shell) = [].
Proof.
  split; [reflexivity|].
  destruct (pipe_failure_creates_no_process (L := Glibc.lib) ["a "; "b "; "c"] false
              "a | b | c" second_pipe_fails initial_shell 1) as (Hl & Hch).
  - simpl. lia.
  - intros j Hj. assert (j = 0) as -> by lia. reflexivity.
  - reflexivity.
  - split; [|exact Hch]. rewrite Hl. reflexivity.
Defined.

(** ** What a child does before the program *)

Lemma setup_redirections_none cmd o i0 o0 :
  (setup_redirections cmd o i0 o0).2 = None <-> redirections_open cmd o.
Proof.
  split; [|apply setup_redirections_open].
  unfold setup_redirections, redirections_open.
  destruct (Command.infile cmd) as [f|]; [destruct (open_ok o f) eqn:Hf|];
    (destruct (Command.outfile cmd) as [g|]; [destruct (open_ok o g) eqn:Hg|]);
    cbn [snd]; intros H; try discriminate H;
    split; intros x Hx; congruence.
Qed.

(** X13.  A child leaves with status 1 exactly when a file of its
    redirections cannot be opened, and then whatever its command; it turns
    into a program only with every redirection opened, and that program is
    the first word of its own command, found by [execvp], with the whole
    argument list. *)
Theorem redirection_failure_prevents_exec
  (cmd : Command.t) (i nseg : nat) (background : bool) (pid pgid : Z) (o : os) :
  let c := child_main cmd i nseg background pid pgid o in
  (c_fate c = ChildExit 1 <-> ~ redirections_open cmd o)
  /\ (forall file args,
        c_fate c = ChildExec file args ->
        redirections_open cmd o
        /\ Command.argv cmd = args
        /\ head args = Some file
        /\ exec_ok o file = true).
Proof.
  unfold child_main.
  pose proof (setup_redirections_none cmd o
                (if decide (0 < i) then PipeRead (i - 1) else Inherited)
                (if decide (i < nseg - 1) then PipeWrite i else Inherited)) as Hnone.
  destruct (setup_redirections _ _ _ _) as [[i1 o1] [msg|]]; cbn [snd] in Hnone.
  - cbn [c_fate]. split.
    + split; [|done]. intros _ Hopen. apply Hnone in Hopen. discriminate.
    + intros file args H. discriminate.
  - assert (Hopen : redirections_open cmd o) by (by apply Hnone).
    destruct (Command.argv cmd) as [|file0 args0] eqn:Hargv.
    + cbn [c_fate]. split.
      * split; [discriminate | done].
      * intros file args H. discriminate.
    + destruct (exec_ok o file0) eqn:Hx; cbn [c_fate]; split.
      * split; [discriminate | done].
      * intros file args [= <- <-]. done.
      * split; [discriminate | done].
      * intros file args H. discriminate.
Qed.

(** ** How the stages are wired *)

Lemma child_main_stdio cmd i nseg background pid pgid o :
  let c := child_main cmd i nseg background pid pgid o in
  (Command.infile cmd = None ->
   c_stdin c = if decide (0 < i) then PipeRead (i - 1) else Inherited)
  /\ (Command.outfile cmd = None ->
      c_stdout c = if decide (i < nseg - 1) then PipeWrite i else Inherited)
  /\ c_takes_terminal c = negb background && bool_decide (i = 0).
Proof.
  unfold child_main, setup_redirections.
  destruct (Command.infile cmd) as [f|]; [destruct (open_ok o f)|];
    (destruct (Command.outfile cmd) as [g|]; [destruct (open_ok o g)|]);
    try (destruct (Command.argv cmd) as [|file0 args0]; [|destruct (exec_ok o file0)]);
    cbn [c_stdin c_stdout c_takes_terminal]; repeat split; intros; congruence.
Qed.

Section Wiring.
Context {L : libc}.

(** X14.  In a pipeline whose pipes and forks succeed, the child of stage
    [k] that does not redirect its input reads from pipe [k-1], the first
    stage from what the shell reads from; the child that does not redirect
    its output writes to pipe [k], the last stage to what the shell writes
    to.  Only the first stage of a foreground pipeline takes the terminal
    for the group. *)
Theorem pipeline_stages_are_connected
  (segs : list string) (background : bool) (full_cmd : string) (o : os) (st : shell) :
  segs <> [] ->
  (forall k, k < length segs - 1 -> pipe_ok o k = true) ->
  (forall i, i < length segs -> (0 < fork_ret o i)%Z) ->
  forall k seg,
    segs !! k = Some seg ->
    let cmd := parse_command (strncpy (MAX_INPUT - 1) seg) in
    exists c,
      children (launch segs background full_cmd o st) !! (length (children st) + k) = Some c
      /\ (Command.infile cmd = None ->
          c_stdin c = if decide (0 < k) then PipeRead (k - 1) else Inherited)
      /\ (Command.outfile cmd = None ->
          c_stdout c = if decide (k < length segs - 1) then PipeWrite k else Inherited)
      /\ c_takes_terminal c = negb background && bool_decide (k = 0).
Proof.
  intros Hne Hpipes Hforks k seg Hseg cmd.
  assert (Hch : children (launch segs background full_cmd o st)
                = children st ++ pipeline_children segs background o).
  { rewrite launch_created by done.
    rewrite after_forks_children, children_emits.
    by rewrite omap_app, children_pipes, children_fork_records. }
  eexists. split.
  - rewrite Hch, lookup_app_r by lia.
    replace (length (children st) + k - length (children st)) with k by lia.
    by apply pipeline_children_lookup.
  - apply child_main_stdio.
Qed.

End Wiring.

(** X14 on [ls | wc] in the foreground: [wc] reads pipe 0. *)
Lemma pipeline_stages_are_connected_witness :
  exists c,
    children (launch (L := Glibc.lib) ["ls "; "wc"] false "ls | wc" plain_os initial_shell)
      !! 1 = Some c
    /\ c_stdin c = PipeRead 0
    /\ c_stdout c = Inherited
    /\ c_takes_terminal c = false.
Proof.
  destruct (pipeline_stages_are_connected (L := Glibc.lib) ["ls "; "wc"] false "ls | wc"
              plain_os initial_shell) with (k := 1) (seg := "wc")
    as (c & Hc & Hin & Hout & Hterm).
  - done.
  - intros k Hk. reflexivity.
  - intros i Hi. simpl. lia.
  - reflexivity.
  - exists c. split; [exact Hc|]. split; [exact (Hin eq_refl)|].
    split; [exact (Hout eq_refl) | exact Hterm].
Defined.

(** ** Tokens and segments *)

Lemma skip_delim_head delim s :
  match skip_delim delim s with
  | EmptyString => True
  | String c _ => is_delim delim c = false
  end.
Proof.
  induction s as [|c s IH]; simpl; [done|].
  destruct (is_delim delim c) eqn:Hc; [exact IH | exact Hc].
Qed.

Lemma skip_delim_length delim s :
  String.length (skip_delim delim s) <= String.length s.
Proof.
  induction s as [|c s IH]; simpl; [lia|].
  destruct (is_delim delim c); simpl; lia.
Qed.

Lemma split_token_spec delim s :
  avoids delim (split_token delim s).1 = true
  /\ String.length (split_token delim s).1 + String.length (split_token delim s).2
     <= String.length s.
Proof.
  induction s as [|c s IH]; simpl; [split; [done | lia]|].
  destruct (is_delim delim c) eqn:Hc; simpl; [split; [done | lia]|].
  destruct (split_token delim s) as [t r]. simpl in *. rewrite Hc. simpl.
  split; [tauto | lia].
Qed.

Lemma strtok_r_spec delim s t rest :
  strtok_r s delim = Some (t, rest) ->
  t <> EmptyString /\ avoids delim t = true
  /\ String.length rest < String.length s.
Proof.
  unfold strtok_r. pose proof (skip_delim_head delim s) as Hh.
  pose proof (skip_delim_length delim s) as Hl.
  destruct (skip_delim delim s) as [|c s'] eqn:Hs; [discriminate|].
  pose proof (split_token_spec delim (String c s')) as [Ha Hlen].
  simpl in Ha, Hlen. simpl. rewrite Hh in *.
  destruct (split_token delim s') as [t' r']. intros [= <- <-].
  simpl in *. split; [done|]. split; [done | lia].
Qed.

Lemma strtok_all_sound delim fuel :
  forall s, Forall (fun t => t <> EmptyString /\ avoids delim t = true)
              (strtok_all fuel s delim).
Proof.
  induction fuel as [|fuel IH]; intros s; simpl; [constructor|].
  destruct (strtok_r s delim) as [[t rest]|] eqn:Ht; [|constructor].
  constructor; [|apply IH].
  apply strtok_r_spec in Ht. tauto.
Qed.

(** More fuel than characters changes nothing. *)
Lemma strtok_all_fuel delim fuel :
  forall s fuel',
    String.length s < fuel -> String.length s < fuel' ->
    strtok_all fuel s delim = strtok_all fuel' s delim.
Proof.
  induction fuel as [|fuel IH]; intros s fuel' Hf Hf'; [lia|].
  destruct fuel' as [|fuel']; [lia|]. simpl.
  destruct (strtok_r s delim) as [[t rest]|] eqn:Ht; [|done].
  apply strtok_r_spec in Ht as (_ & _ & Hlen).
  f_equal. apply IH; lia.
Qed.

Lemma avoids_blanks s : avoids blanks s = no_blank s.
Proof. induction s as [|c s IH]; simpl; [done|]. by rewrite IH. Qed.

Lemma tokens_are_tokens s : Forall is_token (tokens s blanks).
Proof.
  eapply Forall_impl; [apply strtok_all_sound|].
  intros t [Hne Ha]. split; [done|]. by rewrite <- avoids_blanks.
Qed.

(** X15.  Joining tokens with single spaces and tokenizing the line gives
    the tokens back; hence tokenizing is stable: the tokens of a line,
    joined and tokenized again, are the same tokens, whatever blanks the
    line had. *)
Theorem tokens_round_trip (ts : list string) (s : string) :
  (Forall is_token ts -> tokens (String.concat " " ts) blanks = ts)
  /\ tokens (String.concat " " (tokens s blanks)) blanks = tokens s blanks.
Proof.
  split; [apply tokens_concat|].
  apply tokens_concat, tokens_are_tokens.
Qed.

(** X15 on the tokens of [cat -n <  in]. *)
Lemma tokens_round_trip_witness :
  Forall is_token ["cat"; "-n"; "<"; "in"]
  /\ tokens "cat -n < in" blanks = ["cat"; "-n"; "<"; "in"]
  /\ tokens "  cat	-n <  in " blanks = ["cat"; "-n"; "<"; "in"].
Proof.
  assert (Hts : Forall is_token ["cat"; "-n"; "<"; "in"])
    by (repeat constructor; discriminate).
  split; [exact Hts|].
  split; [exact (proj1 (tokens_round_trip ["cat"; "-n"; "<"; "in"] EmptyString) Hts)|].
  reflexivity.
Defined.

(** ** The descriptor of a stage *)

Lemma parse_tokens_keeps (P : string -> Prop) (n : nat) :
  forall toks argc cmd,
    length toks <= n ->
    Forall P toks ->
    length (Command.argv cmd) = argc -> argc <= MAX_ARGS - 1 ->
    Forall P (Command.argv cmd) ->
    (forall f, Command.infile cmd = Some f -> P f) ->
    (forall g, Command.outfile cmd = Some g -> P g) ->
    let r := parse_tokens toks argc cmd in
    length (Command.argv r) <= MAX_ARGS - 1
    /\ Forall P (Command.argv r)
    /\ (forall f, Command.infile r = Some f -> P f)
    /\ (forall g, Command.outfile r = Some g -> P g).
Proof.
  induction n as [|n IH]; intros toks argc cmd Hn Htoks Hlen Hargc Hargv Hin Hout.
  - destruct toks; [|simpl in Hn; lia]. cbn [parse_tokens]. repeat split; auto. lia.
  - destruct toks as [|tok rest]; [cbn [parse_tokens]; repeat split; auto; lia|].
    apply Forall_cons in Htoks as [Htok Hrest]. simpl in Hn.
    cbn [parse_tokens].
    destruct (decide (argc < MAX_ARGS - 1)) as [Hlt|Hge];
      [|cbn zeta; repeat split; auto; lia].
    assert (Hop : forall set : string -> Command.t -> Command.t,
               (forall f c, Command.argv (set f c) = Command.argv c) ->
               (forall f c x, Command.infile (set f c) = Some x ->
                              x = f \/ Command.infile c = Some x) ->
               (forall f c x, Command.outfile (set f c) = Some x ->
                              x = f \/ Command.outfile c = Some x) ->
               let r := match rest with
                        | [] => cmd
                        | f :: rest' => parse_tokens rest' argc (set f cmd)
                        end in
               length (Command.argv r) <= MAX_ARGS - 1
               /\ Forall P (Command.argv r)
               /\ (forall f, Command.infile r = Some f -> P f)
               /\ (forall g, Command.outfile r = Some g -> P g)).
    { intros set Hsa Hsi Hso. destruct rest as [|f rest'].
      - cbn zeta. repeat split; auto. lia.
      - apply Forall_cons in Hrest as [Hf Hrest']. simpl in Hn.
        apply IH; auto; try lia.
        + by rewrite Hsa.
        + by rewrite Hsa.
        + intros x Hx. destruct (Hsi _ _ _ Hx) as [->|]; auto.
        + intros x Hx. destruct (Hso _ _ _ Hx) as [->|]; auto. }
    destruct (String.eqb tok "<").
    { apply (Hop Command.set_infile); simpl; auto.
      intros f c x [= <-]. by left. }
    destruct (String.eqb tok ">").
    { apply (Hop (fun f => Command.set_outfile f false)); simpl; auto.
      intros f c x [= <-]. by left. }
    destruct (String.eqb tok ">>").
    { apply (Hop (fun f => Command.set_outfile f true)); simpl; auto.
      intros f c x [= <-]. by left. }
    apply IH; auto; try lia.
    + simpl. rewrite length_app. simpl. lia.
    + simpl. apply Forall_app. split; [done | by constructor].
Qed.

(** X16.  Whatever the segment, the descriptor [parse_command] builds has
    at most [MAX_ARGS - 1] arguments, so that the [NULL] that ends [argv]
    always fits; every argument and every redirection file is a token of the
    segment: not empty, without a blank. *)
Theorem parse_command_well_formed (segment : string) :
  let cmd := parse_command segment in
  length (Command.argv cmd) <= MAX_ARGS - 1
  /\ Forall is_token (Command.argv cmd)
  /\ (forall f, Command.infile cmd = Some f -> is_token f)
  /\ (forall g, Command.outfile cmd = Some g -> is_token g).
Proof.
  unfold parse_command.
  apply (parse_tokens_keeps is_token (length (tokens segment blanks))); auto.
  - apply tokens_are_tokens.
  - unfold MAX_ARGS. lia.
  - intros f H. discriminate.
  - intros g H. discriminate.
Qed.

(** ** The segments of a line *)

Lemma skip_spaces_spec delim s :
  String.get 0 (skip_spaces s) <> Some " "%char
  /\ (avoids delim s = true -> avoids delim (skip_spaces s) = true).
Proof.
  induction s as [|c s IH]; simpl; [split; [discriminate | done]|].
  destruct (Ascii.eqb_spec c " ") as [->|Hc].
  - split; [tauto|]. intros [_ H]%andb_prop. tauto.
  - split; [|done]. simpl. congruence.
Qed.

(** ** Lines with nothing to run *)

Lemma skip_delim_made_of delim s :
  made_of delim s = true -> skip_delim delim s = EmptyString.
Proof.
  induction s as [|c s IH]; simpl; [done|].
  intros [Hc Hs]%andb_prop. rewrite Hc. by apply IH.
Qed.

Lemma tokens_made_of delim s : made_of delim s = true -> tokens s delim = [].
Proof.
  intros H. unfold tokens. simpl. unfold strtok_r.
  by rewrite skip_delim_made_of.
Qed.

Lemma split_token_whole delim t :
  avoids delim t = true -> split_token delim t = (t, EmptyString).
Proof.
  induction t as [|c t IH]; simpl; [done|].
  intros [Hc Ht]%andb_prop. apply negb_true_iff in Hc. rewrite Hc.
  by rewrite (IH Ht).
Qed.

Lemma tokens_single delim s :
  s <> EmptyString -> avoids delim s = true -> tokens s delim = [s].
Proof.
  intros Hne Ha. destruct s as [|c s]; [done|].
  unfold tokens. cbn [strtok_all]. unfold strtok_r.
  pose proof Ha as Ha'. simpl in Ha'. apply andb_prop in Ha' as [Hc _].
  apply negb_true_iff in Hc. cbn [skip_delim]. rewrite Hc.
  rewrite split_token_whole by done.
  by destruct (String.length (String c s)).
Qed.

Lemma blank_is_no_bar c : is_delim blanks c = true -> is_delim ["|"%char] c = false.
Proof.
  unfold is_delim, blanks. simpl.
  destruct (Ascii.eqb_spec c " ") as [->|_]; [done|].
  destruct (Ascii.eqb_spec c "009") as [->|_]; [done|].
  destruct (Ascii.eqb_spec c "010") as [->|_]; [done|]. discriminate.
Qed.

Lemma made_of_blanks_avoids_bar s :
  made_of blanks s = true -> avoids ["|"%char] s = true.
Proof.
  induction s as [|c s IH]; cbn [made_of avoids]; [done|].
  intros [Hc Hs]%andb_prop. rewrite (blank_is_no_bar c Hc). cbn [negb andb]. by apply IH.
Qed.

Lemma made_of_skip_spaces delim s :
  made_of delim s = true -> made_of delim (skip_spaces s) = true.
Proof.
  induction s as [|c s IH]; simpl; [done|].
  intros H. destruct (Ascii.eqb c " "); [|done].
  apply andb_prop in H as [_ H]. by apply IH.
Qed.

Lemma made_of_strncpy delim n s :
  made_of delim s = true -> made_of delim (strncpy n s) = true.
Proof.
  revert s. induction n as [|n IH]; intros [|c s]; cbn [strncpy made_of]; try done.
  intros [Hc Hs]%andb_prop. rewrite Hc. simpl. by apply IH.
Qed.

Section IdleLines.
Context {L : libc}.

(** X18.  A line made only of bars, or only of blanks, the empty line
    among them, makes [execute_line] return with the state it was given:
    nothing is forked, printed or recorded. *)
Theorem line_without_command_does_nothing
  (line : string) (background : bool) (full_cmd : string) (o : os) (st : shell) :
  made_of ["|"%char] line = true \/ made_of blanks line = true ->
  execute_line line background full_cmd o st = Continue st.
Proof.
  intros [Hbars|Hblank]; unfold execute_line, split_pipeline.
  - by rewrite tokens_made_of.
  - destruct line as [|c line]; [reflexivity|].
    rewrite tokens_single; [|done|by apply made_of_blanks_avoids_bar].
    assert (Hp : parse_command
                   (strncpy (MAX_INPUT - 1) (skip_spaces (String c line)))
                 = Command.zero).
    { unfold parse_command. rewrite tokens_made_of; [done|].
      by apply made_of_strncpy, made_of_skip_spaces. }
    change (take MAX_CMDS [String c line]) with [String c line].
    change (map skip_spaces [String c line]) with [skip_spaces (String c line)].
    cbv iota. rewrite Hp. reflexivity.
Qed.

End IdleLines.

(** X18 on a line of two spaces and a tab. *)
Lemma line_without_command_does_nothing_witness :
  made_of blanks "  	" = true
  /\ execute_line (L := Glibc.lib) "  	" false "  	" plain_os initial_shell
     = Continue initial_shell.
Proof.
  split; [reflexivity|].
  apply (line_without_command_does_nothing (L := Glibc.lib)). right. reflexivity.
Defined.

(** ** The segments of a line, in order *)

Lemma strtok_r_piece delim p :
  p <> EmptyString -> avoids delim p = true ->
  strtok_r p delim = Some (p, EmptyString)
  /\ forall d rest, is_delim delim d = true ->
       strtok_r (String.append p (String d rest)) delim = Some (p, rest).
Proof.
  intros Hne Hp. destruct p as [|c p]; [done|].
  pose proof Hp as Hp'. cbn [avoids] in Hp'.
  apply andb_prop in Hp' as [Hc Hp']. apply negb_true_iff in Hc.
  split.
  - unfold strtok_r. cbn [skip_delim]. rewrite Hc. by rewrite split_token_whole.
  - intros d rest Hd. unfold strtok_r.
    change (String.append (String c p) (String d rest))
      with (String c (String.append p (String d rest))).
    cbn [skip_delim]. rewrite Hc. cbn [split_token]. rewrite Hc.
    assert (Hsplit : split_token delim (String.append p (String d rest)) = (p, rest)).
    { clear Hp Hne Hc. induction p as [|x p IH].
      - change (String.append EmptyString (String d rest)) with (String d rest).
        cbn [split_token]. by rewrite Hd.
      - cbn [avoids] in Hp'. apply andb_prop in Hp' as [Hx Hp'].
        apply negb_true_iff in Hx.
        change (String.append (String x p) (String d rest))
          with (String x (String.append p (String d rest))).
        cbn [split_token]. by rewrite Hx, IH. }
    by rewrite Hsplit.
Qed.

Lemma strtok_all_joined delim d ps :
  is_delim delim d = true ->
  Forall (fun p => p <> EmptyString /\ avoids delim p = true) ps ->
  forall fuel,
    String.length (String.concat (String d EmptyString) ps) < fuel ->
    strtok_all fuel (String.concat (String d EmptyString) ps) delim = ps.
Proof.
  intros Hd Hps. induction Hps as [|p ps [Hne Hp] Hps IH]; intros fuel Hfuel.
  - destruct fuel; [lia|]. reflexivity.
  - destruct fuel as [|fuel]; [lia|].
    destruct (strtok_r_piece delim p Hne Hp) as [Hlast Hfirst].
    destruct ps as [|p' ps].
    + cbn [String.concat strtok_all]. rewrite Hlast.
      destruct fuel; reflexivity.
    + change (String.concat (String d EmptyString) (p :: p' :: ps))
        with (String.append p
                (String d (String.concat (String d EmptyString) (p' :: ps)))) in *.
      cbn [strtok_all]. rewrite Hfirst by done. f_equal. apply IH.
      rewrite string_length_append in Hfuel. cbn [String.length] in Hfuel. lia.
Qed.

Lemma without_skip_delim delim s : without delim (skip_delim delim s) = without delim s.
Proof.
  induction s as [|c s IH]; [done|]. cbn [skip_delim without].
  destruct (is_delim delim c) eqn:Hc; [exact IH|].
  cbn [without]. by rewrite Hc.
Qed.

Lemma without_split_token delim s :
  without delim s
  = String.append (split_token delim s).1 (without delim (split_token delim s).2).
Proof.
  induction s as [|c s IH]; [done|]. cbn [split_token without].
  destruct (is_delim delim c) eqn:Hc; [done|].
  destruct (split_token delim s) as [t r]. cbn [fst snd] in *. by rewrite IH.
Qed.

Lemma strtok_all_without delim fuel :
  forall s,
    String.length s < fuel ->
    fold_right String.append EmptyString (strtok_all fuel s delim) = without delim s.
Proof.
  induction fuel as [|fuel IH]; intros s Hfuel; [lia|].
  cbn [strtok_all].
  destruct (strtok_r s delim) as [[t rest]|] eqn:Ht.
  - pose proof (strtok_r_spec _ _ _ _ Ht) as (_ & _ & Hlen).
    cbn [fold_right]. rewrite IH by lia.
    rewrite <- (without_skip_delim delim s). unfold strtok_r in Ht.
    destruct (skip_delim delim s) as [|c s'] eqn:Hs; [discriminate|].
    assert (Ht' : split_token delim (String c s') = (t, rest))
      by congruence.
    by rewrite (without_split_token delim (String c s')), Ht'.
  - unfold strtok_r in Ht. rewrite <- (without_skip_delim delim s).
    destruct (skip_delim delim s); [done | discriminate].
Qed.

(** X17.  [split_pipeline] gives at most [maxseg] segments; no segment
    holds a bar and none starts with a space.  The segments are the first
    [maxseg] pieces of the line, in the order of the line, each without its
    leading spaces: the pieces are not empty, hold no bar and, put end to
    end, are the line with its bars taken out.  So a line of pieces joined
    by single bars is split into these very pieces. *)
Theorem split_pipeline_shape (line : string) (maxseg : nat) :
  length (split_pipeline line maxseg) <= maxseg
  /\ Forall (fun seg => avoids ["|"%char] seg = true
                        /\ String.get 0 seg <> Some " "%char)
       (split_pipeline line maxseg)
  /\ split_pipeline line maxseg
     = take maxseg (split_pipeline line (length (tokens line ["|"%char])))
  /\ (exists pieces,
        split_pipeline line maxseg = take maxseg (skip_spaces <$> pieces)
        /\ Forall (fun p => p <> EmptyString /\ avoids ["|"%char] p = true) pieces
        /\ fold_right String.append EmptyString pieces = without ["|"%char] line)
  /\ (forall ps,
        Forall (fun p => p <> EmptyString /\ avoids ["|"%char] p = true) ps ->
        split_pipeline (String.concat "|" ps) maxseg
        = take maxseg (skip_spaces <$> ps)).
Proof.
  unfold split_pipeline. split; [|split; [|split; [|split]]].
  - rewrite length_fmap, length_take. lia.
  - apply Forall_fmap. apply Forall_take.
    eapply Forall_impl; [apply (strtok_all_sound ["|"%char])|].
    intros t [_ Ha]. simpl. destruct (skip_spaces_spec ["|"%char] t) as [H1 H2].
    split; [by apply H2 | exact H1].
  - rewrite firstn_all. by rewrite fmap_take.
  - exists (tokens line ["|"%char]). split; [by rewrite fmap_take|].
    split; [apply strtok_all_sound|]. apply strtok_all_without. lia.
  - intros ps Hps. unfold tokens.
    rewrite (strtok_all_joined ["|"%char] "|"%char ps eq_refl Hps) by lia.
    by rewrite fmap_take.
Qed.

Lemma split_pipeline_shape_witness :
  split_pipeline "ls -l | grep c| wc" 32 = ["ls -l "; "grep c"; "wc"]
  /\ split_pipeline "ls -l | grep c| wc" 2 = ["ls -l "; "grep c"].
Proof.
  assert (Hps : Forall (fun p => p <> EmptyString /\ avoids ["|"%char] p = true)
                  ["ls -l "; " grep c"; " wc"]).
  { repeat constructor; discriminate. }
  destruct (split_pipeline_shape "ls -l | grep c| wc" 32) as (_ & _ & _ & _ & H1).
  destruct (split_pipeline_shape "ls -l | grep c| wc" 2) as (_ & _ & _ & _ & H2).
  split.
  - exact (H1 ["ls -l "; " grep c"; " wc"] Hps).
  - exact (H2 ["ls -l "; " grep c"; " wc"] Hps).
Defined.

(** ** Trimming a line *)

Lemma substring_split s :
  forall n m1 m2,
    String.substring n (m1 + m2) s
    = String.append (String.substring n m1 s) (String.substring (n + m1) m2 s).
Proof.
  induction s as [|c s IH]; intros n m1 m2.
  - destruct n, m1, m2; reflexivity.
  - destruct n as [|n]; [|apply IH].
    destruct m1 as [|m1]; [reflexivity|].
    simpl.
    change (String c (String.substring 0 (m1 + m2) s)
            = String c (String.append (String.substring 0 m1 s) (String.substring m1 m2 s))).
    f_equal. apply (IH 0).
Qed.

Lemma substring_all s : String.substring 0 (String.length s) s = s.
Proof. induction s as [|c s IH]; simpl; [done|]. by rewrite IH. Qed.

Lemma substring_length s :
  forall n m, n + m <= String.length s -> String.length (String.substring n m s) = m.
Proof.
  induction s as [|c s IH]; intros n m Hlen; simpl in Hlen.
  - destruct n, m; simpl; lia.
  - destruct n as [|n]; simpl.
    + destruct m as [|m]; simpl; [done|]. rewrite (IH 0); lia.
    + apply IH. lia.
Qed.

Lemma made_of_get delim t :
  (forall k c, String.get k t = Some c -> is_delim delim c = true) ->
  made_of delim t = true.
Proof.
  induction t as [|c t IH]; intros H; cbn [made_of]; [done|].
  rewrite (H 0 c eq_refl). cbn [andb]. apply IH. intros k c' Hk. by apply (H (S k)).
Qed.

Lemma get_lt s : forall k, k < String.length s -> exists c, String.get k s = Some c.
Proof.
  induction s as [|c s IH]; intros k Hk; simpl in Hk; [lia|].
  destruct k as [|k]; [by exists c|]. apply IH. lia.
Qed.

Lemma leading_spaces_spec s :
  leading_spaces s <= String.length s
  /\ made_of white (String.substring 0 (leading_spaces s) s) = true
  /\ (forall c, String.get (leading_spaces s) s = Some c -> isspace c = false).
Proof.
  induction s as [|c s (IH1 & IH2 & IH3)]; [repeat split; [done | discriminate]|].
  cbn [leading_spaces]. destruct (isspace c) eqn:Hc.
  - cbn [String.length String.substring String.get made_of].
    split; [lia|]. split; [|exact IH3].
    change (is_delim white c) with (isspace c). by rewrite Hc.
  - cbn [String.substring String.get String.length made_of].
    split; [lia|]. split; [done|]. congruence.
Qed.

Lemma trailing_end_spec s i :
  forall e,
    let e' := trailing_end s i e in
    e' <= e
    /\ (i <= e -> i <= e')
    /\ (i < e' -> forall c, String.get (e' - 1) s = Some c -> isspace c = false)
    /\ (forall k c, e' <= k < e -> String.get k s = Some c -> isspace c = true).
Proof.
  induction e as [|j (IH1 & IH2 & IH3 & IH4)]; cbn [trailing_end].
  - repeat split; intros; lia.
  - destruct (decide (i <= j)) as [Hij|Hij].
    + destruct (String.get j s) as [c|] eqn:Hj.
      * destruct (isspace c) eqn:Hc.
        -- cbn zeta in *. split; [lia|]. split; [auto|]. split; [exact IH3|].
           intros k c' Hk Hget. destruct (decide (k = j)) as [->|Hne].
           ++ congruence.
           ++ apply (IH4 k c'); [lia | done].
        -- cbn zeta. split; [lia|]. split; [lia|]. split.
           ++ intros _ c' Hget. replace (S j - 1) with j in Hget by lia. congruence.
           ++ intros k c' Hk. lia.
      * cbn zeta. split; [lia|]. split; [lia|]. split.
        -- intros _ c' Hget. replace (S j - 1) with j in Hget by lia. congruence.
        -- intros k c' Hk. lia.
    + cbn zeta. split; [lia|]. split; [lia|]. split; intros; lia.
Qed.

Lemma trim_fixed s : no_outer_space s -> trim s = s.
Proof.
  intros [Hfirst Hlast]. unfold trim.
  assert (Hi : leading_spaces s = 0).
  { destruct s as [|c s]; [done|]. simpl. by rewrite (Hfirst c eq_refl). }
  rewrite Hi.
  assert (He : trailing_end s 0 (String.length s) = String.length s).
  { unfold last_char in Hlast. destruct (String.length s) as [|j] eqn:Hn; [done|].
    cbn [trailing_end]. rewrite decide_True by lia.
    destruct (get_lt s j ltac:(lia)) as [c Hc]. rewrite Hc.
    by rewrite (Hlast c Hc). }
  rewrite He, Nat.sub_0_r. apply substring_all.
Qed.

(** X19.  [trim] takes white space off both ends of the line and nothing
    else: the line is what [trim] leaves, between a run of white space
    before and a run of white space after, and what it leaves neither starts
    nor ends with white space.  Hence trimming twice is trimming once, and a
    line without outer white space is left as it is. *)
Theorem trim_removes_outer_space (s : string) :
  (exists a b,
      s = String.append a (String.append (trim s) b)
      /\ made_of white a = true /\ made_of white b = true)
  /\ no_outer_space (trim s)
  /\ trim (trim s) = trim s
  /\ (no_outer_space s -> trim s = s).
Proof.
  destruct (leading_spaces_spec s) as (Hi & Hpre & Hfirst).
  destruct (trailing_end_spec s (leading_spaces s) (String.length s))
    as (He & Hie & Hlast & Hpost).
  specialize (Hie Hi).
  set (i := leading_spaces s) in *.
  set (e := trailing_end s i (String.length s)) in *.
  assert (Hlen : String.length (trim s) = e - i).
  { unfold trim. fold i e. apply substring_length. lia. }
  assert (Hno : no_outer_space (trim s)).
  { split.
    - intros c Hc. destruct (decide (0 < e - i)) as [Hpos|Hz].
      + unfold trim in Hc. fold i e in Hc.
        rewrite substring_correct1 in Hc by done. simpl in Hc. by apply Hfirst.
      + unfold trim in Hc. fold i e in Hc.
        rewrite substring_correct2 in Hc by lia. discriminate.
    - unfold last_char. rewrite Hlen. destruct (e - i) as [|k] eqn:Hk; [discriminate|].
      intros c Hc. unfold trim in Hc. fold i e in Hc. rewrite Hk in Hc.
      rewrite substring_correct1 in Hc by lia.
      apply Hlast; [lia|]. by replace (e - 1) with (k + i) by lia. }
  split; [|split; [exact Hno|split; [by apply trim_fixed | apply trim_fixed]]].
  exists (String.substring 0 i s), (String.substring e (String.length s - e) s).
  split; [|split; [exact Hpre|]].
  - rewrite <- (substring_all s) at 1.
    replace (String.length s) with (i + ((e - i) + (String.length s - e))) at 1 by lia.
    rewrite substring_split. cbn [Nat.add]. f_equal.
    rewrite substring_split. unfold trim. fold i e. f_equal.
    by replace (i + (e - i)) with e by lia.
  - apply made_of_get. intros k c Hc.
    destruct (decide (k < String.length s - e)) as [Hk|Hk].
    + rewrite substring_correct1 in Hc by done.
      change (is_delim white c) with (isspace c).
      apply (Hpost (k + e)); [lia | done].
    + rewrite substring_correct2 in Hc by lia. discriminate.
Qed.

Lemma trim_removes_outer_space_witness :
  trim "  ls -l   " = "ls -l" /\ trim "ls -l" = "ls -l".
Proof.
  split; [reflexivity|].
  apply (trim_removes_outer_space "ls -l").
  split; intros c [= <-]; reflexivity.
Defined.

(** ** The history *)

Lemma add_history_frame line st :
  jobs (add_history line st) = jobs st
  /\ job_count (add_history line st) = job_count st
  /\ next_job_id (add_history line st) = next_job_id st
  /\ out (add_history line st) = out st.
Proof. by destruct line. Qed.

Lemma add_history_history line st :
  length (history st) <= MAX_HISTORY ->
  history (add_history line st)
  = keep_last MAX_HISTORY (history st ++ nonempty_lines [line]).
Proof.
  intros Hlen. unfold keep_last. destruct line as [|c line].
  - cbn [add_history]. change (nonempty_lines [EmptyString]) with (@nil string).
    rewrite app_nil_r. by replace (length (history st) - MAX_HISTORY) with 0 by lia.
  - change (nonempty_lines [String c line]) with [String c line].
    cbn [add_history set_history history]. rewrite length_app. cbn [length].
    destruct (decide (length (history st) = MAX_HISTORY)) as [Hfull|Hroom].
    + replace (length (history st) + 1 - MAX_HISTORY) with 1 by lia.
      rewrite drop_app_le; [done|]. rewrite Hfull. unfold MAX_HISTORY. lia.
    + by replace (length (history st) + 1 - MAX_HISTORY) with 0 by lia.
Qed.

Lemma keep_last_length {A} n (l : list A) : length (keep_last n l) <= n.
Proof. unfold keep_last. rewrite length_drop. lia. Qed.

Lemma keep_last_app {A} n (l1 l2 : list A) :
  keep_last n (keep_last n l1 ++ l2) = keep_last n (l1 ++ l2).
Proof.
  unfold keep_last. rewrite !length_app, !drop_app, drop_drop, !length_drop.
  f_equal; f_equal; lia.
Qed.

Lemma add_history_all_history lines :
  forall st,
    length (history st) <= MAX_HISTORY ->
    history (fold_left (fun st l => add_history l st) lines st)
    = keep_last MAX_HISTORY (history st ++ nonempty_lines lines).
Proof.
  induction lines as [|l lines IH]; intros st Hlen.
  - change (nonempty_lines []) with (@nil string). rewrite app_nil_r.
    unfold keep_last. by replace (length (history st) - MAX_HISTORY) with 0 by lia.
  - cbn [fold_left]. rewrite IH.
    + rewrite add_history_history by done. rewrite keep_last_app.
      rewrite <- app_assoc. f_equal. f_equal.
      unfold nonempty_lines. by rewrite <- filter_app.
    + rewrite add_history_history by done. apply keep_last_length.
Qed.

Lemma add_history_all_frame lines :
  forall st,
    let st' := fold_left (fun st l => add_history l st) lines st in
    jobs st' = jobs st /\ job_count st' = job_count st
    /\ next_job_id st' = next_job_id st /\ out st' = out st.
Proof.
  induction lines as [|l lines IH]; intros st; [done|].
  cbn [fold_left]. cbn zeta.
  destruct (IH (add_history l st)) as (H1 & H2 & H3 & H4).
  destruct (add_history_frame l st) as (G1 & G2 & G3 & G4).
  repeat split; congruence.
Qed.

(** X20.  [add_history] keeps the last [MAX_HISTORY] lines it was given:
    an empty line is ignored; any other line becomes the newest entry, and
    when the array is full the oldest entry is the one that goes.  The
    history never outgrows its array, and nothing but the history changes. *)
Theorem add_history_keeps_last_entries (line : string) (st : shell) :
  length (history st) <= MAX_HISTORY ->
  let st' := add_history line st in
  history st' = keep_last MAX_HISTORY (history st ++ nonempty_lines [line])
  /\ length (history st') <= MAX_HISTORY
  /\ (line <> EmptyString -> last (history st') = Some line)
  /\ (line = EmptyString -> st' = st)
  /\ jobs st' = jobs st /\ job_count st' = job_count st
  /\ next_job_id st' = next_job_id st /\ out st' = out st.
Proof.
  intros Hlen st'. subst st'.
  split; [by apply add_history_history|].
  split; [rewrite add_history_history by done; apply keep_last_length|].
  split; [|split; [by intros ->|apply add_history_frame]].
  intros Hne. destruct line as [|c line]; [done|].
  cbn [add_history set_history history]. apply last_snoc.
Qed.

Lemma add_history_keeps_last_entries_witness :
  let st := add_history "ls" (add_history "pwd" initial_shell) in
  history (add_history "jobs" st) = ["pwd"; "ls"; "jobs"].
Proof.
  intros st.
  destruct (add_history_keeps_last_entries "jobs" st) as [H _].
  - vm_compute. lia.
  - rewrite H. reflexivity.
Defined.

Lemma string_append_assoc (a b c : string) :
  String.append (String.append a b) c = String.append a (String.append b c).
Proof.
  induction a as [|x a IH]; [done|].
  change (String x (String.append (String.append a b) c)
          = String x (String.append a (String.append b c))).
  by rewrite IH.
Qed.

Lemma string_append_nil_r (a : string) : String.append a EmptyString = a.
Proof.
  induction a as [|x a IH]; [done|].
  change (String x (String.append a EmptyString) = String x a). by rewrite IH.
Qed.

Lemma getlines_line (l : string) :
  forall rest cur,
    cut_newline l = l ->
    getlines (String.append l (String "010" rest)) cur
    = String.append cur (String.append l (String "010" EmptyString))
      :: getlines rest EmptyString.
Proof.
  induction l as [|c l IH]; intros rest cur Hcut.
  - reflexivity.
  - cbn [cut_newline] in Hcut. destruct (is_line_end c) eqn:He; [discriminate|].
    apply orb_false_elim in He as [Hc _].
    injection Hcut as Hcut.
    change (String.append (String c l) (String "010" rest))
      with (String c (String.append l (String "010" rest))).
    cbn [getlines]. rewrite Hc. rewrite IH by done.
    by rewrite string_append_assoc.
Qed.

Lemma cut_newline_line (l : string) :
  cut_newline l = l ->
  cut_newline (String.append l (String "010" EmptyString)) = l.
Proof.
  induction l as [|c l IH]; intros Hcut; [done|].
  cbn [cut_newline] in Hcut. destruct (is_line_end c) eqn:Hc; [discriminate|].
  injection Hcut as Hcut.
  change (String.append (String c l) (String "010" EmptyString))
    with (String c (String.append l (String "010" EmptyString))).
  cbn [cut_newline]. rewrite Hc. by rewrite IH.
Qed.

Lemma getlines_history_text (h : list string) :
  Forall (fun l => cut_newline l = l) h ->
  cut_newline <$> getlines (history_text h) EmptyString = h.
Proof.
  induction 1 as [|l h Hl Hh IH]; [done|].
  cbn [history_text]. rewrite getlines_line by done.
  change (String.append EmptyString ?x) with x.
  rewrite fmap_cons, IH. by rewrite cut_newline_line.
Qed.

Lemma fold_left_fmap {A B C} (f : A -> B) (g : C -> B -> C) (l : list A) :
  forall c, fold_left (fun c a => g c (f a)) l c = fold_left g (f <$> l) c.
Proof. induction l as [|a l IH]; intros c; [done|]. apply IH. Qed.

Lemma nonempty_lines_all (h : list string) :
  Forall (fun l => l <> EmptyString) h -> nonempty_lines h = h.
Proof.
  induction 1 as [|l h Hl Hh IH]; [done|].
  unfold nonempty_lines in *. rewrite filter_cons_True by done. by rewrite IH.
Qed.

(** X21.  What [save_history] writes, [load_history] reads back: started
    from an empty history on a file that holds the entries of a history [h],
    each followed by a newline, [load_history] rebuilds [h] entry for
    entry and touches nothing else; when the file cannot be opened the state
    is left as it is. *)
Theorem history_round_trip (h : list string) (st : shell) :
  history_ok h ->
  history st = [] ->
  load_history (Some (history_text h)) st = set_history h st
  /\ load_history None st = st.
Proof.
  intros [Hlen Hall] Hempty. split; [|done].
  unfold load_history.
  rewrite (fold_left_fmap cut_newline (fun st l => add_history l st)).
  rewrite getlines_history_text
    by (eapply Forall_impl; [exact Hall | by intros l [_ ?]]).
  pose proof (add_history_all_history h st) as Hh.
  destruct (add_history_all_frame h st) as (H1 & H2 & H3 & H4).
  rewrite Hempty in Hh. specialize (Hh ltac:(cbn [length]; lia)).
  rewrite nonempty_lines_all in Hh
    by (eapply Forall_impl; [exact Hall | by intros l [? _]]).
  cbn [app] in Hh. unfold keep_last in Hh.
  replace (length h - MAX_HISTORY) with 0 in Hh by lia. rewrite drop_0 in Hh.
  destruct (fold_left _ h st) as [js n nid hist o]. destruct st as [js0 n0 nid0 h0 o0].
  unfold set_history. simpl in *. congruence.
Qed.

Lemma history_round_trip_witness :
  load_history (Some (history_text ["ls -l | wc"; "sleep 5 &"])) initial_shell
  = set_history ["ls -l | wc"; "sleep 5 &"] initial_shell.
Proof.
  apply (history_round_trip ["ls -l | wc"; "sleep 5 &"] initial_shell).
  - split; [vm_compute; lia|]. repeat constructor; discriminate.
  - reflexivity.
Defined.

Lemma getlines_last (r : string) :
  forall cur,
    avoids ["010"%char] r = true ->
    getlines r cur
    = match String.append cur r with EmptyString => [] | l => [l] end.
Proof.
  induction r as [|c r IH]; intros cur Hr.
  - rewrite string_append_nil_r. by destruct cur.
  - cbn [avoids] in Hr. apply andb_prop in Hr as [Hc Hr].
    assert (Hnl : Ascii.eqb c "010" = false).
    { unfold is_delim in Hc. cbn [existsb] in Hc. by destruct (Ascii.eqb c "010"). }
    cbn [getlines]. rewrite Hnl, IH by done.
    by rewrite string_append_assoc.
Qed.

Lemma getlines_terminated (l : string) :
  forall rest cur,
    avoids ["010"%char] l = true ->
    getlines (String.append l (String "010" rest)) cur
    = String.append cur (String.append l (String "010" EmptyString))
      :: getlines rest EmptyString.
Proof.
  induction l as [|c l IH]; intros rest cur Hl.
  - reflexivity.
  - cbn [avoids] in Hl. apply andb_prop in Hl as [Hc Hl].
    assert (Hnl : Ascii.eqb c "010" = false).
    { unfold is_delim in Hc. cbn [existsb] in Hc. by destruct (Ascii.eqb c "010"). }
    change (String.append (String c l) (String "010" rest))
      with (String c (String.append l (String "010" rest))).
    cbn [getlines]. rewrite Hnl, IH by done.
    by rewrite string_append_assoc.
Qed.

Lemma cut_newline_c_string (l : string) :
  avoids ["010"%char] l = true ->
  cut_newline (String.append l (String "010" EmptyString)) = c_string l
  /\ cut_newline l = c_string l.
Proof.
  induction l as [|c l IH]; intros Hl; [done|].
  cbn [avoids] in Hl. apply andb_prop in Hl as [Hc Hl].
  assert (Hnl : Ascii.eqb c "010" = false).
  { unfold is_delim in Hc. cbn [existsb] in Hc. by destruct (Ascii.eqb c "010"). }
  change (String.append (String c l) (String "010" EmptyString))
    with (String c (String.append l (String "010" EmptyString))).
  cbn [cut_newline c_string]. unfold is_line_end. rewrite Hnl. cbn [orb].
  destruct (Ascii.eqb c "000"); [done|].
  destruct (IH Hl) as [-> ->]. done.
Qed.

Lemma getlines_text (ls : list string) (rest : string) :
  Forall (fun l => avoids ["010"%char] l = true) ls ->
  avoids ["010"%char] rest = true ->
  nonempty_lines
    (cut_newline <$> getlines (String.append (history_text ls) rest) EmptyString)
  = nonempty_lines (c_string <$> (ls ++ [rest])).
Proof.
  intros Hls Hrest. induction Hls as [|l ls Hl Hls IH].
  - change (String.append (history_text []) rest) with rest.
    rewrite getlines_last by done. change (String.append EmptyString rest) with rest.
    destruct rest as [|c r]; [done|].
    cbn [app fmap list_fmap]. by rewrite (proj2 (cut_newline_c_string _ Hrest)).
  - cbn [history_text]. rewrite string_append_assoc.
    change (String.append (String "010" (history_text ls)) rest)
      with (String "010" (String.append (history_text ls) rest)).
    rewrite getlines_terminated by done.
    change (String.append EmptyString ?x) with x.
    rewrite <- app_comm_cons, !fmap_cons.
    rewrite (proj1 (cut_newline_c_string _ Hl)).
    unfold nonempty_lines in *. rewrite !filter_cons. by rewrite IH.
Qed.

Lemma cut_newline_is_line (l : string) : cut_newline (cut_newline l) = cut_newline l.
Proof.
  induction l as [|c l IH]; [done|].
  cbn [cut_newline]. destruct (is_line_end c) eqn:Hc; [done|].
  cbn [cut_newline]. by rewrite Hc, IH.
Qed.

(** X22.  Whatever bytes the history file holds, after [load_history] the
    history is within its array and no entry is empty or holds a newline.
    Its entries are read off the file line by line: for a file made of the
    lines [ls], each ended by a newline, and of a last line [rest] that no
    newline ends, the history is the last [MAX_HISTORY] of the entries the
    shell had followed, in the order of the file, by what each line holds
    before its first NUL byte, the lines that hold nothing there left out.
    Nothing but the history changes. *)
Theorem load_history_gives_a_history (text : string) (st : shell) :
  history_ok (history st) ->
  let st' := load_history (Some text) st in
  history_ok (history st')
  /\ (forall (ls : list string) (rest : string),
        Forall (fun l => avoids ["010"%char] l = true) ls ->
        avoids ["010"%char] rest = true ->
        text = String.append (history_text ls) rest ->
        history st'
        = keep_last MAX_HISTORY
            (history st ++ nonempty_lines (c_string <$> (ls ++ [rest]))))
  /\ jobs st' = jobs st /\ job_count st' = job_count st
  /\ next_job_id st' = next_job_id st /\ out st' = out st.
Proof.
  intros [Hlen Hall] st'.
  assert (Heq : history st'
                = keep_last MAX_HISTORY
                    (history st
                     ++ nonempty_lines (cut_newline <$> getlines text EmptyString))).
  { unfold st', load_history.
    rewrite (fold_left_fmap cut_newline (fun st l => add_history l st)).
    by apply add_history_all_history. }
  split; [|split].
  - rewrite Heq. split; [apply keep_last_length|].
    unfold keep_last. apply Forall_drop, Forall_app. split; [exact Hall|].
    apply list.Forall_forall. intros l Hl.
    apply list_elem_of_filter in Hl as [Hne Hl]. split; [done|].
    apply list_elem_of_fmap in Hl as (l0 & -> & _). apply cut_newline_is_line.
  - intros ls rest Hls Hrest ->. rewrite Heq. by rewrite getlines_text.
  - unfold st', load_history.
    rewrite (fold_left_fmap cut_newline (fun st l => add_history l st)).
    apply add_history_all_frame.
Qed.

Lemma load_history_gives_a_history_witness :
  history (load_history
             (Some (String.append (history_text ["ls"; EmptyString; String.append "pw" (String "000" "d")])
                      "jobs"))
             initial_shell)
  = ["ls"; "pw"; "jobs"].
Proof.
  destruct (load_history_gives_a_history
              (String.append (history_text ["ls"; EmptyString; String.append "pw" (String "000" "d")])
                 "jobs")
              initial_shell) as (_ & H & _).
  - split; [vm_compute; lia | constructor].
  - rewrite (H ["ls"; EmptyString; String.append "pw" (String "000" "d")] "jobs").
    + reflexivity.
    + repeat constructor.
    + reflexivity.
    + reflexivity.
Defined.

(** ** What a batch of child events leaves alone *)

Section BatchFacts.
Context {L : libc}.

Lemma set_job_state_keeps idx s st k :
  Job.id (jobs (set_job_state idx s st) !!! k) = Job.id (jobs st !!! k)
  /\ Job.pgid (jobs (set_job_state idx s st) !!! k) = Job.pgid (jobs st !!! k)
  /\ Job.cmdline (jobs (set_job_state idx s st) !!! k) = Job.cmdline (jobs st !!! k)
  /\ (k <> idx -> jobs (set_job_state idx s st) !!! k = jobs st !!! k).
Proof.
  unfold set_job_state. cbn [jobs set_jobs].
  destruct (decide (k = idx)) as [->|Hne].
  - destruct (decide (idx < length (jobs st))) as [Hlt|Hge].
    + rewrite list_lookup_total_insert_eq by done. by repeat split.
    + rewrite list_insert_ge by lia. by repeat split.
  - rewrite list_lookup_total_insert_ne by done. by repeat split.
Qed.

Lemma reap_keeps ev st :
  job_count (reap ev st) = job_count st
  /\ next_job_id (reap ev st) = next_job_id st
  /\ history (reap ev st) = history st
  /\ out (reap ev st) = out st
  /\ length (jobs (reap ev st)) = length (jobs st)
  /\ forall k,
      Job.id (jobs (reap ev st) !!! k) = Job.id (jobs st !!! k)
      /\ Job.pgid (jobs (reap ev st) !!! k) = Job.pgid (jobs st !!! k)
      /\ Job.cmdline (jobs (reap ev st) !!! k) = Job.cmdline (jobs st !!! k)
      /\ (job_count st <= k \/ Job.pgid (jobs st !!! k) <> ev_getpgid ev ->
          jobs (reap ev st) !!! k = jobs st !!! k).
Proof.
  unfold reap.
  destruct (find_job_index_by_pgid (ev_getpgid ev) st) as [idx|] eqn:Hf;
    [|by repeat split].
  apply find_job_index_by_pgid_Some in Hf as (Hidx & Hpg & _).
  assert (Hset : forall s,
    job_count (set_job_state idx s st) = job_count st
    /\ next_job_id (set_job_state idx s st) = next_job_id st
    /\ history (set_job_state idx s st) = history st
    /\ out (set_job_state idx s st) = out st
    /\ length (jobs (set_job_state idx s st)) = length (jobs st)
    /\ forall k,
        Job.id (jobs (set_job_state idx s st) !!! k) = Job.id (jobs st !!! k)
        /\ Job.pgid (jobs (set_job_state idx s st) !!! k) = Job.pgid (jobs st !!! k)
        /\ Job.cmdline (jobs (set_job_state idx s st) !!! k) = Job.cmdline (jobs st !!! k)
        /\ (job_count st <= k \/ Job.pgid (jobs st !!! k) <> ev_getpgid ev ->
            jobs (set_job_state idx s st) !!! k = jobs st !!! k)).
  { intros s. do 4 (split; [done|]). split.
    - unfold set_job_state. cbn [jobs set_jobs]. apply length_insert.
    - intros k. destruct (set_job_state_keeps idx s st k) as (H1 & H2 & H3 & H4).
      do 3 (split; [done|]). intros Hk. apply H4. intros ->.
      destruct Hk as [Hk|Hk]; [lia | done]. }
  repeat (destruct (_ : bool)); try apply Hset. by repeat split.
Qed.

(** X23.  A run of [sigchld_handler], whatever the events, changes states
    and nothing else: the count, the id counter, the history and the trace
    are as before, every slot keeps its id, its process group and its
    command text, and a slot outside the table, or of a process group that
    no event of the batch reports, is not touched at all. *)
Theorem sigchld_handler_changes_states_only (evs : list child_event) (st : shell) :
  let st' := sigchld_handler evs st in
  job_count st' = job_count st
  /\ next_job_id st' = next_job_id st
  /\ history st' = history st
  /\ out st' = out st
  /\ length (jobs st') = length (jobs st)
  /\ forall k,
      Job.id (jobs st' !!! k) = Job.id (jobs st !!! k)
      /\ Job.pgid (jobs st' !!! k) = Job.pgid (jobs st !!! k)
      /\ Job.cmdline (jobs st' !!! k) = Job.cmdline (jobs st !!! k)
      /\ (job_count st <= k \/ Job.pgid (jobs st !!! k) ∉ (ev_getpgid <$> evs) ->
          jobs st' !!! k = jobs st !!! k).
Proof.
  revert st. induction evs as [|ev evs IH]; intros st; cbn zeta.
  - by repeat split.
  - cbn [sigchld_handler].
    destruct (IH (reap ev st)) as (H1 & H2 & H3 & H4 & H5 & H6).
    destruct (reap_keeps ev st) as (G1 & G2 & G3 & G4 & G5 & G6).
    do 5 (split; [congruence|]).
    intros k. destruct (H6 k) as (I1 & I2 & I3 & I4).
    destruct (G6 k) as (J1 & J2 & J3 & J4).
    do 3 (split; [congruence|]).
    intros Hk. rewrite I4, J4; [done | |].
    + destruct Hk as [Hk|Hk]; [by left|]. right. intros Heq. apply Hk.
      rewrite fmap_cons, Heq. apply elem_of_cons. by left.
    + rewrite G1, J2. destruct Hk as [Hk|Hk]; [by left|]. right. intros Hin. apply Hk.
      rewrite fmap_cons. apply elem_of_cons. by right.
Qed.

End BatchFacts.

(** ** The [history] builtin *)

Lemma print_history_emits lines :
  forall i st, print_history lines i st = emits (history_lines i lines) st.
Proof.
  induction lines as [|l lines IH]; intros i st.
  - by rewrite emits_nil.
  - cbn [print_history]. rewrite IH, emit_emits, emits_emits. f_equal.
    unfold history_lines. cbn [imap app]. rewrite Nat.add_0_r. f_equal.
    apply imap_ext. intros k x _. cbn. do 3 f_equal. lia.
Qed.

Section HistoryBuiltin.
Context {L : libc}.

(** X24.  The [history] builtin prints the entries of the history, oldest
    first, one [printf] each, numbered from 1; it returns 0 and changes
    nothing, whatever follows its name on the line. *)
Theorem history_builtin_numbers_entries
  (cmd : Command.t) (rest : list string) (full_line : string) (o : os) (st : shell) :
  Command.argv cmd = "history" :: rest ->
  run_builtin cmd full_line o st
  = BReturn 0
      (emits (imap (fun k l => Printf "%d  %s\n" [ArgInt (Z.of_nat k + 1); ArgStr l])
                (history st)) st).
Proof.
  intros Hargv. unfold run_builtin. rewrite Hargv.
  change (String.eqb "history" "cd") with false.
  change (String.eqb "history" "pwd") with false.
  change (String.eqb "history" "exit") with false.
  change (String.eqb "history" "jobs") with false.
  change (String.eqb "history" "history") with true.
  cbv iota. rewrite print_history_emits. do 2 f_equal.
  apply imap_ext. intros k x _. cbn. do 3 f_equal. lia.
Qed.

End HistoryBuiltin.

Lemma history_builtin_numbers_entries_witness :
  out (builtin_state
         (run_builtin (L := Glibc.lib) (parse_command "history") "history" bare_os
            (add_history "pwd" (add_history "ls" initial_shell))))
  = [Printf "%d  %s\n" [ArgInt 1; ArgStr "ls"];
     Printf "%d  %s\n" [ArgInt 2; ArgStr "pwd"]].
Proof.
  rewrite (history_builtin_numbers_entries (L := Glibc.lib) (parse_command "history") [] "history").
  - reflexivity.
  - reflexivity.
Defined.

(** ** One turn of the main loop *)

Lemma substring_none s : forall n, String.substring n 0 s = EmptyString.
Proof. induction s as [|c s IH]; intros [|n]; simpl; auto. Qed.

Lemma leading_spaces_white s :
  made_of white s = true -> leading_spaces s = String.length s.
Proof.
  induction s as [|c s IH]; [done|]. cbn [made_of leading_spaces String.length].
  change (is_delim white c) with (isspace c).
  destruct (isspace c); [|done]. cbn [andb]. intros H. by rewrite IH.
Qed.

Lemma trim_white s : made_of white s = true -> trim s = EmptyString.
Proof.
  intros Hw. unfold trim. rewrite (leading_spaces_white s Hw).
  destruct (trailing_end_spec s (String.length s) (String.length s)) as (H1 & H2 & _).
  cbn zeta in H1, H2. specialize (H2 ltac:(lia)).
  replace (trailing_end s (String.length s) (String.length s) - String.length s)
    with 0 by lia.
  apply substring_none.
Qed.

Lemma made_of_cut_newline delim s :
  made_of delim s = true -> made_of delim (cut_newline s) = true.
Proof.
  induction s as [|c s IH]; [done|]. cbn [made_of cut_newline].
  intros [Hc Hs]%andb_prop. destruct (is_line_end c); [done|].
  cbn [made_of]. by rewrite Hc, IH.
Qed.

Lemma cut_newline_idem s : cut_newline (cut_newline s) = cut_newline s.
Proof.
  induction s as [|c s IH]; [done|]. cbn [cut_newline].
  destruct (is_line_end c) eqn:Hc; [done|].
  cbn [cut_newline]. by rewrite Hc, IH.
Qed.

Lemma cut_newline_strncpy s :
  forall n, cut_newline s = s -> cut_newline (strncpy n s) = strncpy n s.
Proof.
  induction s as [|c s IH]; intros [|n] Hs; try done.
  cbn [cut_newline] in Hs. destruct (is_line_end c) eqn:Hc; [discriminate|].
  injection Hs as Hs. cbn [strncpy cut_newline]. by rewrite Hc, IH.
Qed.

Lemma add_history_ok line st :
  history_ok (history st) -> cut_newline line = line ->
  history_ok (history (add_history line st)).
Proof.
  intros [Hlen Hall] Hline.
  rewrite add_history_history by done. split; [apply keep_last_length|].
  unfold keep_last. apply Forall_drop, Forall_app. split; [exact Hall|].
  destruct line as [|c line]; [constructor|].
  change (nonempty_lines [String c line]) with [String c line].
  by repeat constructor.
Qed.

Section LoopFacts.
Context {L : libc}.

Lemma add_job_entry_wf pg cmdline s st : wf st -> wf (add_job_entry pg cmdline s st).
Proof.
  intros [Hl Hc]. unfold add_job_entry.
  destruct (decide (MAX_JOBS <= job_count st)) as [Hfull|Hroom]; [done|].
  split; cbn [jobs job_count set_job_count set_jobs set_next_job_id].
  - by rewrite length_insert.
  - lia.
Qed.

Lemma apply_op_wf op st : wf st -> wf (apply_op op st).
Proof.
  destruct op; cbn [apply_op];
    auto using add_job_entry_wf, remove_done_jobs_wf, sigchld_handler_wf,
      set_job_state_wf.
Qed.

Lemma apply_op_history op st : history (apply_op op st) = history st.
Proof.
  destruct op as [pg c s| |evs|idx s]; cbn [apply_op].
  - unfold add_job_entry. by destruct (decide _).
  - unfold remove_done_jobs. by destruct (remove_done_loop _ _ _ _).
  - revert st. induction evs as [|ev evs IH]; intros st; [done|].
    cbn [sigchld_handler]. rewrite IH. apply reap_keeps.
  - done.
Qed.

Lemma session_wf_history ops :
  forall st, wf st ->
    wf (session ops st).1 /\ history (session ops st).1 = history st.
Proof.
  induction ops as [|op ops IH]; intros st Hwf; [done|].
  cbn [session].
  destruct (IH (apply_op op st) (apply_op_wf op st Hwf)) as [H1 H2].
  destruct (session ops (apply_op op st)) as [st' ids]. cbn [fst] in *.
  split; [done|]. by rewrite H2, apply_op_history.
Qed.

Lemma follows_wf_history st st' :
  follows st st' -> wf st -> wf st' /\ history st' = history st.
Proof.
  intros (ops & d & ->) Hwf.
  destruct (session_wf_history ops st Hwf) as [[H1 H2] H3]. by repeat split.
Qed.

(** X25.  A line of white space only is skipped by the main loop: nothing
    is added to the history, nothing is run, and the table is not even
    compacted; the shell goes on with the state it had. *)
Theorem blank_line_is_skipped (raw : string) (o : os) (st : shell) :
  made_of white raw = true ->
  main_step raw o st = Continue st.
Proof.
  intros Hw. unfold main_step. cbn zeta.
  by rewrite (trim_white _ (made_of_cut_newline _ _ Hw)).
Qed.

(** X26.  One turn of the main loop on a line that is not blank, whatever
    the line runs and whatever the system answers; the line is the C string
    in the buffer, what [fgets] read up to the first newline or NUL.  The
    array keeps its size and the count stays within it.  The line as typed,
    cut to the buffer, is the newest entry of the history: it was added
    unless it repeats the entry before it, and nothing else touched the
    history, which stays within its array with no entry empty or holding a
    newline.  And if the shell goes on, it does so with no [JOB_DONE] entry
    in the table. *)
Theorem main_step_keeps_table_and_history (raw : string) (o : os) (st : shell) :
  wf st ->
  history_ok (history st) ->
  trim (cut_newline raw) <> EmptyString ->
  let full_line := strncpy (MAX_INPUT - 1) (cut_newline raw) in
  let st' := flow_state (main_step raw o st) in
  wf st'
  /\ history_ok (history st')
  /\ last (history st') = Some full_line
  /\ history st'
     = (if decide (last (history st) = Some full_line) then history st
        else keep_last MAX_HISTORY (history st ++ [full_line]))
  /\ (forall st2, main_step raw o st = Continue st2 -> Forall alive (table st2)).
Proof.
  intros Hwf Hok Hline full_line st'.
  assert (Hfull : full_line <> EmptyString).
  { unfold full_line. destruct (cut_newline raw) as [|c l]; [done|].
    by change (MAX_INPUT - 1) with (S (MAX_INPUT - 2)). }
  assert (Hcut : cut_newline full_line = full_line).
  { apply cut_newline_strncpy, cut_newline_idem. }
  set (st1 := match last (history st) with
              | None => add_history full_line st
              | Some prev =>
                  if String.eqb prev full_line then st else add_history full_line st
              end).
  assert (Hadd : history (add_history full_line st)
                 = keep_last MAX_HISTORY (history st ++ [full_line])).
  { rewrite add_history_history by apply Hok.
    destruct full_line as [|c l] eqn:Hf; [done|]. done. }
  assert (Hlast_add : last (history (add_history full_line st)) = Some full_line).
  { destruct full_line as [|c l] eqn:Hf; [done|].
    cbn [add_history set_history history]. apply last_snoc. }
  assert (Hst1 : wf st1 /\ history_ok (history st1)
                 /\ last (history st1) = Some full_line
                 /\ history st1
                    = (if decide (last (history st) = Some full_line) then history st
                       else keep_last MAX_HISTORY (history st ++ [full_line]))).
  { assert (Hwf_add : wf (add_history full_line st)).
    { destruct (add_history_frame full_line st) as (H1 & H2 & _).
      destruct Hwf. split; congruence. }
    unfold st1. destruct (last (history st)) as [prev|] eqn:Hprev.
    - destruct (String.eqb prev full_line) eqn:Heq.
      + apply String.eqb_eq in Heq as ->. rewrite decide_True by done.
        split; [done|split; [done|split; done]].
      + apply String.eqb_neq in Heq. rewrite decide_False by congruence.
        split; [done|split; [by apply add_history_ok|split; done]].
    - rewrite decide_False by done.
      split; [done|split; [by apply add_history_ok|split; done]]. }
  destruct Hst1 as (Hwf1 & Hok1 & Hlast1 & Hhist1).
  assert (Hstep : exists background line_in,
             main_step raw o st
             = match execute_line line_in background full_line o st1 with
               | Continue st2 => Continue (remove_done_jobs st2)
               | Exited code st2 => Exited code st2
               end).
  { unfold main_step. cbn zeta. fold full_line.
    destruct (trim (cut_newline raw)) as [|c l] eqn:Ht; [done|].
    fold st1.
    destruct (match last_char (String c l) with
              | Some c0 =>
                  if Ascii.eqb c0 "&"
                  then (true,
                        trim (String.substring 0 (String.length (String c l) - 1)
                                (String c l)))
                  else (false, String c l)
              | None => (false, String c l)
              end) as [background line_in].
    by exists background, line_in. }
  destruct Hstep as (background & line_in & Hstep).
  pose proof (execute_line_follows line_in background full_line o st1) as Hfol.
  apply follows_wf_history in Hfol as [Hwf2 Hhist2]; [|done].
  subst st'. rewrite Hstep.
  destruct (execute_line line_in background full_line o st1) as [st2|code st2];
    cbn [flow_state] in *.
  - assert (Hh : history (remove_done_jobs st2) = history st2).
    { unfold remove_done_jobs. by destruct (remove_done_loop _ _ _ _). }
    rewrite Hh, Hhist2.
    split; [by apply remove_done_jobs_wf|]. do 3 (split; [done|]).
    intros st3 [= <-].
    destruct (remove_done_jobs_table st2) as (Ht & _); [destruct Hwf2; lia|].
    rewrite Ht. apply list.Forall_forall. intros j Hj.
    apply list_elem_of_filter in Hj. tauto.
  - rewrite Hhist2. do 4 (split; [done|]). discriminate.
Qed.

End LoopFacts.

Lemma blank_line_is_skipped_witness :
  main_step (L := Glibc.lib) (String " " (String "009" (String "010" EmptyString))) bare_os initial_shell = Continue initial_shell.
Proof. apply blank_line_is_skipped. reflexivity. Defined.

Lemma main_step_keeps_table_and_history_witness :
  history (flow_state (main_step (L := Glibc.lib) (String.append "  jobs" (String "010" EmptyString)) bare_os initial_shell)) = ["  jobs"].
Proof.
  destruct (main_step_keeps_table_and_history (L := Glibc.lib) (String.append "  jobs" (String "010" EmptyString)) bare_os initial_shell) as (_ & _ & _ & H & _).
  - split; [reflexivity | vm_compute; lia].
  - split; [vm_compute; lia | constructor].
  - discriminate.
  - rewrite H. reflexivity.
Defined.

(** ** Lines typed at the prompt *)

Lemma set_history_same st : set_history (history st) st = st.
Proof. by destruct st. Qed.

Lemma record_line full_line st :
  length (history st) <= MAX_HISTORY ->
  full_line <> EmptyString ->
  match last (history st) with
  | None => add_history full_line st
  | Some prev => if String.eqb prev full_line then st else add_history full_line st
  end = set_history (recorded full_line (history st)) st
  /\ last (recorded full_line (history st)) = Some full_line.
Proof.
  intros Hlen Hfull.
  assert (Hadd : add_history full_line st
                 = set_history (keep_last MAX_HISTORY (history st ++ [full_line])) st).
  { destruct full_line as [|c l]; [done|].
    pose proof (add_history_history (String c l) st Hlen) as Hh.
    change (nonempty_lines [String c l]) with [String c l] in Hh.
    rewrite <- Hh. reflexivity. }
  assert (Hlast : last (keep_last MAX_HISTORY (history st ++ [full_line]))
                  = Some full_line).
  { apply (f_equal history) in Hadd. cbn [history set_history] in Hadd.
    rewrite <- Hadd. destruct full_line; [done|].
    cbn [add_history set_history history]. apply last_snoc. }
  unfold recorded. destruct (last (history st)) as [prev|] eqn:Hprev.
  - destruct (String.eqb prev full_line) eqn:Heq.
    + apply String.eqb_eq in Heq as ->. rewrite decide_True by done.
      by rewrite set_history_same.
    + apply String.eqb_neq in Heq. rewrite decide_False by congruence. done.
  - rewrite decide_False by done. done.
Qed.

Lemma strncpy_nonempty s : s <> EmptyString -> strncpy (MAX_INPUT - 1) s <> EmptyString.
Proof.
  destruct s as [|c s]; [done|]. intros _.
  by change (MAX_INPUT - 1) with (S (MAX_INPUT - 2)).
Qed.

Lemma trim_nonempty s : trim s <> EmptyString -> s <> EmptyString.
Proof. by intros H ->. Qed.

Lemma last_char_snoc s c : last_char (String.append s (String c EmptyString)) = Some c.
Proof.
  unfold last_char. rewrite string_length_append. cbn [String.length].
  replace (String.length s + 1) with (S (String.length s)) by lia.
  change (String.length s) with (0 + String.length s) at 1.
  by rewrite <- (append_correct2 s (String c EmptyString) 0).
Qed.

Lemma substring_prefix a b :
  String.substring 0 (String.length a) (String.append a b) = a.
Proof.
  induction a as [|c a IH].
  - by destruct b.
  - change (String.append (String c a) b) with (String c (String.append a b)).
    cbn [String.length String.substring]. by rewrite IH.
Qed.

Section PromptFacts.
Context {L : libc}.

Lemma launch_background_table segs full_cmd o st :
  wf st -> job_count st < MAX_JOBS ->
  segs <> [] ->
  (forall k, k < length segs - 1 -> pipe_ok o k = true) ->
  (forall i, i < length segs -> (0 < fork_ret o i)%Z) ->
  table (launch segs true full_cmd o st)
  = table st ++ [ {| Job.id := next_job_id st; Job.pgid := fork_ret o 0;
                     Job.cmdline := strncpy (MAX_INPUT - 1) full_cmd;
                     Job.state := JOB_RUNNING |} ].
Proof.
  intros Hwf Hlt Hne Hpipes Hforks.
  rewrite launch_created by done. unfold after_forks.
  rewrite close_pipes_emits, emits_emits, add_job_entry_emits.
  destruct (add_job_entry_table (fork_ret o 0) full_cmd JOB_RUNNING st Hwf Hlt)
    as (Htab & _).
  exact Htab.
Qed.

(** X27.  The line [exit], with white space around it or not, ends the
    shell with status 0 from inside the main loop.  The line is recorded
    first, so the history that is saved ends with the [exit] line itself;
    the save is one write of the whole history, and is silently dropped when
    the file cannot be opened.  The Job Table is left as it was: no job is
    signalled, waited for or removed. *)
Theorem exit_line_saves_history_with_itself (raw : string) (o : os) (st : shell) :
  length (history st) <= MAX_HISTORY ->
  trim (cut_newline raw) = "exit" ->
  let full_line := strncpy (MAX_INPUT - 1) (cut_newline raw) in
  let h := recorded full_line (history st) in
  main_step raw o st
  = Exited 0 (emits (if history_file_ok o then [SaveHistory h] else [])
                (set_history h st))
  /\ last h = Some full_line.
Proof.
  intros Hlen Ht full_line h.
  assert (Hfull : full_line <> EmptyString).
  { apply strncpy_nonempty, trim_nonempty. by rewrite Ht. }
  destruct (record_line full_line st Hlen Hfull) as [Hst1 Hlast].
  split; [|exact Hlast].
  unfold main_step. cbv zeta. rewrite Ht. fold full_line. cbv iota.
  rewrite Hst1. fold h.
  change (last_char "exit") with (Some "t"%char).
  change (Ascii.eqb "t" "&") with false. cbv iota beta.
  unfold execute_line.
  change (split_pipeline "exit" MAX_CMDS) with ["exit"].
  change (parse_command (strncpy (MAX_INPUT - 1) "exit"))
    with (Command.mk ["exit"] None None false).
  change (is_builtin (Command.mk ["exit"] None None false)) with true. cbv iota.
  unfold run_builtin. cbn [Command.argv].
  change (String.eqb "exit" "cd") with false.
  change (String.eqb "exit" "pwd") with false.
  change (String.eqb "exit" "exit") with true. cbv iota.
  unfold save_history. cbn [history_file_ok].
  destruct (history_file_ok o).
  - reflexivity.
  - by rewrite emits_nil.
Qed.

(** X28.  A line that ends with [&] is launched in the background without
    the [&].  Let what stands before the [&] hold at least one segment and,
    if it is a single segment, let that segment not be a builtin (nor
    empty, which counts as one); then, when the table has room and the pipes
    and forks succeed, the turn of the main loop ends with the [JOB_DONE]
    entries gone and one new entry last in the table, running, with the next
    id, the process group of the first stage and, as its command text, the
    line as it was typed, the [&] included. *)
Theorem background_line_leaves_a_running_job
  (raw body : string) (o : os) (st : shell) :
  wf st ->
  job_count st < MAX_JOBS ->
  length (history st) <= MAX_HISTORY ->
  trim (cut_newline raw) = String.append body "&" ->
  let segs := split_pipeline (trim body) MAX_CMDS in
  segs <> [] ->
  (forall seg, segs = [seg] ->
     is_builtin (parse_command (strncpy (MAX_INPUT - 1) seg)) = false) ->
  (forall k, k < length segs - 1 -> pipe_ok o k = true) ->
  (forall i, i < length segs -> (0 < fork_ret o i)%Z) ->
  let full_line := strncpy (MAX_INPUT - 1) (cut_newline raw) in
  exists st',
    main_step raw o st = Continue st'
    /\ table st'
       = filter alive (table st)
         ++ [ {| Job.id := next_job_id st; Job.pgid := fork_ret o 0;
                 Job.cmdline := full_line; Job.state := JOB_RUNNING |} ]
    /\ history st' = recorded full_line (history st).
Proof.
  intros Hwf Hroom Hlen Ht segs Hne Hcmd Hpipes Hforks full_line.
  assert (Hfull : full_line <> EmptyString).
  { apply strncpy_nonempty, trim_nonempty. rewrite Ht.
    intros H%(f_equal String.length). rewrite string_length_append in H.
    cbn [String.length] in H. lia. }
  destruct (record_line full_line st Hlen Hfull) as [Hst1 _].
  set (st1 := set_history (recorded full_line (history st)) st) in *.
  assert (Hwf1 : wf st1) by exact Hwf.
  set (st2 := launch segs true full_line o st1).
  assert (Hstep : main_step raw o st = Continue (remove_done_jobs st2)).
  { unfold main_step. cbv zeta. rewrite Ht. fold full_line.
    rewrite Hst1.
    change (String.append body "&") with (String.append body (String "&" EmptyString)).
    rewrite last_char_snoc.
    change (Ascii.eqb "&" "&") with true.
    rewrite string_length_append. cbn [String.length].
    replace (String.length body + 1 - 1) with (String.length body) by lia.
    rewrite substring_prefix.
    destruct (String.append body (String "&" EmptyString)) as [|c l] eqn:Hb.
    { apply (f_equal String.length) in Hb. rewrite string_length_append in Hb.
      cbn [String.length] in Hb. lia. }
    cbv iota beta. unfold execute_line. fold segs.
    destruct segs as [|seg [|seg' more]] eqn:Hsegs; [done| |reflexivity].
    rewrite (Hcmd seg eq_refl). reflexivity. }
  exists (remove_done_jobs st2). split; [exact Hstep|].
  assert (Htab2 : table st2
                  = table st ++ [ {| Job.id := next_job_id st; Job.pgid := fork_ret o 0;
                                     Job.cmdline := full_line;
                                     Job.state := JOB_RUNNING |} ]).
  { unfold st2. rewrite launch_background_table by done.
    unfold full_line at 1. rewrite (strncpy_fits _ (strncpy _ _)); [done|].
    rewrite strncpy_length. lia. }
  destruct (follows_wf_history st1 st2 (launch_follows _ _ _ _ _) Hwf1)
    as [Hwf2 Hh2].
  destruct (remove_done_jobs_table st2) as (Htab & _); [destruct Hwf2; lia|].
  split.
  - rewrite Htab, Htab2, filter_app. f_equal.
  - transitivity (history st2); [|exact Hh2].
    unfold remove_done_jobs. by destruct (remove_done_loop _ _ _ _).
Qed.

End PromptFacts.

Lemma exit_line_saves_history_with_itself_witness :
  main_step (L := Glibc.lib) (String.append " exit" (String "010" EmptyString))
    bare_os initial_shell
  = Exited 0 (emits [SaveHistory [" exit"]] (set_history [" exit"] initial_shell)).
Proof.
  destruct (exit_line_saves_history_with_itself (L := Glibc.lib)
              (String.append " exit" (String "010" EmptyString)) bare_os initial_shell)
    as [H _].
  - vm_compute. lia.
  - reflexivity.
  - rewrite H. reflexivity.
Defined.

Lemma background_line_leaves_a_running_job_witness :
  exists st',
    main_step (L := Glibc.lib) (String.append "sleep 5 &" (String "010" EmptyString))
      stopping_os initial_shell = Continue st'
    /\ table st' = [ {| Job.id := 1; Job.pgid := 1000; Job.cmdline := "sleep 5 &";
                        Job.state := JOB_RUNNING |} ].
Proof.
  destruct (background_line_leaves_a_running_job (L := Glibc.lib)
              (String.append "sleep 5 &" (String "010" EmptyString)) "sleep 5 "
              stopping_os initial_shell)
    as (st' & H1 & H2 & _).
  - split; [reflexivity | vm_compute; lia].
  - vm_compute. lia.
  - vm_compute. lia.
  - reflexivity.
  - discriminate.
  - intros seg [= <-]. reflexivity.
  - intros k Hk. reflexivity.
  - intros i Hi. vm_compute. destruct i; reflexivity.
  - exists st'. split; [exact H1|]. rewrite H2. reflexivity.
Defined.

(** ** A fork that fails: what the launch leaves behind *)




Section ForkFailureLeaves.
Context {L : libc}.


End ForkFailureLeaves.


(** ** Job ids over a whole session *)

Section SessionIds.
Context {L : libc}.

Lemma sigchld_handler_next_job_id evs :
  forall st, next_job_id (sigchld_handler evs st) = next_job_id st.
Proof.
  induction evs as [|ev evs IH]; intros st; [done|].
  cbn [sigchld_handler]. rewrite IH. apply reap_keeps.
Qed.

Lemma add_job_entry_id pg cmdline s st :
  wf st -> job_count st < MAX_JOBS ->
  Job.id (jobs (add_job_entry pg cmdline s st) !!! job_count st) = next_job_id st.
Proof.
  intros [Hl Hc] Hlt. unfold add_job_entry. rewrite decide_False by lia.
  cbn [jobs set_jobs set_job_count]. by rewrite list_lookup_total_insert_eq by lia.
Qed.

Lemma assigned_by_add pg cmdline s st :
  wf st ->
  assigned_by (AddJob pg cmdline s) st
  = if decide (job_count st < MAX_JOBS) then [next_job_id st] else [].
Proof.
  intros Hwf. cbn [assigned_by apply_op].
  destruct (decide (job_count st < MAX_JOBS)) as [Hlt|Hge].
  - destruct (add_job_entry_table pg cmdline s st Hwf Hlt) as (_ & Hcnt & _).
    rewrite decide_True by done. by rewrite add_job_entry_id.
  - rewrite add_job_entry_full by lia. by rewrite decide_False by lia.
Qed.

(** One operation keeps the invariant as long as an id it assigns is taken
    below [INT_MAX], and moves the counter by the number of ids it
    assigns. *)
Lemma ids_invariant_step op st ids :
  ids_invariant st ids ->
  (assigned_by op st <> [] -> (next_job_id st < INT_MAX)%Z) ->
  ids_invariant (apply_op op st) (ids ++ assigned_by op st)
  /\ next_job_id (apply_op op st)
     = (next_job_id st + Z.of_nat (length (assigned_by op st)))%Z.
Proof.
  intros Hinv Hmax. pose proof Hinv as (Hwf & Hn & _).
  destruct op as [pg cmdline s| |evs|idx s].
  - rewrite assigned_by_add in * by done.
    destruct (decide (job_count st < MAX_JOBS)) as [Hlt|Hge].
    + specialize (Hmax ltac:(done)).
      destruct (ids_invariant_apply_op (AddJob pg cmdline s) st ids Hinv Hmax) as [H _].
      rewrite assigned_by_add, decide_True in H by done. split; [exact H|].
      cbn [apply_op length].
      destruct (add_job_entry_table pg cmdline s st Hwf Hlt) as (_ & _ & Hnid & _).
      rewrite Hnid. rewrite wrap_int_small; [lia|]. unfold INT_MAX in Hmax. lia.
    + cbn [apply_op length]. rewrite add_job_entry_full by lia.
      rewrite app_nil_r. split; [done | lia].
  - cbn [assigned_by apply_op length]. rewrite app_nil_r.
    split; [by apply ids_invariant_remove_done_jobs|].
    unfold remove_done_jobs.
    destruct (remove_done_loop (job_count st) 0 0 (jobs st)). cbn. lia.
  - cbn [assigned_by apply_op length]. rewrite app_nil_r.
    split; [by apply ids_invariant_sigchld_handler|].
    rewrite sigchld_handler_next_job_id. lia.
  - cbn [assigned_by apply_op length]. rewrite app_nil_r.
    split; [by apply ids_invariant_set_job_state|]. cbn. lia.
Qed.

Lemma ids_invariant_registrations ops :
  forall st ids0,
    ids_invariant st ids0 ->
    (next_job_id st + Z.of_nat (length (session ops st).2) <= INT_MAX)%Z ->
    ids_invariant (session ops st).1 (ids0 ++ (session ops st).2).
Proof.
  induction ops as [|op ops IH]; intros st ids0 Hinv Hmax.
  - cbn [session fst snd]. by rewrite app_nil_r.
  - cbn [session] in *.
    specialize (IH (apply_op op st) (ids0 ++ assigned_by op st)).
    destruct (session ops (apply_op op st)) as [st' ids]. cbn [fst snd] in *.
    rewrite length_app in Hmax.
    destruct (ids_invariant_step op st ids0 Hinv) as [Hinv' Hnext].
    { intros Hne. destruct (assigned_by op st); [done|]. cbn [length] in Hmax. lia. }
    rewrite app_assoc. apply IH; [done|]. lia.
Qed.

(** C7, as the code has it.  In a session that starts with the empty table
    and in which fewer than [INT_MAX] jobs are registered, however many
    other changes the table sees (the id counter is an [int] that each
    registration increments): the ids assigned are positive, each one is
    strictly greater than every id assigned before it, so that no id is
    ever assigned twice, whether the job that had it is still in the table,
    is done or was removed; and the jobs in the table have pairwise distinct
    ids, each of them one of the ids assigned. *)
Theorem job_ids_increase_and_are_unique (ops : list job_op) :
  let st := (session ops initial_shell).1 in
  let ids := (session ops initial_shell).2 in
  (Z.of_nat (length ids) < INT_MAX)%Z ->
  strictly_increasing ids
  /\ NoDup ids
  /\ Forall (fun i => (1 <= i)%Z) ids
  /\ NoDup (Job.id <$> table st)
  /\ Forall (fun j => Job.id j ∈ ids) (table st).
Proof.
  intros st ids Hlen.
  assert (Hinit : ids_invariant initial_shell []).
  { split; [split; [reflexivity | unfold MAX_JOBS; simpl; lia]|].
    repeat split; try constructor; simpl; lia. }
  pose proof (ids_invariant_registrations ops initial_shell [] Hinit) as Hinv.
  cbn [app] in Hinv. fold st ids in Hinv.
  destruct Hinv as (Hwf & Hn & Hs & Hb & Ht & Hin);
    [change (next_job_id initial_shell) with 1%Z; lia|].
  repeat split.
  - by apply StronglySorted_lt_increasing.
  - by apply StronglySorted_lt_NoDup.
  - eapply Forall_impl; [exact Hb|]. simpl. lia.
  - by apply StronglySorted_lt_NoDup.
  - by apply Forall_fmap in Hin.
Qed.

Lemma session_app_ids ops1 :
  forall ops2 st,
    (session (ops1 ++ ops2) st).2
    = (session ops1 st).2 ++ (session ops2 (session ops1 st).1).2.
Proof.
  induction ops1 as [|op ops1 IH]; intros ops2 st; [done|].
  cbn [app session]. specialize (IH ops2 (apply_op op st)).
  destruct (session (ops1 ++ ops2) (apply_op op st)) as [s1 i1].
  destruct (session ops1 (apply_op op st)) as [s2 i2]. cbn [fst snd] in *.
  by rewrite IH, app_assoc.
Qed.

(** One job started, killed and compacted away on an empty table: the
    table is empty again, and the counter has moved by one [int]. *)
Lemma session_round st :
  wf st -> job_count st = 0 ->
  let r := session [AddJob 4242 "sleep 1 &" JOB_RUNNING; SetState 0 JOB_DONE;
                    RemoveDone] st in
  r.2 = [next_job_id st]
  /\ wf r.1 /\ job_count r.1 = 0
  /\ next_job_id r.1 = wrap_int (next_job_id st + 1).
Proof.
  intros Hwf Hcnt.
  assert (Hlt : job_count st < MAX_JOBS) by (rewrite Hcnt; unfold MAX_JOBS; lia).
  cbn [session assigned_by fst snd app].
  change (apply_op (AddJob 4242 "sleep 1 &" JOB_RUNNING) st)
    with (add_job_entry 4242 "sleep 1 &" JOB_RUNNING st).
  set (st1 := add_job_entry 4242 "sleep 1 &" JOB_RUNNING st).
  destruct (add_job_entry_table 4242 "sleep 1 &" JOB_RUNNING st Hwf Hlt)
    as (Htab & Hc1 & Hnid & Hwf1).
  fold st1 in Htab, Hc1, Hnid, Hwf1.
  rewrite decide_True by done.
  unfold st1 at 1. rewrite add_job_entry_id by done.
  split; [by rewrite app_nil_r|].
  cbn [apply_op].
  set (st2 := set_job_state 0 JOB_DONE st1).
  assert (Hwf2 : wf st2) by (by apply set_job_state_wf).
  assert (Htab2 : filter alive (table st2) = []).
  { unfold st2. rewrite table_set_job_state by (destruct Hwf1; lia).
    rewrite Htab. unfold table at 1 2. rewrite Hcnt, take_0.
    match goal with |- context [[] ++ [?j]] =>
      change (filter alive [Job.with_state JOB_DONE j] = []) end.
    rewrite filter_cons_False; [done|].
    unfold alive. cbn [Job.state Job.with_state]. tauto. }
  destruct (remove_done_jobs_table st2) as (_ & _ & Hc3); [destruct Hwf2; lia|].
  split; [by apply remove_done_jobs_wf|]. split.
  - rewrite Hc3, Htab2. reflexivity.
  - transitivity (next_job_id st2); [|exact Hnid].
    unfold remove_done_jobs.
    by destruct (remove_done_loop (job_count st2) 0 0 (jobs st2)).
Qed.

Lemma session_churn n :
  forall st,
    wf st -> job_count st = 0 ->
    (- 2 ^ 31 <= next_job_id st <= INT_MAX)%Z ->
    (next_job_id st + Z.of_nat n <= INT_MAX + 1)%Z ->
    let r := session (churn n) st in
    r.2 = (fun i => (next_job_id st + Z.of_nat i)%Z) <$> seq 0 n
    /\ wf r.1 /\ job_count r.1 = 0
    /\ next_job_id r.1 = wrap_int (next_job_id st + Z.of_nat n).
Proof.
  induction n as [|n IH]; intros st Hwf Hcnt Hlow Hmax.
  - cbn [churn session fst snd seq fmap list_fmap].
    split; [done|split; [done|split; [done|]]].
    rewrite wrap_int_small; [lia|]. unfold INT_MAX in Hlow. lia.
  - cbn [churn]. cbn zeta.
    rewrite session_app_ids, session_app.
    destruct (session_round st Hwf Hcnt) as (Hids & Hwf1 & Hcnt1 & Hnext1).
    cbn zeta in Hids, Hwf1, Hcnt1, Hnext1.
    set (st1 := (session [AddJob 4242 "sleep 1 &" JOB_RUNNING; SetState 0 JOB_DONE;
                          RemoveDone] st).1) in *.
    rewrite Hids.
    destruct n as [|n'].
    + cbn [churn session fst snd seq fmap list_fmap app].
      rewrite Z.add_0_r. split; [done|split; [done|split; [done|]]].
      rewrite Hnext1. reflexivity.
    + assert (Hn1 : next_job_id st1 = (next_job_id st + 1)%Z).
      { rewrite Hnext1. apply wrap_int_small. unfold INT_MAX in Hmax. lia. }
      destruct (IH st1 Hwf1 Hcnt1) as (Hids' & Hwf' & Hcnt' & Hnext');
        [unfold INT_MAX in *; lia | lia |].
      cbn zeta in Hids', Hwf', Hcnt', Hnext'.
      rewrite Hids', Hnext', Hn1.
      split; [|split; [done|split; [done|f_equal; lia]]].
      change (seq 0 (S (S n'))) with (0 :: seq 1 (S n')).
      rewrite fmap_cons, <- (fmap_S_seq 0), <- list_fmap_compose.
      cbn [app]. f_equal; [lia|].
      apply list_fmap_ext. intros i x _. cbn [compose]. lia.
Qed.

(** After [n = INT_MAX] jobs the counter has left the range of [int]: the
    next job is given the id [-2147483648], below the very first id. *)
Lemma ids_after_INT_MAX_registrations (n : nat) :
  Z.of_nat n = INT_MAX ->
  let ops := churn n ++ [AddJob 4242 "sleep 1 &" JOB_RUNNING] in
  let ids := (session ops initial_shell).2 in
  ids !! 0 = Some 1%Z
  /\ ids !! n = Some (-2147483648)%Z
  /\ ~ strictly_increasing ids.
Proof.
  intros Hn ops ids.
  assert (Hwf0 : wf initial_shell) by (split; [reflexivity | unfold MAX_JOBS; simpl; lia]).
  destruct (session_churn n initial_shell Hwf0 eq_refl) as (Hids & Hwf & Hcnt & Hnext).
  { change (next_job_id initial_shell) with 1%Z. unfold INT_MAX. lia. }
  { change (next_job_id initial_shell) with 1%Z. lia. }
  cbn zeta in Hids, Hwf, Hcnt, Hnext.
  change (next_job_id initial_shell) with 1%Z in Hids, Hnext.
  assert (Hids2 : ids = ((fun i => (1 + Z.of_nat i)%Z) <$> seq 0 n)
                        ++ [(-2147483648)%Z]).
  { unfold ids, ops. rewrite session_app_ids, Hids. f_equal.
    cbn [session fst snd]. rewrite app_nil_r.
    rewrite assigned_by_add by done.
    rewrite decide_True by (rewrite Hcnt; unfold MAX_JOBS; lia).
    rewrite Hnext, Hn. reflexivity. }
  assert (H0 : ids !! 0 = Some 1%Z).
  { rewrite Hids2. destruct n as [|n']; [unfold INT_MAX in Hn; lia|]. reflexivity. }
  assert (Hlast : ids !! n = Some (-2147483648)%Z).
  { rewrite Hids2. rewrite lookup_app_r by (rewrite length_fmap, length_seq; lia).
    rewrite length_fmap, length_seq, Nat.sub_diag. reflexivity. }
  split; [exact H0|]. split; [exact Hlast|].
  intros Hinc. specialize (Hinc 0 n 1%Z (-2147483648)%Z).
  assert (0 < n) by (unfold INT_MAX in Hn; lia).
  specialize (Hinc ltac:(done) H0 Hlast). lia.
Qed.

End SessionIds.

(** C7, counterexample.  A session that starts and kills one background job
    after the other, [INT_MAX] times, and then starts one more: the first
    job had id 1, the last one gets id [-2147483648], which is neither
    positive nor greater than the ids assigned before it. *)
Lemma job_id_falls_after_INT_MAX_registrations :
  let ops := churn (Z.to_nat INT_MAX) ++ [AddJob 4242 "sleep 1 &" JOB_RUNNING] in
  let ids := (session (L := Glibc.lib) ops initial_shell).2 in
  ids !! 0 = Some 1%Z
  /\ ids !! (Z.to_nat INT_MAX) = Some (-2147483648)%Z
  /\ ~ strictly_increasing ids.
Proof.
  apply (ids_after_INT_MAX_registrations (L := Glibc.lib) (Z.to_nat INT_MAX)).
  apply Z2Nat.id. unfold INT_MAX. lia.
Qed.

(** C7 on a session that registers a job, kills and removes it, and
    registers another: the ids are 1 and 2, the table holds job 2. *)
Lemma job_ids_increase_and_are_unique_witness :
  let ops := [AddJob 100 "a &" JOB_RUNNING; SetState 0 JOB_DONE; RemoveDone;
              AddJob 200 "b &" JOB_RUNNING] in
  (session (L := Glibc.lib) ops initial_shell).2 = [1%Z; 2%Z]
  /\ strictly_increasing (session (L := Glibc.lib) ops initial_shell).2
  /\ NoDup (Job.id <$> table (session (L := Glibc.lib) ops initial_shell).1).
Proof.
  intros ops. split; [reflexivity|].
  destruct (job_ids_increase_and_are_unique (L := Glibc.lib) ops)
    as (Hinc & _ & _ & Hnd & _).
  - vm_compute. reflexivity.
  - split; [exact Hinc | exact Hnd].
Defined.

(** ** The handler on the events the system delivers *)

Section DeliveredEvents.
Context {L : libc}.




End DeliveredEvents.


(** ** The states the main loop can be in *)










Section MainLoopStates.
Context {L : libc}.















End MainLoopStates.

